(** * iotagent-node-lib: expression plugin and context server

    A shallow embedding of [lib/plugins/jexlParser.js] (the JEXL expression
    plugin: [extractContext], [contextAvailable], [expressionApplier],
    [processExpressionAttributes]) and of the NGSI context server that
    follows it in the same source file ([createUpdateResponse],
    [splitUpdates] for NGSIv1 and NGSIv2, [handleQueryNgsi2], [clear]),
    with the properties the specification states about them. *)

From Stdlib Require Import ZArith Ascii List Bool Lia.
From Stdlib Require String DecimalString.
From stdpp Require Import gmap strings list.

Local Open Scope Z_scope.

(** ** The JavaScript values the plugin handles

    Attribute values arrive as JSON scalars and JEXL results are scalars in
    every case the plugin coerces: [undefined], [null], booleans, numbers and
    strings. Objects and arrays are outside this model. An absent property
    reads as [undefined].

    A JavaScript number is kept as an exact decimal [Dec m e] = m * 10^e
    (always in the normal form built by [mkDec]), or [NaN], or an infinity.
    Magnitudes outside the double range become an infinity or zero as in
    IEEE 754, so that truthiness is the one JavaScript computes, but inside
    the range a value is not rounded to 53 bits. Strings are sequences of
    ASCII code units. *)
Module JS.

Inductive number : Type :=
  | NaN
  | Inf (negative : bool)
  | Dec (m e : Z).

Inductive jsval : Type :=
  | VUndefined
  | VNull
  | VBool (b : bool)
  | VNum (n : number)
  | VStr (s : string).

#[global] Instance number_eq_dec : EqDecision number.
Proof. solve_decision. Defined.

#[global] Instance jsval_eq_dec : EqDecision jsval.
Proof. solve_decision. Defined.

(** *** Normal form of a decimal *)

(** Moves factors of ten from the mantissa to the exponent. *)
Fixpoint strip10 (fuel : nat) (m e : Z) : Z * Z :=
  match fuel with
  | O => (m, e)
  | S fuel' =>
      if (m mod 10 =? 0) then strip10 fuel' (m / 10) (e + 1) else (m, e)
  end.

(** Number of decimal digits of a positive integer ([0] for [0]). *)
Definition ndigits (n : Z) : Z :=
  Z.of_nat (String.length (DecimalString.NilEmpty.string_of_uint (N.to_uint (Z.to_N n)))).

(** 2^1024 - 2^970: from here on a double rounds to Infinity. *)
Definition overflow_threshold : Z := 2 ^ 1024 - 2 ^ 970.

(** |m * 10^e| >= 2^1024 - 2^970, for m <> 0. *)
Definition overflows (m e : Z) : bool :=
  if (400 <? ndigits (Z.abs m) + e) then true
  else if (ndigits (Z.abs m) + e <? 300) then false
  else if (0 <=? e) then (overflow_threshold <=? Z.abs m * 10 ^ e)
  else (overflow_threshold * 10 ^ (- e) <=? Z.abs m).

(** |m * 10^e| <= 2^-1075, for m <> 0: a double rounds to zero. *)
Definition underflows (m e : Z) : bool :=
  if (ndigits (Z.abs m) + e <? -400) then true
  else if (-300 <? ndigits (Z.abs m) + e) then false
  else (Z.abs m * 2 ^ 1075 <=? 10 ^ (- e)).

Definition mkDec (m e : Z) : number :=
  if (m =? 0) then Dec 0 0
  else if overflows m e then Inf (m <? 0)
  else if underflows m e then Dec 0 0
  else
    let '(m', e') := strip10 (Z.to_nat (Z.log2 (Z.abs m))) m e in
    Dec m' e'.

Definition Int (z : Z) : number := mkDec z 0.

(** *** Truthiness (ToBoolean) *)

Definition number_truthy (n : number) : bool :=
  match n with
  | NaN => false
  | Inf _ => true
  | Dec m _ => negb (m =? 0)
  end.

Definition truthy (v : jsval) : bool :=
  match v with
  | VUndefined | VNull => false
  | VBool b => b
  | VNum n => number_truthy n
  | VStr s => negb (String.eqb s "")
  end.

(** *** Characters *)

Definition code (c : ascii) : Z := Z.of_nat (nat_of_ascii c).

(** StrWhiteSpaceChar, on ASCII: TAB, LF, VT, FF, CR, SP. *)
Definition is_ws (c : ascii) : bool :=
  ((9 <=? code c) && (code c <=? 13)) || (code c =? 32).

(** The value of [c] as a digit of a radix up to 36. *)
Definition digit_value (c : ascii) : option Z :=
  let n := code c in
  if (48 <=? n) && (n <=? 57) then Some (n - 48)
  else if (97 <=? n) && (n <=? 122) then Some (n - 87)
  else if (65 <=? n) && (n <=? 90) then Some (n - 55)
  else None.

Definition digit_in (R : Z) (c : ascii) : option Z :=
  match digit_value c with
  | Some d => if d <? R then Some d else None
  | None => None
  end.

Fixpoint trim_start (s : list ascii) : list ascii :=
  match s with
  | c :: r => if is_ws c then trim_start r else s
  | [] => []
  end.

Definition trim_end (s : list ascii) : list ascii :=
  rev (trim_start (rev s)).

(** Reads the longest run of radix-[R] digits at the head of [s]: the value
    read so far, how many digits were read, and the rest. *)
Fixpoint read_digits (R : Z) (s : list ascii) (acc : Z) (count : nat)
  : Z * nat * list ascii :=
  match s with
  | c :: r =>
      match digit_in R c with
      | Some d => read_digits R r (acc * R + d) (S count)
      | None => (acc, count, s)
      end
  | [] => (acc, count, [])
  end.

Definition chars (s : string) : list ascii := String.list_ascii_of_string s.

(** Splits off a leading sign: [true] for [-]. *)
Definition read_sign (s : list ascii) : bool * list ascii :=
  match s with
  | "-"%char :: r => (true, r)
  | "+"%char :: r => (false, r)
  | _ => (false, s)
  end.

Definition signed (negative : bool) (z : Z) : Z :=
  if negative then - z else z.

(** Is [p] a prefix of [s]? If so, what follows it. *)
Fixpoint strip_prefix (p s : list ascii) : option (list ascii) :=
  match p, s with
  | [], _ => Some s
  | a :: p', b :: s' => if Ascii.eqb a b then strip_prefix p' s' else None
  | _ :: _, [] => None
  end.

(** *** parseInt (radix omitted) on a string *)

Definition parseInt_chars (input : list ascii) : number :=
  let '(negative, s) := read_sign (trim_start input) in
  let '(R, s) :=
    match s with
    | "0"%char :: "x"%char :: r => (16, r)
    | "0"%char :: "X"%char :: r => (16, r)
    | _ => (10, s)
    end in
  match read_digits R s 0 0 with
  | (_, O, _) => NaN
  | (z, _, _) => Int (signed negative z)
  end.

(** *** parseFloat on a string: the longest prefix that is a
    StrDecimalLiteral *)

(** The exponent part [e±ddd], when one is there in full. *)
Definition read_exponent (s : list ascii) : Z * list ascii :=
  match s with
  | c :: r =>
      if Ascii.eqb c "e" || Ascii.eqb c "E" then
        let '(negative, r') := read_sign r in
        match read_digits 10 r' 0 0 with
        | (_, O, _) => (0, s)
        | (x, _, rest) => (signed negative x, rest)
        end
      else (0, s)
  | [] => (0, s)
  end.

(** An unsigned decimal literal at the head of [s], as mantissa and exponent,
    with what follows it. *)
Definition read_decimal (s : list ascii) : option (Z * Z * list ascii) :=
  let '(ip, icount, r1) := read_digits 10 s 0 0 in
  let '(fp, fcount, r2) :=
    match r1 with
    | "."%char :: r => read_digits 10 r ip 0
    | _ => (ip, O, r1)
    end in
  match icount, fcount with
  | O, O => None
  | _, _ =>
      let '(x, rest) := read_exponent r2 in
      Some (fp, x - Z.of_nat fcount, rest)
  end.

(** A signed StrDecimalLiteral at the head of [s]. *)
Definition read_str_decimal (s : list ascii) : option (number * list ascii) :=
  let '(negative, s1) := read_sign s in
  match strip_prefix (chars "Infinity") s1 with
  | Some rest => Some (Inf negative, rest)
  | None =>
      match read_decimal s1 with
      | Some (m, e, rest) => Some (mkDec (signed negative m) e, rest)
      | None => None
      end
  end.

Definition parseFloat_chars (input : list ascii) : number :=
  match read_str_decimal (trim_start input) with
  | Some (n, _) => n
  | None => NaN
  end.

(** *** ToNumber on a string (StringToNumber): the whole trimmed string must
    be a numeric literal *)

Definition radix_literal (R : Z) (s : list ascii) : number :=
  match read_digits R s 0 0 with
  | (_, O, _) => NaN
  | (z, _, []) => Int z
  | (_, _, _ :: _) => NaN
  end.

Definition StringToNumber (s : string) : number :=
  match trim_end (trim_start (chars s)) with
  | [] => Dec 0 0
  | "0"%char :: "x"%char :: r | "0"%char :: "X"%char :: r => radix_literal 16 r
  | "0"%char :: "o"%char :: r | "0"%char :: "O"%char :: r => radix_literal 8 r
  | "0"%char :: "b"%char :: r | "0"%char :: "B"%char :: r => radix_literal 2 r
  | t =>
      match read_str_decimal t with
      | Some (n, []) => n
      | _ => NaN
      end
  end.

(** *** Number::toString(10) *)

Definition digits_of (n : Z) : string :=
  DecimalString.NilZero.string_of_uint (N.to_uint (Z.to_N n)).

Fixpoint zeros (n : nat) : string :=
  match n with
  | O => ""
  | S n' => String "0" (zeros n')
  end.

Definition Number_toString (x : number) : string :=
  match x with
  | NaN => "NaN"
  | Inf negative => if negative then "-Infinity" else "Infinity"
  | Dec m e =>
      if (m =? 0) then "0"
      else
        let s := digits_of (Z.abs m) in
        let k := Z.of_nat (String.length s) in
        let n := k + e in
        let body :=
          if (k <=? n) && (n <=? 21) then s +:+ zeros (Z.to_nat (n - k))
          else if (0 <? n) && (n <=? 21) then
            String.substring 0 (Z.to_nat n) s +:+ "." +:+
            String.substring (Z.to_nat n) (Z.to_nat (k - n)) s
          else if (-6 <? n) && (n <=? 0) then
            "0." +:+ zeros (Z.to_nat (- n)) +:+ s
          else
            let x := n - 1 in
            let sign := if (x <? 0) then "-" else "+" in
            let mant :=
              if (k =? 1) then s
              else String.substring 0 1 s +:+ "." +:+ String.substring 1 (Z.to_nat (k - 1)) s in
            mant +:+ "e" +:+ sign +:+ digits_of (Z.abs x) in
        if (m <? 0) then "-" +:+ body else body
  end.

(** *** ToString, ToNumber, and the globals built on them *)

(** [String(v)]. *)
Definition ToString (v : jsval) : string :=
  match v with
  | VUndefined => "undefined"
  | VNull => "null"
  | VBool b => if b then "true" else "false"
  | VNum n => Number_toString n
  | VStr s => s
  end.

Definition ToNumber (v : jsval) : number :=
  match v with
  | VUndefined => NaN
  | VNull => Dec 0 0
  | VBool b => if b then Dec 1 0 else Dec 0 0
  | VNum n => n
  | VStr s => StringToNumber s
  end.

(** [Number.parseInt(v)] and [Number.parseFloat(v)]: the argument is turned
    into a string first. *)
Definition parseInt (v : jsval) : number := parseInt_chars (chars (ToString v)).
Definition parseFloat (v : jsval) : number := parseFloat_chars (chars (ToString v)).

(** [isNaN(v)]. *)
Definition isNaN (v : jsval) : bool :=
  match ToNumber v with
  | NaN => true
  | _ => false
  end.

(** [s.indexOf(c) !== -1] for a one-character needle. *)
Fixpoint contains_char (c : ascii) (s : string) : bool :=
  match s with
  | EmptyString => false
  | String a r => Ascii.eqb a c || contains_char c r
  end.

End JS.


(** ** Effects: exceptions and a log of calls to collaborators

    A computation either returns or throws, and records the calls it made to
    the outside (the JEXL evaluator, the device directory) in order. *)
Section Effects.
Context {X E : Type}.

Definition M (A : Type) : Type := (X + A) * list E.

Definition ret {A} (a : A) : M A := (inr a, []).
Definition throw {A} (x : X) : M A := (inl x, []).
Definition emit (e : E) : M unit := (inr tt, [e]).

Definition bind {A B} (c : M A) (k : A -> M B) : M B :=
  match c with
  | (inl x, log) => (inl x, log)
  | (inr a, log) => let '(r, log') := k a in (r, log ++ log')
  end.

(** [try { c } catch (e) { h e }]. *)
Definition try_catch {A} (c : M A) (h : X -> M A) : M A :=
  match c with
  | (inl x, log) => let '(r, log') := h x in (r, log ++ log')
  | (inr a, log) => (inr a, log)
  end.

(** [Array.prototype.filter] with a callback that may throw. *)
Fixpoint filterM {A} (p : A -> M bool) (l : list A) : M (list A) :=
  match l with
  | [] => ret []
  | a :: l' =>
      bind (p a) (fun keep =>
      bind (filterM p l') (fun rest =>
      ret (if keep then a :: rest else rest)))
  end.

(** [Array.prototype.map] with a callback that may throw. *)
Fixpoint mapM {A B} (f : A -> M B) (l : list A) : M (list B) :=
  match l with
  | [] => ret []
  | a :: l' =>
      bind (f a) (fun b =>
      bind (mapM f l') (fun rest =>
      ret (b :: rest)))
  end.

(** [async.map]: the iteratee is started on every element, whether or not
    an earlier one failed, and the first error is the one reported. *)
Fixpoint async_map {A B} (f : A -> M B) (l : list A) : M (list B) :=
  match l with
  | [] => ret []
  | a :: l' =>
      let '(r, log) := f a in
      let '(rs, log') := async_map f l' in
      (match r, rs with
       | inl x, _ => inl x
       | inr _, inl x => inl x
       | inr b, inr bs => inr (b :: bs)
       end, log ++ log')
  end.

(** [async.series]: the tasks run one after the other and the first error
    stops the run. *)
Fixpoint async_series (tasks : list (M unit)) : M unit :=
  match tasks with
  | [] => ret tt
  | task :: rest => bind task (fun _ => async_series rest)
  end.

Definition outcome {A} (c : M A) : X + A := fst c.
Definition trace {A} (c : M A) : list E := snd c.
End Effects.

Arguments M : clear implicits.

#[global] Instance M_ret {X E} : MRet (M X E) := fun A => ret.
#[global] Instance M_bind {X E} : MBind (M X E) := fun A B k c => bind c k.

(** ** The jexl package, as the plugin uses it

    The package is not part of the repository: its lexer and its evaluator
    are taken as an interface. [tokenize] is [jexl._getLexer().tokenize] and
    [evaluate] is what [jexl.evalSync] computes; [None] stands for a thrown
    exception. *)
Module Jexl.

Inductive token_type : Type :=
  | identifier | literal | binaryOp | unaryOp | dot | pipe | comma | colon
  | question | openParen | closeParen | openBracket | closeBracket
  | openCurl | closeCurl.

#[global] Instance token_type_eq_dec : EqDecision token_type.
Proof. solve_decision. Defined.

Record token : Type := Token {
  type : token_type;
  value : JS.jsval;
  raw : string
}.

Class Engine : Type := {
  tokenize : string -> option (list token);
  evaluate : string -> gmap string JS.jsval -> option JS.jsval
}.

End Jexl.

(** ** lib/plugins/jexlParser.js *)
Module JexlParser.
Import JS.

(** The evaluation context: a plain object used as a map from variable name
    to value. *)
Abbreviation Context := (gmap string jsval).

(** A plain object while it is filled: its own properties, and whether its
    prototype has been set to [null]. *)
Record object : Type := Object {
  own : Context;
  null_prototype : bool
}.

(** [var context = {}]. *)
Definition empty_object : object := {| own := ∅; null_prototype := false |}.

(** [context[key] = v] on a plain object. As long as the object inherits
    from [Object.prototype], the key [__proto__] is the prototype accessor:
    assigning [null] to it sets the prototype to [null], and assigning
    another scalar does nothing. Once the prototype is [null] the accessor is
    gone and [__proto__] is a key like any other. *)
Definition set_property (key : string) (v : jsval) (context : object) : object :=
  if String.eqb key "__proto__" && negb (null_prototype context) then
    match v with
    | VNull => {| own := own context; null_prototype := true |}
    | _ => context
    end
  else {| own := <[key := v]> (own context);
          null_prototype := null_prototype context |}.

(** [Object.keys(context)]; only membership is asked of it. *)
Definition Object_keys (context : Context) : list string :=
  (map_to_list context).*1.

(** [keys.includes(v)]: strict comparison, so only a string can be found. *)
Definition includes (keys : list string) (v : jsval) : bool :=
  match v with
  | VStr s => bool_decide (s ∈ keys)
  | _ => false
  end.

(** An attribute object. A device attribute definition carries [expression]
    (and no [value]); a measure or an output attribute carries [value]. *)
Record attribute : Type := Attribute {
  object_id : option string;
  name : string;
  type : string;
  expression : option string;
  value : jsval
}.

(** Truthiness of an optional string property. *)
Definition present (o : option string) : bool :=
  match o with
  | Some s => negb (String.eqb s "")
  | None => false
  end.

Inductive exn : Type :=
  | InvalidExpression (expression : string)
  | TypeError
  | JexlError.

(** The one call to the outside: an evaluation by jexl. *)
Inductive event : Type :=
  | EvalSync (expression : string) (context : Context).

(** Lines 33-36: the transforms registered when the module is loaded. The
    scope check only asks for their names. *)
Definition transforms : list string := ["indexOf"; "length"; "trim"; "substr"].

(** [jexl.getTransform(identifier)]; [None] is [undefined]. *)
Definition getTransform (identifier : jsval) : option string :=
  if bool_decide (ToString identifier ∈ transforms)
  then Some (ToString identifier) else None.

(** Lines 38-58. The value the loop body assigns for one entry. *)
Definition extractContext_value (v : jsval) : jsval :=
  if number_truthy (parseInt v) then VNum (parseInt v)
  else if number_truthy (parseFloat v) then VNum (parseFloat v)
  else if String.eqb (ToString v) "true" then VBool true
  else if String.eqb (ToString v) "false" then VBool false
  else v.

(** The loop of lines 42-56, and the own properties of the object it has
    filled. *)
Definition extractContext_loop (attributeList : list attribute) : object :=
  foldl (fun context a =>
           set_property (name a) (extractContext_value (value a)) context)
        empty_object attributeList.

Definition extractContext (attributeList : list attribute) : Context :=
  own (extractContext_loop attributeList).

(** Lines 108-110. [(null || undefined)] is [undefined]. *)
Definition isTransform (identifier : jsval) : bool :=
  match getTransform identifier with
  | None => false
  | Some _ => true
  end.

(** Lines 121-126: [identifiers.some(callback)], threading the flag
    [validContext] that the callback assigns; [some] stops at the first
    element for which the callback returns true. *)
Fixpoint some_identifier (keys : list string) (identifiers : list Jexl.token)
    (validContext : bool) : bool :=
  match identifiers with
  | [] => validContext
  | element :: rest =>
      let validContext :=
        if negb (includes keys (Jexl.value element))
           && negb (isTransform (Jexl.value element))
        then false else validContext in
      if bool_decide (validContext = false) then validContext
      else some_identifier keys rest validContext
  end.

Section Plugin.
Context `{engine : Jexl.Engine}.
(** [config.checkNgsi2()]: is the deployment dialect NGSIv2? *)
Variable checkNgsi2 : bool.

Abbreviation M := (M exn event).

(** [jexl.evalSync(expression, context)]. *)
Definition evalSync (expression : string) (context : Context) : M jsval :=
  emit (EvalSync expression context);;
  match Jexl.evaluate expression context with
  | Some v => mret v
  | None => throw JexlError
  end.

(** [lexer.tokenize(expression)]. *)
Definition tokenize (expression : string) : M (list Jexl.token) :=
  match Jexl.tokenize expression with
  | Some tokens => mret tokens
  | None => throw JexlError
  end.

(** Lines 60-62. *)
Definition applyExpression (expression : string) (context : Context) : M jsval :=
  evalSync expression context.

(** Lines 73-75. [value.toString()] throws on [null]; [undefined] never
    gets there because [isNaN(undefined)] is true. *)
Definition isFloat (v : jsval) : M bool :=
  if negb (isNaN v) then
    match v with
    | VNull | VUndefined => throw TypeError
    | _ => mret (contains_char "." (ToString v))
    end
  else mret false.

(** Lines 64-106, applied to one attribute. A missing [expression] reaches
    jexl as [undefined], on which its lexer throws. *)
Definition expressionApplier (context : Context) (a : attribute) : M attribute :=
  let new_object_id :=
    if checkNgsi2 && present (object_id a) then object_id a else None in
  v ← match expression a with
      | Some e => applyExpression e context
      | None => throw JexlError
      end;
  float ← (if String.eqb (type a) "Number" then isFloat v else mret false);
  let new_value :=
    if String.eqb (type a) "Number" && float then VNum (parseFloat v)
    else if String.eqb (type a) "Number" && number_truthy (parseInt v)
    then VNum (parseInt v)
    else if String.eqb (type a) "Boolean"
    then VBool (bool_decide (v = VStr "true") || bool_decide (v = VStr "1"))
    else if String.eqb (type a) "None" then VNull
    else VStr (ToString v) in
  mret {| object_id := new_object_id; name := name a; type := type a;
          expression := None; value := new_value |}.

(** Lines 112-135. *)
Definition contextAvailable (expression : string) (context : Context) : M bool :=
  try_catch
    (tokens ← tokenize expression;
     let identifiers :=
       filter (fun token => Jexl.type token = Jexl.identifier) tokens in
     let keys := Object_keys context in
     let validContext := some_identifier keys identifiers true in
     (if validContext then evalSync expression context ;; mret tt else mret tt);;
     mret validContext)
    (fun e => throw (InvalidExpression expression)).

(** Lines 137-143. [item.expression && contextAvailable(...)]: the check
    runs only for a non-empty expression. *)
Definition processExpressionAttributes (list : Datatypes.list attribute)
    (context : Context) : M (Datatypes.list attribute) :=
  survivors ← filterM (fun item =>
                 match expression item with
                 | Some e =>
                     if String.eqb e "" then mret false
                     else contextAvailable e context
                 | None => mret false
                 end) list;
  mapM (expressionApplier context) survivors.

End Plugin.

End JexlParser.

(** ** A small engine to run the plugin on examples

    A stand-in for the jexl package, for sums only. Its lexer knows
    identifiers, integer literals, blanks and the operator [+], and throws on
    any other character, as jexl's lexer throws on a character that starts no
    token. Its evaluator gives the value of a lone literal or variable, adds
    numeric literals and numeric variables, and throws on anything else. *)
Module SumEngine.
Import JS.

Definition ident_start (c : ascii) : bool :=
  let n := code c in
  ((97 <=? n) && (n <=? 122)) || ((65 <=? n) && (n <=? 90))
  || (n =? 95) || (n =? 36).

Definition is_digit (c : ascii) : bool :=
  (48 <=? code c) && (code c <=? 57).

Definition of_chars (l : list ascii) : string := String.string_of_list_ascii l.

(** The token being read, most recent character first. *)
Inductive pending : Type :=
  | Nothing
  | Ident (rev_chars : list ascii)
  | Digits (rev_chars : list ascii).

Definition flush (p : pending) (acc : list Jexl.token) : list Jexl.token :=
  match p with
  | Nothing => acc
  | Ident r =>
      let s := of_chars (rev r) in
      if String.eqb s "true" then acc ++ [Jexl.Token Jexl.literal (VBool true) s]
      else if String.eqb s "false" then acc ++ [Jexl.Token Jexl.literal (VBool false) s]
      else acc ++ [Jexl.Token Jexl.identifier (VStr s) s]
  | Digits r =>
      let s := of_chars (rev r) in
      acc ++ [Jexl.Token Jexl.literal (VNum (parseFloat_chars (rev r))) s]
  end.

Fixpoint lex (s : list ascii) (p : pending) (acc : list Jexl.token)
  : option (list Jexl.token) :=
  match s with
  | [] => Some (flush p acc)
  | c :: r =>
      match p with
      | Ident cs =>
          if ident_start c || is_digit c then lex r (Ident (c :: cs)) acc
          else if is_ws c then lex r Nothing (flush p acc)
          else if Ascii.eqb c "+" then
            lex r Nothing (flush p acc ++ [Jexl.Token Jexl.binaryOp (VStr "+") "+"])
          else None
      | Digits cs =>
          if is_digit c then lex r (Digits (c :: cs)) acc
          else if is_ws c then lex r Nothing (flush p acc)
          else if Ascii.eqb c "+" then
            lex r Nothing (flush p acc ++ [Jexl.Token Jexl.binaryOp (VStr "+") "+"])
          else None
      | Nothing =>
          if ident_start c then lex r (Ident [c]) acc
          else if is_digit c then lex r (Digits [c]) acc
          else if is_ws c then lex r Nothing acc
          else if Ascii.eqb c "+" then
            lex r Nothing (acc ++ [Jexl.Token Jexl.binaryOp (VStr "+") "+"])
          else None
      end
  end.

Definition tokenize (expression : string) : option (list Jexl.token) :=
  lex (chars expression) Nothing [].

(** Addition of two numbers. *)
Definition add (x y : number) : number :=
  match x, y with
  | NaN, _ | _, NaN => NaN
  | Inf a, Inf b => if Bool.eqb a b then Inf a else NaN
  | Inf a, _ | _, Inf a => Inf a
  | Dec m1 e1, Dec m2 e2 =>
      let e := Z.min e1 e2 in
      mkDec (m1 * 10 ^ (e1 - e) + m2 * 10 ^ (e2 - e)) e
  end.

(** The value of a literal or of a variable; an unbound variable throws. *)
Definition operand (t : Jexl.token) (context : gmap string jsval) : option jsval :=
  match Jexl.type t, Jexl.value t with
  | Jexl.literal, v => Some v
  | Jexl.identifier, VStr x => context !! x
  | _, _ => None
  end.

Definition numeric (v : option jsval) : option number :=
  match v with
  | Some (VNum n) => Some n
  | _ => None
  end.

(** [(+ operand)*], read after operands that add up to [acc]. *)
Fixpoint sum (tokens : list Jexl.token) (context : gmap string jsval) (acc : number)
  : option number :=
  match tokens with
  | [] => Some acc
  | plus :: t :: rest =>
      match Jexl.type plus, numeric (operand t context) with
      | Jexl.binaryOp, Some n => sum rest context (add acc n)
      | _, _ => None
      end
  | _ => None
  end.

(** A lone operand evaluates to its value; a sum needs numbers. *)
Definition evaluate (expression : string) (context : gmap string jsval) : option jsval :=
  match tokenize expression with
  | Some [t] => operand t context
  | Some (t :: rest) =>
      match numeric (operand t context) with
      | Some n => VNum <$> sum rest context n
      | None => None
      end
  | _ => None
  end.

#[global] Instance engine : Jexl.Engine :=
  {| Jexl.tokenize := tokenize; Jexl.evaluate := evaluate |}.

End SumEngine.


(** ** The NGSI context server (second part of the source file) *)
Module ContextServer.
Import JS.

(** An attribute object, [{name, type, value}]. Device declarations (lazy
    attributes, commands) are attribute objects without a value. *)
Record attribute : Type := Attribute {
  name : string;
  type : string;
  value : jsval
}.

(** A device record, or a configuration group: the server reads the same
    fields from both. [None] is an absent ([undefined]) field. *)
Record device : Type := Device {
  dev_id : option string;
  dev_type : option string;
  lazy : option (list attribute);
  commands : option (list attribute);
  staticAttributes : option (list attribute);
  polling : bool
}.

(** An NGSIv1 context element. *)
Record contextElement : Type := ContextElement {
  id : string;
  isPattern : jsval;
  ce_type : string;
  attributes : list attribute
}.

(** An NGSIv2 entity is a flat object: its keys in enumeration order, each
    holding a scalar ([id], [type]) or an attribute body [{type, value}]. *)
Inductive property : Type :=
  | Scalar (v : jsval)
  | Body (type : string) (value : jsval).

Abbreviation entity := (list (string * property)).

(** What [splitUpdates] of NGSIv2 pushes: the property it found under a key,
    after assigning [name] to it. An attribute body becomes an attribute
    object; on a scalar the assignment has no effect. *)
Inductive item : Type :=
  | Named (a : attribute)
  | Plain (v : jsval).

(** An error object, [{code, name, message}]. *)
Record error : Type := Error {
  err_code : option Z;
  err_name : string;
  err_message : string
}.

Inductive exn : Type :=
  | Next (e : error)    (* handed to [next] or to a callback *)
  | TypeError.          (* thrown by the runtime *)

(** Calls to the collaborators, in the order they are made. *)
Inductive event : Type :=
  | GetDeviceByName (id : option string) (service subservice : string)
  | ListDevicesWithType (type : option string) (service subservice : string)
  | FindConfigurationGroup (d : device)
  | MergeDeviceWithConfiguration (d group : device)
  | QueryHandler (id type : option string) (service subservice : string)
      (attributes : option (list string))
  | UpdateHandler (id type : string) (service subservice : string)
      (attributes : list attribute)
  | CommandHandler (id type : string) (service subservice : string)
      (commands : list attribute)
  | CommandsAdd (service subservice : string) (deviceId : option string)
      (command : attribute)
  | NgsiUpdate (d : device) (newAttributes : list attribute).

Abbreviation M := (M exn event).

(** A call to a collaborator or to a user handler, which answers its
    callback with an error or a result. *)
Definition call {A} (e : event) (answer : error + A) : M A :=
  emit e;;
  match answer with
  | inl x => throw (Next x)
  | inr a => mret a
  end.

(** *** The NGSIv1 update response (lines 213-242) *)

Record statusCode : Type := StatusCode {
  code : Z;
  reasonPhrase : string
}.

Record contextResponse : Type := ContextResponse {
  contextElement_of : contextElement;
  statusCode_of : statusCode
}.

Definition set_value (a : attribute) (v : jsval) : attribute :=
  {| name := name a; type := type a; value := v |}.

(** Lines 232-234, the inner loop with [j] iterations left. Each iteration
    assigns [attributes[i].value = ''], with the index [i] of the outer loop;
    when the array has no element [i] the assignment throws. *)
Fixpoint blank_loop (j i : nat) (attributes : list attribute) : M (list attribute) :=
  match j with
  | O => mret attributes
  | S j' =>
      match attributes !! i with
      | Some a => blank_loop j' i (<[i := set_value a (VStr "")]> attributes)
      | None => throw TypeError
      end
  end.

(** Lines 218-237, the outer loop from index [i] on. The response element
    holds the request's own attribute array, so the assignments of the inner
    loop show in it. *)
Fixpoint responses_loop (i : nat) (contextElements : list contextElement)
  : M (list contextResponse) :=
  match contextElements with
  | [] => mret []
  | el :: rest =>
      blanked ← blank_loop (length (attributes el)) i (attributes el);
      let contextResponse :=
        {| contextElement_of :=
             {| attributes := blanked; id := id el;
                isPattern := VBool false; ce_type := ce_type el |};
           statusCode_of := {| code := 200; reasonPhrase := "OK" |} |} in
      others ← responses_loop (S i) rest;
      mret (contextResponse :: others)
  end.

(** [createUpdateResponse(req, res, results)], on [req.body.contextElements];
    the result is the [contextResponses] array. *)
Definition createUpdateResponse (contextElements : list contextElement)
  : M (list contextResponse) :=
  responses_loop 0 contextElements.

(** *** Splitting attributes from commands *)

(** The inner loop over [device.commands] (lines 344-350 and 473-482): is
    there a command with this name? *)
Fixpoint command_named (n : string) (deviceCommands : list attribute) : bool :=
  match deviceCommands with
  | [] => false
  | c :: rest => if String.eqb n (name c) then true else command_named n rest
  end.

(** NGSIv1, lines 343-353: [attributeLoop]. *)
Fixpoint attributeLoop1 (remaining : list attribute) (deviceCommands : list attribute)
    (attributes commands : list attribute) : list attribute * list attribute :=
  match remaining with
  | [] => (attributes, commands)
  | a :: rest =>
      if command_named (name a) deviceCommands
      then attributeLoop1 rest deviceCommands attributes (commands ++ [a])
      else attributeLoop1 rest deviceCommands (attributes ++ [a]) commands
  end.

(** NGSIv1, lines 337-359: the pair [(attributes, commands)] handed on. *)
Definition splitUpdatesNgsi1 (contextElement : contextElement) (d : device)
  : list attribute * list attribute :=
  match commands d with
  | Some deviceCommands =>
      attributeLoop1 (attributes contextElement) deviceCommands [] []
  | None => (attributes contextElement, [])
  end.

(** [newAtt = contextElement[i]; newAtt.name = i]: the property under key
    [i] with its name assigned. *)
Definition named (i : string) (p : property) : M item :=
  match p with
  | Body t v => mret (Named {| name := i; type := t; value := v |})
  | Scalar VNull | Scalar VUndefined => throw TypeError
  | Scalar v => mret (Plain v)
  end.

(** NGSIv2, lines 472-483: the first loop collects the commands. *)
Fixpoint attributeLoop2 (remaining : entity) (deviceCommands : list attribute)
    (commands : list item) : M (list item) :=
  match remaining with
  | [] => mret commands
  | (i, p) :: rest =>
      if command_named i deviceCommands
      then newAtt ← named i p;
           attributeLoop2 rest deviceCommands (commands ++ [newAtt])
      else attributeLoop2 rest deviceCommands commands
  end.

(** NGSIv2, lines 486-493: the second loop collects the attributes. *)
Fixpoint attributes2 (remaining : entity) (attributes : list item) : M (list item) :=
  match remaining with
  | [] => mret attributes
  | (i, p) :: rest =>
      if negb (String.eqb i "type") && negb (String.eqb i "id")
      then newAtt ← named i p;
           attributes2 rest (attributes ++ [newAtt])
      else attributes2 rest attributes
  end.

(** NGSIv2, lines 464-496: the pair [(attributes, commands)] handed on. *)
Definition splitUpdatesNgsi2 (contextElement : entity) (d : device)
  : M (list item * list item) :=
  commands ← match commands d with
             | Some deviceCommands => attributeLoop2 contextElement deviceCommands []
             | None => mret []
             end;
  attributes ← attributes2 contextElement [];
  mret (attributes, commands).

(** *** Handler registrations (lines 198-202) *)

(** A module-level variable holding a handler: declared without a value,
    assigned a function by its setter, assigned [null] by [clear]. *)
Inductive slot (H : Type) : Type :=
  | Undefined
  | Null
  | Handler (h : H).
Arguments Undefined {H}.
Arguments Null {H}.
Arguments Handler {H} h.

Definition registered {H} (s : slot H) : bool :=
  match s with
  | Handler _ => true
  | _ => false
  end.

(** The user's query handler: [(id, type, service, subservice, attributes)]
    to a context element or an error. *)
Definition query_handler : Type :=
  option string -> option string -> string -> string ->
  option (list string) -> error + entity.

(** The user's update handler and command handler:
    [(id, type, service, subservice, attributes)] to an error or success. *)
Definition update_handler : Type :=
  string -> string -> string -> string -> list attribute -> error + unit.

Definition command_handler : Type := update_handler.

Section Server.
(** The types of the notification handler and of a notification middleware;
    the server stores them. *)
Context {notification_handler middleware : Type}.

Record state : Type := State {
  notificationMiddlewares : list middleware;
  updateHandler : slot update_handler;
  commandHandler : slot command_handler;
  queryHandler : slot query_handler;
  notificationHandler : slot notification_handler
}.

Definition initial : state :=
  {| notificationMiddlewares := []; updateHandler := Undefined;
     commandHandler := Undefined; queryHandler := Undefined;
     notificationHandler := Undefined |}.

(** Lines 1175-1219. *)
Definition setUpdateHandler (newHandler : update_handler) (st : state) : state :=
  {| notificationMiddlewares := notificationMiddlewares st;
     updateHandler := Handler newHandler;
     commandHandler := commandHandler st;
     queryHandler := queryHandler st;
     notificationHandler := notificationHandler st |}.

Definition setCommandHandler (newHandler : command_handler) (st : state) : state :=
  {| notificationMiddlewares := notificationMiddlewares st;
     updateHandler := updateHandler st;
     commandHandler := Handler newHandler;
     queryHandler := queryHandler st;
     notificationHandler := notificationHandler st |}.

Definition setQueryHandler (newHandler : query_handler) (st : state) : state :=
  {| notificationMiddlewares := notificationMiddlewares st;
     updateHandler := updateHandler st;
     commandHandler := commandHandler st;
     queryHandler := Handler newHandler;
     notificationHandler := notificationHandler st |}.

Definition setNotificationHandler (newHandler : notification_handler) (st : state)
  : state :=
  {| notificationMiddlewares := notificationMiddlewares st;
     updateHandler := updateHandler st;
     commandHandler := commandHandler st;
     queryHandler := queryHandler st;
     notificationHandler := Handler newHandler |}.

(** Lines 1356-1358. *)
Definition addNotificationMiddleware (newMiddleware : middleware) (st : state)
  : state :=
  {| notificationMiddlewares := notificationMiddlewares st ++ [newMiddleware];
     updateHandler := updateHandler st;
     commandHandler := commandHandler st;
     queryHandler := queryHandler st;
     notificationHandler := notificationHandler st |}.

(** Lines 1360-1369. The function assigns the middleware list and three of
    the four handler variables. *)
Definition clear (st : state) : state :=
  {| notificationMiddlewares := [];
     updateHandler := Null;
     commandHandler := Null;
     queryHandler := queryHandler st;
     notificationHandler := Null |}.
End Server.

Arguments state : clear implicits.

(** *** Error responses (lines 1239-1252) *)

Inductive body : Type :=
  | ErrorNgsi2 (error description : string)
  | Results (results : list entity)
  | UpdateResponse (contextResponses : list contextResponse)
  | UpdateErrorNgsi1 (contextElement : list contextElement) (code : Z)
      (reasonPhrase details : string).

Record response : Type := Response {
  status : Z;
  body_of : body
}.

(** The characters the error handlers strip from a message: the angle
    brackets, both quotes, the equals sign, the semicolon, the parentheses. *)
Definition forbidden (c : ascii) : bool :=
  existsb (Ascii.eqb c) (ascii_of_nat 34 :: chars "<>'=;()").

Definition sanitize (message : string) : string :=
  String.string_of_list_ascii
    (filter (fun c => forbidden c = false) (chars message)).

(** [error.code && String(error.code).match(/^[2345]\d\d$/)], for an integer
    code: three digits, the first from 2 to 5. *)
Definition status_of (e : error) : Z :=
  match err_code e with
  | Some c => if (200 <=? c) && (c <=? 599) then c else 500
  | None => 500
  end.

Definition queryErrorHandlingNgsi2 (e : error) : response :=
  {| status := status_of e;
     body_of := ErrorNgsi2 (err_name e) (sanitize (err_message e)) |}.

(** Lines 1254-1275; [body] is [req.body]. *)
Definition updateErrorHandlingNgsi1 (body : list contextElement) (e : error) : response :=
  {| status := status_of e;
     body_of := UpdateErrorNgsi1 body (status_of e) (err_name e)
                  (sanitize (err_message e)) |}.

(** [new Error({message: ...})] (lines 613-616, 654-656): the constructor
    takes a message, and the object it is given reads as a string
    "[object Object]"; the error has no code. *)
Definition errorNotFound : error :=
  {| err_code := None; err_name := "Error"; err_message := "[object Object]" |}.

(** *** The NGSIv1 update (lines 288-444 and 625-659) *)

(** The request: the two headers and [req.body.contextElements]. *)
Record updateRequest : Type := UpdateRequest {
  fiware_service : string;
  fiware_servicepath : string;
  contextElements : list contextElement
}.

Section Update.
Context {notification_handler middleware : Type}.

(** The device directory, the context broker client and the command queue:
    external collaborators. [mergeDeviceWithConfiguration] is always called
    with the same field list and defaults, which are left out. *)
Variable getDeviceByName : option string -> string -> string -> error + device.
Variable findConfigurationGroup : device -> error + device.
Variable mergeDeviceWithConfiguration : device -> device -> error + device.
Variable ngsi_update : device -> list attribute -> error + unit.
Variable commands_add : string -> string -> option string -> attribute -> error + unit.
(** [constants.COMMAND_STATUS]. *)
Variable COMMAND_STATUS : string.

Variable st : state notification_handler middleware.
Variable req : updateRequest.

(** Lines 292-308: one status update per pair of a declared command and an
    attribute of the same name. *)
Definition sideEffects (d : device) (deviceCommands attributes : list attribute)
  : list (M unit) :=
  flat_map (fun command =>
    flat_map (fun a =>
      if String.eqb (name command) (name a) then
        let newAttributes :=
          [ {| name := name command +:+ "_status"; type := COMMAND_STATUS;
               value := VStr "PENDING" |} ] in
        [call (NgsiUpdate d newAttributes) (ngsi_update d newAttributes)]
      else []) attributes) deviceCommands.

(** Lines 288-312. *)
Definition executeUpdateSideEffects (d : device) (attributes : list attribute) : M unit :=
  async_series (sideEffects d (default [] (commands d)) attributes).

(** Lines 324-326. *)
Definition pushCommandsToQueue (d : device) (attributes : list attribute) : M unit :=
  async_map (fun a =>
               call (CommandsAdd (fiware_service req) (fiware_servicepath req) (dev_id d) a)
                 (commands_add (fiware_service req) (fiware_servicepath req) (dev_id d) a))
    attributes;;
  mret tt.

(** Lines 361-417: the actions for one context element, in order. *)
Definition createActionsArray (contextElement : contextElement)
    (attributes commands : list attribute) (d : device) : list (M unit) :=
  (match updateHandler st with
   | Handler h =>
       [call (UpdateHandler (id contextElement) (ce_type contextElement)
                (fiware_service req) (fiware_servicepath req) attributes)
          (h (id contextElement) (ce_type contextElement)
             (fiware_service req) (fiware_servicepath req) attributes)]
   | _ => []
   end)
  ++ (match commandHandler st with
      | Handler h =>
          if polling d
          then [pushCommandsToQueue d (ContextServer.attributes contextElement)]
          else [call (CommandHandler (id contextElement) (ce_type contextElement)
                        (fiware_service req) (fiware_servicepath req) commands)
                  (h (id contextElement) (ce_type contextElement)
                     (fiware_service req) (fiware_servicepath req) commands)]
      | _ => []
      end)
  ++ [executeUpdateSideEffects d (ContextServer.attributes contextElement)].

(** Lines 336-444. *)
Definition generateUpdateActionsNgsi1 (contextElement : contextElement)
  : M (list (M unit)) :=
  deviceObj ← call (GetDeviceByName (Some (id contextElement))
                      (fiware_service req) (fiware_servicepath req))
                (getDeviceByName (Some (id contextElement))
                   (fiware_service req) (fiware_servicepath req));
  group ← call (FindConfigurationGroup deviceObj) (findConfigurationGroup deviceObj);
  d ← call (MergeDeviceWithConfiguration deviceObj group)
        (mergeDeviceWithConfiguration deviceObj group);
  let '(attributes, commands) := splitUpdatesNgsi1 contextElement d in
  mret (createActionsArray contextElement attributes commands d).

(** Lines 625-659. Returning is [res.status(200).json(...)]; throwing
    [Next e] is [next(e)]. *)
Definition handleUpdateNgsi1 : M (list contextResponse) :=
  if registered (updateHandler st) || registered (commandHandler st) then
    actions ← async_map generateUpdateActionsNgsi1 (contextElements req);
    async_series (concat actions);;
    createUpdateResponse (contextElements req)
  else throw (Next errorNotFound).

(** The route [updateMiddlewaresNgsi1] (lines 1299-1304), after the request
    has been validated: the handler, then the error handler for what it
    passed to [next]. *)
Definition updateNgsi1 : M response :=
  try_catch
    (contextResponses ← handleUpdateNgsi1;
     mret {| status := 200; body_of := UpdateResponse contextResponses |})
    (fun x =>
       match x with
       | Next e => mret (updateErrorHandlingNgsi1 (contextElements req) e)
       | TypeError => throw TypeError
       end).
End Update.

(** *** The NGSIv2 query (lines 718-750 and 855-1019) *)

(** One entry of [req.body.entities]. *)
Record entityRef : Type := EntityRef {
  ref_id : option string;
  ref_type : option string;
  idPattern : option string
}.

(** The request: the two headers and the body. *)
Record queryRequest : Type := QueryRequest {
  service : string;
  subservice : string;
  entities : list entityRef;
  attrs : option (list string)
}.

(** What [listDevicesWithType] answers. *)
Record deviceList : Type := DeviceList {
  count : Z;
  devices : list device
}.

(** What a lookup hands to [handleFindDevice]. *)
Inductive lookup : Type :=
  | OneDevice (d : device)
  | Listing (l : deviceList).

(** Truthiness of an optional string. *)
Definition present (o : option string) : bool :=
  match o with
  | Some s => negb (String.eqb s "")
  | None => false
  end.

(** [a || b] on optional strings. *)
Definition or_else (a b : option string) : option string :=
  if present a then a else b.

(** [contextElement[key] = p]. *)
Fixpoint set_prop (key : string) (p : property) (contextElement : entity) : entity :=
  match contextElement with
  | [] => [(key, p)]
  | (k, q) :: rest =>
      if String.eqb k key then (k, p) :: rest
      else (k, q) :: set_prop key p rest
  end.

(** [_.findWhere(list, {name})]. *)
Definition findWhere (l : option (list attribute)) (n : string) : option attribute :=
  match l with
  | Some l => find (fun a => String.eqb (name a) n) l
  | None => None
  end.

Definition scalar_of (o : option string) : property :=
  match o with
  | Some s => Scalar (VStr s)
  | None => Scalar VUndefined
  end.

Section Query.
Context {notification_handler middleware : Type}.

(** The device directory, an external collaborator; each function answers
    its callback with an error or a result. *)
Variable getDeviceByName : option string -> string -> string -> error + device.
Variable listDevicesWithType : option string -> string -> string -> error + deviceList.
Variable findConfigurationGroup : device -> error + device.
(** [new errors.DeviceNotFound(id)]. *)
Variable DeviceNotFound : option string -> error.

Variable st : state notification_handler middleware.
Variable req : queryRequest.

(** Lines 718-750. *)
Definition defaultQueryHandlerNgsi2 (id type' : option string)
    (service subservice : string) (attributes : option (list string)) : M entity :=
  let contextElement := [("type", scalar_of type'); ("id", scalar_of id)] in
  emit (GetDeviceByName id service subservice);;
  match getDeviceByName id service subservice with
  | inl e => throw (Next e)
  | inr ngsiDevice =>
      match attributes with
      | None => throw TypeError
      | Some attributes =>
          mret (foldl
            (fun contextElement a =>
               let attributeType :=
                 match findWhere (commands ngsiDevice) a,
                       findWhere (lazy ngsiDevice) a with
                 | Some command, _ => type command
                 | None, Some lazyAttribute => type lazyAttribute
                 | None, None => "string"
                 end in
               set_prop a (Body attributeType (VStr "")) contextElement)
            contextElement attributes)
      end
  end.

(** Lines 860-882. [device] is what [findConfigurationGroup] answered,
    [None] when it answered an error. *)
Definition addStaticAttributes (attributes : option (list string))
    (device : option device) (contextElement : entity) : M entity :=
  match device with
  | None => throw TypeError
  | Some device =>
      match staticAttributes device with
      | Some static =>
          let inAttributes (item : attribute) :=
            negb (String.eqb (name item) "")
            && bool_decide (name item ∈ default [] attributes) in
          let selectedAttributes :=
            match attributes with
            | None | Some [] => static
            | Some _ => filter (fun item => inAttributes item = true) static
            end in
          mret (foldl
            (fun contextElement att =>
               set_prop (name att) (Body (type att) (value att)) contextElement)
            contextElement selectedAttributes)
      | None => mret contextElement
      end
  end.

(** Lines 884-897. *)
Definition completeAttributes (attributes : option (list string))
    (device : option device) : M (option (list string)) :=
  match attributes with
  | Some (a :: l) => mret (Some (a :: l))
  | _ =>
      match device with
      | None => throw TypeError
      | Some device =>
          match lazy device with
          | Some l => mret (Some (map name l))
          | None => mret None
          end
      end
  end.

(** The handler the query runs (lines 929-933). *)
Definition actualHandler (id type' : option string) (service subservice : string)
    (attributes : option (list string)) : M entity :=
  match queryHandler st with
  | Handler h =>
      emit (QueryHandler id type' service subservice attributes);;
      match h id type' service subservice attributes with
      | inl e => throw (Next e)
      | inr contextElement => mret contextElement
      end
  | _ => defaultQueryHandlerNgsi2 id type' service subservice attributes
  end.

(** Lines 899-923. *)
Definition finishQueryForDevice (attributes : option (list string))
    (contextEntity : entityRef) (d : device) : M entity :=
  let contextId := or_else (ref_id contextEntity) (dev_id d) in
  let contextType := or_else (ref_type contextEntity) (dev_type d) in
  emit (FindConfigurationGroup d);;
  let group :=
    match findConfigurationGroup d with
    | inl _ => None
    | inr g => Some g
    end in
  completed ← completeAttributes attributes group;
  contextElement ← actualHandler contextId contextType (service req)
                     (subservice req) completed;
  addStaticAttributes attributes group contextElement.

(** A listing with count 0 is taken for a device: an object with none of
    a device's fields. *)
Definition as_device (l : deviceList) : device :=
  {| dev_id := None; dev_type := None; lazy := None; commands := None;
     staticAttributes := None; polling := false |}.

(** Lines 925-984. *)
Definition createQueryRequest (attributes : option (list string))
    (contextEntity : entityRef) : M (list entity) :=
  innerDevice ←
    (if present (ref_id contextEntity) then
       emit (GetDeviceByName (ref_id contextEntity)
               (service req) (subservice req));;
       mret (sum_map (fun e : error => e) OneDevice
               (getDeviceByName (ref_id contextEntity) (service req) (subservice req)))
     else
       emit (ListDevicesWithType (ref_type contextEntity)
               (service req) (subservice req));;
       mret (sum_map (fun e : error => e) Listing
               (listDevicesWithType (ref_type contextEntity)
                  (service req) (subservice req))));
  match innerDevice with
  | inl _ => throw (Next (DeviceNotFound (ref_id contextEntity)))
  | inr innerDevice =>
      let deviceList :=
        match innerDevice with
        | OneDevice d => [d]
        | Listing l => if (count l =? 0) then [as_device l] else devices l
        end in
      async_map (finishQueryForDevice attributes contextEntity) deviceList
  end.

Definition BadRequest (message : string) : error :=
  {| err_code := Some 400; err_name := "BadRequest"; err_message := message |}.

(** Lines 996-1018. Returning is [res.status(200).json(result)]; throwing
    [Next e] is [next(e)]. *)
Definition handleQueryNgsi2 : M (list entity) :=
  match entities req with
  | [e] =>
      if present (idPattern e)
      then throw (Next (BadRequest "idPattern usage in query"))
      else
        let contextEntity :=
          {| ref_id := ref_id e; ref_type := ref_type e; idPattern := None |} in
        createQueryRequest (attrs req) contextEntity
  | _ => throw (Next (BadRequest "more than one entity in query"))
  end.

(** The route [queryMiddlewaresNgsi2] (line 1317): the handler, then the
    error handler for what it passed to [next]. *)
Definition queryNgsi2 : M response :=
  try_catch
    (results ← handleQueryNgsi2;
     mret {| status := 200; body_of := Results results |})
    (fun x =>
       match x with
       | Next e => mret (queryErrorHandlingNgsi2 e)
       | TypeError => throw TypeError
       end).
End Query.

End ContextServer.

(** ** Vocabulary for the statements about the plugin *)
Module JexlParserSpec.
Import JS JexlParser.

(** A measure [{name, value}] as [extractContext] receives it. *)
Definition measure (n : string) (v : jsval) : attribute :=
  {| object_id := None; name := n; type := "string"; expression := None; value := v |}.

(** A device attribute definition with an expression. *)
Definition derived (o : option string) (n t e : string) : attribute :=
  {| object_id := o; name := n; type := t; expression := Some e; value := VUndefined |}.

(** The entries named [n], in list order. *)
Definition named (n : string) (l : list attribute) : list attribute :=
  filter (fun a => name a = n) l.

(** The identifier tokens of an expression (line 116). *)
Definition identifiers (tokens : list Jexl.token) : list Jexl.token :=
  filter (fun token => Jexl.type token = Jexl.identifier) tokens.

(** An identifier is in scope when it is a key of the context or the name
    of a registered transform (line 122). *)
Definition in_scope (context : Context) (t : Jexl.token) : bool :=
  includes (Object_keys context) (Jexl.value t) || isTransform (Jexl.value t).

Section Spec.
Context `{engine : Jexl.Engine}.

(** The expression tokenizes and all its identifiers are in scope. *)
Definition valid (context : Context) (e : string) : bool :=
  match Jexl.tokenize e with
  | Some tokens => forallb (in_scope context) (identifiers tokens)
  | None => false
  end.

(** The item carries a non-empty expression that passes the scope check. *)
Definition kept (context : Context) (item : attribute) : bool :=
  match expression item with
  | Some e => negb (String.eqb e "") && valid context e
  | None => false
  end.

(** The item carries a non-empty expression on which jexl throws: in its
    lexer, or in its evaluator once the identifiers are in scope. *)
Definition throws (context : Context) (item : attribute) : bool :=
  match expression item with
  | Some e =>
      negb (String.eqb e "")
      && match Jexl.tokenize e with
         | None => true
         | Some _ =>
             valid context e
             && match Jexl.evaluate e context with
                | Some _ => false
                | None => true
                end
         end
  | None => false
  end.

(** The callback of [filter] (line 140). *)
Definition check (context : Context) (item : attribute) : M exn event bool :=
  match expression item with
  | Some e => if String.eqb e "" then mret false else contextAvailable e context
  | None => mret false
  end.

(** The item's expression evaluates to [null] and its type is Number: the
    one case in which the coercion itself throws. *)
Definition null_number (context : Context) (item : attribute) : bool :=
  match expression item with
  | Some e =>
      String.eqb (type item) "Number"
      && bool_decide (Jexl.evaluate e context = Some VNull)
  | None => false
  end.
End Spec.

(** The context [{a: 2, b: 3}]. *)
Definition ab : Context := <["b" := VNum (Int 3)]> (<["a" := VNum (Int 2)]> ∅).

(** Three device attributes: a sum in scope, a sum out of scope, and an
    attribute without expression. *)
Definition three : list attribute :=
  [derived None "s" "Number" "a+b"; derived None "u" "Number" "c+b";
   measure "m" (VStr "1")].

End JexlParserSpec.

(** ** Sample data for the statements about the context server *)
Module ContextServerSpec.
Import JS ContextServer.

(** A device that declares the command [move]. *)
Definition robot : device :=
  {| dev_id := Some "dev1"; dev_type := Some "Robot"; lazy := None;
     commands := Some [Attribute "move" "command" VUndefined];
     staticAttributes := None; polling := false |}.

Definition move : attribute := Attribute "move" "command" (VStr "forward").
Definition temp : attribute := Attribute "temp" "Number" (VStr "21").

(** The same update of [dev1] in the two dialects: the command [move] and
    the plain attribute [temp]. *)
Definition robot_element : contextElement :=
  {| id := "dev1"; isPattern := VStr "false"; ce_type := "Robot";
     attributes := [move; temp] |}.

Definition robot_entity : entity :=
  [("id", Scalar (VStr "dev1")); ("type", Scalar (VStr "Robot"));
   ("move", Body "command" (VStr "forward")); ("temp", Body "Number" (VStr "21"))].

(** The property under a key, as an item, when it is an attribute body. *)
Definition item_of (kp : string * property) : item :=
  match kp with
  | (i, Body t v) => Named (Attribute i t v)
  | (_, Scalar v) => Plain v
  end.

Definition is_body (kp : string * property) : bool :=
  match kp with
  | (_, Body _ _) => true
  | (_, Scalar _) => false
  end.

Definition reserved (i : string) : bool :=
  String.eqb i "type" || String.eqb i "id".

(** A v1 update of one entity with two attributes, and one of two entities
    with one attribute each. *)
Definition two_attributes : list contextElement :=
  [ {| id := "dev1"; isPattern := VStr "false"; ce_type := "Device";
       attributes := [Attribute "a" "string" (VStr "1");
                      Attribute "b" "string" (VStr "2")] |} ].

Definition two_elements : list contextElement :=
  [ {| id := "dev1"; isPattern := VStr "false"; ce_type := "Device";
       attributes := [Attribute "a" "string" (VStr "1")] |};
    {| id := "dev2"; isPattern := VStr "false"; ce_type := "Device";
       attributes := [Attribute "b" "string" (VStr "2")] |} ].

(** A server state over handler types with one element each, and a query
    handler that answers an entity without attributes. *)
Definition answer : query_handler :=
  fun id type' _ _ _ => inr [("type", scalar_of type'); ("id", scalar_of id)].

(** An update or command handler that succeeds. *)
Definition accept : update_handler := fun _ _ _ _ _ => inr tt.

Definition started : state unit unit :=
  setNotificationHandler tt
    (setQueryHandler answer
       (setCommandHandler accept
          (setUpdateHandler accept
             (addNotificationMiddleware tt initial)))).

(** A directory that knows the one device [dev1]. *)
Definition NotFound (id : option string) : error :=
  {| err_code := Some 404; err_name := "DEVICE_NOT_FOUND";
     err_message := "No device was found with id:" +:+ default "undefined" id |}.

Definition byName (id : option string) (service subservice : string) : error + device :=
  if bool_decide (id = Some "dev1") then inr robot else inl (NotFound id).

Definition byType (t : option string) (service subservice : string)
  : error + deviceList :=
  inr {| count := 1; devices := [robot] |}.

Definition groupOf (d : device) : error + device := inr d.

(** Collaborators of the update that always succeed. *)
Definition merged (d group : device) : error + device := inr d.
Definition updated (d : device) (newAttributes : list attribute) : error + unit := inr tt.
Definition queued (service subservice : string) (deviceId : option string)
    (command : attribute) : error + unit := inr tt.

Definition update_of (contextElements : list contextElement) : updateRequest :=
  {| fiware_service := "smart"; fiware_servicepath := "/gardens";
     contextElements := contextElements |}.

Definition entity_ref (i : string) : entityRef :=
  {| ref_id := Some i; ref_type := Some "Robot"; idPattern := None |}.

Definition two_entities : queryRequest :=
  {| service := "smart"; subservice := "/gardens";
     entities := [entity_ref "dev1"; entity_ref "dev2"]; attrs := None |}.

Definition with_pattern : queryRequest :=
  {| service := "smart"; subservice := "/gardens";
     entities := [ {| ref_id := None; ref_type := Some "Robot";
                      idPattern := Some "dev.*" |} ];
     attrs := None |}.

Definition one_entity : queryRequest :=
  {| service := "smart"; subservice := "/gardens";
     entities := [entity_ref "dev1"]; attrs := Some ["move"] |}.

End ContextServerSpec.

(** ** More vocabulary for the plugin *)
Module JexlParserMore.
Import JS JexlParser.

(** The evaluation an item asks for, if it carries an expression. *)
Definition evaluation (context : Context) (item : attribute) : list event :=
  match expression item with
  | Some e => [EvalSync e context]
  | None => []
  end.

(** The evaluations a list of items asks for, in list order. *)
Definition evaluations (context : Context) (items : list attribute) : list event :=
  flat_map (evaluation context) items.

End JexlParserMore.

(** ** More vocabulary for the context server *)
Module ContextServerMore.
Import JS ContextServer ContextServerSpec.

(** An attribute array after [attributes[i].value = ''], when it has an
    element [i]. *)
Definition blanked (i : nat) (attributes : list attribute) : list attribute :=
  match attributes !! i with
  | Some a => <[i := set_value a (VStr "")]> attributes
  | None => attributes
  end.

(** The contextResponse built for the context element at position [i]. *)
Definition response_at (i : nat) (el : contextElement) : contextResponse :=
  {| contextElement_of :=
       {| id := id el; isPattern := VBool false; ce_type := ce_type el;
          attributes := blanked i (attributes el) |};
     statusCode_of := {| code := 200; reasonPhrase := "OK" |} |}.

(** Can [attributes[i].value] be assigned for every attribute array that is
    not empty, from position [k] on? *)
Definition fits (i : nat) (el : contextElement) : bool :=
  match attributes el with
  | [] => true
  | _ :: _ => Nat.ltb i (length (attributes el))
  end.

Fixpoint blankable (k : nat) (contextElements : list contextElement) : bool :=
  match contextElements with
  | [] => true
  | el :: rest => fits k el && blankable (S k) rest
  end.

(** Is the property [null] or [undefined]? *)
Definition nullish (p : property) : bool :=
  match p with
  | Scalar VNull | Scalar VUndefined => true
  | _ => false
  end.

(** The commands a device declares; none when it has no [commands] field. *)
Definition declared (d : device) : list attribute := default [] (commands d).

(** The attribute that marks a command as pending. *)
Definition pending (COMMAND_STATUS : string) (command : attribute) : attribute :=
  {| name := name command +:+ "_status"; type := COMMAND_STATUS;
     value := VStr "PENDING" |}.

(** The status updates an update asks for: one per pair of a declared
    command and an attribute of the same name, command by command. *)
Definition status_updates (COMMAND_STATUS : string) (d : device)
    (attributes : list attribute) : list event :=
  flat_map (fun command =>
    flat_map (fun a =>
      if String.eqb (name command) (name a)
      then [NgsiUpdate d [pending COMMAND_STATUS command]]
      else []) attributes) (declared d).

(** What the context broker answers to a status update. *)
Definition update_answer (ngsi_update : device -> list attribute -> error + unit)
    (ev : event) : error + unit :=
  match ev with
  | NgsiUpdate d newAttributes => ngsi_update d newAttributes
  | _ => inr tt
  end.

(** A call to the device directory. *)
Definition directory_event (ev : event) : bool :=
  match ev with
  | GetDeviceByName _ _ _ | ListDevicesWithType _ _ _
  | FindConfigurationGroup _ | MergeDeviceWithConfiguration _ _ => true
  | _ => false
  end.

(** A lookup of a device by name. *)
Definition is_lookup (ev : event) : bool :=
  match ev with
  | GetDeviceByName _ _ _ => true
  | _ => false
  end.

(** [contextElement[key]]. *)
Fixpoint get_prop (key : string) (contextElement : entity) : option property :=
  match contextElement with
  | [] => None
  | (k, p) :: rest => if String.eqb k key then Some p else get_prop key rest
  end.

(** The attributes a query handler is asked for: the requested ones when
    there are some, else the names of the lazy attributes of the group, else
    [null]. *)
Definition completed (attributes : option (list string)) (group : device)
  : option (list string) :=
  match attributes with
  | Some (a :: l) => Some (a :: l)
  | _ => map name <$> lazy group
  end.

(** The type the built-in query handler gives to an attribute. *)
Definition default_type (d : device) (a : string) : string :=
  match findWhere (commands d) a, findWhere (lazy d) a with
  | Some command, _ => type command
  | None, Some lazyAttribute => type lazyAttribute
  | None, None => "string"
  end.

(** The static attributes that are merged into a v2 query result: all of
    them when no attribute was requested, else the requested ones. *)
Definition selected (attributes : option (list string)) (static : list attribute)
  : list attribute :=
  match attributes with
  | None | Some [] => static
  | Some requested =>
      filter (fun item => name item ≠ "" ∧ name item ∈ requested) static
  end.

(** A lookup of the group of a device. *)
Definition is_group_lookup (ev : event) : bool :=
  match ev with
  | FindConfigurationGroup _ => true
  | _ => false
  end.

(** A context element for a device the sample directory does not know. *)
Definition ghost_element : contextElement :=
  {| id := "ghost"; isPattern := VStr "false"; ce_type := "Device";
     attributes := [Attribute "a" "string" (VStr "1")] |}.

(** An update handler that refuses. *)
Definition refusal : error :=
  {| err_code := Some 409; err_name := "CONFLICT";
     err_message := "device <dev1> is busy" |}.

Definition reject : update_handler := fun _ _ _ _ _ => inl refusal.

Definition refusing : state unit unit :=
  setCommandHandler accept (setUpdateHandler reject initial).

(** A group with a lazy attribute and a static attribute. *)
Definition garden : device :=
  {| dev_id := None; dev_type := Some "Robot";
     lazy := Some [Attribute "battery" "Number" VUndefined];
     commands := None;
     staticAttributes := Some [Attribute "location" "geo:point" (VStr "40,-3")];
     polling := false |}.

Definition groupGarden (d : device) : error + device := inr garden.

Definition unknown_entity : queryRequest :=
  {| service := "smart"; subservice := "/gardens";
     entities := [entity_ref "ghost"]; attrs := None |}.

Definition by_type : queryRequest :=
  {| service := "smart"; subservice := "/gardens";
     entities := [ {| ref_id := None; ref_type := Some "Robot"; idPattern := None |} ];
     attrs := None |}.

(** A second robot, and a listing of the two. *)
Definition rover : device :=
  {| dev_id := Some "dev2"; dev_type := Some "Robot"; lazy := None;
     commands := None; staticAttributes := None; polling := false |}.

Definition listed (t : option string) (service subservice : string)
  : error + deviceList :=
  inr {| count := 2; devices := [robot; rover] |}.

End ContextServerMore.


(** ** Notifications (lines 1021-1163)

    The handlers of the route [/notify]. Their calls to the outside are the
    lookup of the device, the notification middlewares and the notification
    handler. *)
Module Notifications.
Import JS.

Abbreviation Computation := M.

Import ContextServer ContextServerSpec ContextServerMore.

(** The calls, in the order they are made. [I] is what the device is looked
    up by and [V] the values handed to the middlewares and to the handler. *)
Inductive step (I V : Type) : Type :=
  | DeviceByName (id : I) (service subservice : string)
  | MiddlewareCall (d : device) (values : V)
  | HandlerCall (d : device) (values : V).
Arguments DeviceByName {I V} id service subservice.
Arguments MiddlewareCall {I V} d values.
Arguments HandlerCall {I V} d values.

(** The request: the two headers and the records of the body
    ([contextResponses] in NGSIv1, [data] in NGSIv2). *)
Record request (R : Type) : Type := Request {
  header_service : string;
  header_servicepath : string;
  records : list R
}.
Arguments Request {R} _ _ _.
Arguments header_service {R} _.
Arguments header_servicepath {R} _.
Arguments records {R} _.

(** A notification middleware [(device, values, callback)] answers the
    device and the values for the next one, and the notification handler
    only succeeds or fails. *)
Definition middleware (V : Type) : Type := device -> V -> error + (device * V).
Definition notification_handler (V : Type) : Type := device -> V -> error + unit.

Section Chain.
Context {I V : Type}.

Abbreviation N := (Computation exn (step I V)).

(** A call that answers its callback with an error or a result. *)
Definition ask {A} (e : step I V) (answer : error + A) : N A :=
  emit e;;
  match answer with
  | inl x => throw (Next x)
  | inr a => mret a
  end.

(** [async.waterfall] over the middlewares: each receives what the one
    before it answered, and the first error ends the chain. *)
Fixpoint waterfall (tasks : list (middleware V)) (d : device) (values : V)
  : N (device * V) :=
  match tasks with
  | [] => mret (d, values)
  | task :: rest =>
      '(d', values') ← ask (MiddlewareCall d values) (task d values);
      waterfall rest d' values'
  end.

Variable st : state (notification_handler V) (middleware V).

(** Lines 1045-1056 and 1122-1133. *)
Definition applyNotificationMiddlewares (d : device) (values : V) : N (device * V) :=
  match notificationMiddlewares st with
  | firstMiddleware :: rest => waterfall (firstMiddleware :: rest) d values
  | [] => mret (d, values)
  end.

(** The end of both waterfalls (lines 1058-1068 and 1135-1140): the
    middlewares, then the notification handler. *)
Definition notify (notificationHandler : notification_handler V)
    (found : device * V) : N unit :=
  '(d, values) ← applyNotificationMiddlewares found.1 found.2;
  ask (HandlerCall d values) (notificationHandler d values).
End Chain.

(** *** NGSIv1 (lines 1021-1092) *)

(** One entry of [req.body.contextResponses]: the context element and
    [statusCode.code]. *)
Record notification : Type := Notification {
  n_element : contextElement;
  n_code : jsval
}.

(** [statusCode.code && statusCode.code === '200'] (line 1023). *)
Definition is_ok (code : jsval) : bool :=
  match code with
  | VStr s => String.eqb s "200"
  | _ => false
  end.

Section Ngsi1.
Variable getDeviceByName : option string -> string -> string -> error + device.
Variable NotificationError : jsval -> error.
Variable st : state (notification_handler (list attribute)) (middleware (list attribute)).
Variable req : request notification.

Abbreviation N1 := (Computation exn (step (option string) (list attribute))).

(** Lines 1022-1028. *)
Definition checkStatus (code : jsval) : N1 unit :=
  if is_ok code then mret tt else throw (Next (NotificationError code)).

(** Lines 1030-1043. *)
Definition extractInformation1 (contextResponse : notification)
  : N1 (device * list attribute) :=
  d ← ask (DeviceByName (Some (id (n_element contextResponse)))
             (header_service req) (header_servicepath req))
         (getDeviceByName (Some (id (n_element contextResponse)))
            (header_service req) (header_servicepath req));
  mret (d, attributes (n_element contextResponse)).

(** Lines 1058-1068. *)
Definition createNotificationHandler1
    (notificationHandler : notification_handler (list attribute))
    (contextResponse : notification) : N1 unit :=
  checkStatus (n_code contextResponse);;
  found ← extractInformation1 contextResponse;
  notify st notificationHandler found.

(** Lines 1070-1091. Returning is [res.status(200).json({})]; throwing
    [Next e] is [next(e)]. *)
Definition handleNotificationNgsi1 : N1 unit :=
  match notificationHandler st with
  | Handler h =>
      async_map (createNotificationHandler1 h) (records req);;
      mret tt
  | _ => throw (Next errorNotFound)
  end.
End Ngsi1.

(** *** NGSIv2 (lines 1094-1163) *)

(** The attribute object of lines 1100-1104: [type] and [value] are read
    from the property under the key; a scalar has neither. *)
Record att : Type := Att {
  att_type : option string;
  att_value : jsval;
  att_name : string
}.

Definition att_of (key : string) (p : property) : att :=
  match p with
  | Body t v => {| att_type := Some t; att_value := v; att_name := key |}
  | Scalar _ => {| att_type := None; att_value := VUndefined; att_name := key |}
  end.

Section Ngsi2.
Variable getDeviceByName : option property -> string -> string -> error + device.
Variable st : state (notification_handler (list att)) (middleware (list att)).
Variable req : request entity.

Abbreviation N2 := (Computation exn (step (option property) (list att))).

(** Lines 1096-1108: the loop over the keys of the data element. Each
    iteration calls [dataElement.hasOwnProperty(key)]: when the data element
    has a key [hasOwnProperty] of its own, that property is what is called,
    and it is not a function. Every enumerated key is an own key. Reading a
    property of [null] or [undefined] throws. *)
Fixpoint atts_loop (dataElement remaining : entity) (atts : list att)
  : N2 (list att) :=
  match remaining with
  | [] => mret atts
  | (key, p) :: rest =>
      match get_prop "hasOwnProperty" dataElement with
      | Some _ => throw TypeError
      | None =>
          if negb (String.eqb key "id") && negb (String.eqb key "type")
          then
            match p with
            | Scalar VNull | Scalar VUndefined => throw TypeError
            | _ => atts_loop dataElement rest (atts ++ [att_of key p])
            end
          else atts_loop dataElement rest atts
      end
  end.

(** Lines 1095-1120. *)
Definition extractInformation2 (dataElement : entity) : N2 (device * list att) :=
  atts ← atts_loop dataElement dataElement [];
  d ← ask (DeviceByName (get_prop "id" dataElement)
             (header_service req) (header_servicepath req))
         (getDeviceByName (get_prop "id" dataElement)
            (header_service req) (header_servicepath req));
  mret (d, atts).

(** Lines 1135-1140. *)
Definition createNotificationHandler2
    (notificationHandler : notification_handler (list att))
    (contextResponse : entity) : N2 unit :=
  found ← extractInformation2 contextResponse;
  notify st notificationHandler found.

(** Lines 1142-1162. *)
Definition handleNotificationNgsi2 : N2 unit :=
  match notificationHandler st with
  | Handler h =>
      async_map (createNotificationHandler2 h) (records req);;
      mret tt
  | _ => throw (Next errorNotFound)
  end.
End Ngsi2.

(** *** Vocabulary and sample data *)

Definition is_lookup {I V} (s : step I V) : bool :=
  match s with
  | DeviceByName _ _ _ => true
  | _ => false
  end.

(** A middleware that marks the values it passes on, one that refuses, and
    a handler that accepts. *)
Definition mark (d : device) (values : list attribute)
  : error + (device * list attribute) :=
  inr (d, values ++ [Attribute "seen" "Boolean" (VBool true)]).

Definition busy (d : device) (values : list attribute)
  : error + (device * list attribute) := inl refusal.

Definition welcome {V} : notification_handler V := fun _ _ => inr tt.

Definition listening {V} : state (notification_handler V) (middleware V) :=
  setNotificationHandler welcome initial.

(** A stand-in for the error of a notification with a bad status. *)
Definition BadStatus (code : jsval) : error :=
  {| err_code := Some 400; err_name := "NOTIFICATION_ERROR";
     err_message := "Incoming notification with non-200 status code: "
                    +:+ ToString code |}.

(** Two notified elements: the second with the number 200 as its code. *)
Definition notified : request notification :=
  {| header_service := "smart"; header_servicepath := "/gardens";
     records := [ {| n_element := robot_element; n_code := VStr "200" |};
                  {| n_element := ghost_element; n_code := VNum (Int 200) |} ] |}.

Definition byId (id : option property) (service subservice : string)
  : error + device :=
  match id with
  | Some (Scalar (VStr "dev1")) => inr robot
  | _ => inl (NotFound None)
  end.

(** The data element has a key [hasOwnProperty] of its own. *)
Definition shadowed (dataElement : entity) : bool :=
  match get_prop "hasOwnProperty" dataElement with
  | Some _ => true
  | None => false
  end.

(** The data element is one that the loop over its keys does not get
    through. *)
Definition refused (dataElement : entity) : bool :=
  shadowed dataElement
  || existsb (fun kp => negb (reserved kp.1) && nullish kp.2) dataElement.

(** An entity with an attribute called [hasOwnProperty]. *)
Definition shadowing : entity :=
  [("id", Scalar (VStr "dev1")); ("type", Scalar (VStr "Robot"));
   ("hasOwnProperty", Body "Text" (VStr "yes"))].

Definition notified2 : request entity :=
  {| header_service := "smart"; header_servicepath := "/gardens";
     records := [robot_entity] |}.

End Notifications.
(** * Properties *)

(** ** The JavaScript primitives on sample inputs *)
Module JSFacts.
Import JS.

Example parseInt_samples :
  map (fun s => parseInt (VStr s))
    ["21"; "21.5"; " 12abc"; "-0x1F"; "0.5"; ".5"; "1e3"; ""; "true"; "0x"; "-0"]
  = [Dec 21 0; Dec 21 0; Dec 12 0; Dec (-31) 0; Dec 0 0; NaN; Dec 1 0; NaN; NaN;
     NaN; Dec 0 0].
Proof. vm_compute. reflexivity. Qed.

Example parseFloat_samples :
  map (fun s => parseFloat (VStr s))
    ["21.5"; "21"; " .5e1x"; "-.5"; "1."; "."; "1e"; "0x10"; "3.0"; "-Infinity";
     "abc"; "1e-400"; "1e400"]
  = [Dec 215 (-1); Dec 21 0; Dec 5 0; Dec (-5) (-1); Dec 1 0; NaN; Dec 1 0;
     Dec 0 0; Dec 3 0; Inf true; NaN; Dec 0 0; Inf false].
Proof. vm_compute. reflexivity. Qed.

Example ToNumber_samples :
  map ToNumber
    [VStr " 12 "; VStr ""; VStr "0x1f"; VStr "1.5abc"; VStr "1.50"; VStr "0b102";
     VNull; VUndefined; VBool true]
  = [Dec 12 0; Dec 0 0; Dec 31 0; NaN; Dec 15 (-1); NaN; Dec 0 0; NaN; Dec 1 0].
Proof. vm_compute. reflexivity. Qed.

Example ToString_samples :
  map ToString
    [VNum (Dec 215 (-1)); VNum (Dec 21 0); VNum (Dec 1 2); VNum (Dec 1 21);
     VNum (Dec 5 (-7)); VNum (Dec (-5) (-1)); VNum NaN; VBool true; VNull]
  = ["21.5"; "21"; "100"; "1e+21"; "5e-7"; "-0.5"; "NaN"; "true"; "null"].
Proof. vm_compute. reflexivity. Qed.

(** Parsing the string form of a number gives the number back, on samples. *)
Example parse_print_samples :
  Forall (fun n => parseFloat (VNum n) = n)
    [Dec 215 (-1); Dec 21 0; Dec 1 2; Dec 1 21; Dec 5 (-7); Dec (-5) (-1)].
Proof. repeat constructor. Qed.

End JSFacts.

(** ** Computations *)
Section EffectsFacts.
Context {X E : Type}.
Implicit Types (x : X).

Lemma outcome_bind {A B} (c : M X E A) (k : A -> M X E B) :
  outcome (bind c k)
  = match outcome c with
    | inl x => inl x
    | inr a => outcome (k a)
    end.
Proof.
  destruct c as [[x|a] log]; [done|].
  unfold bind, outcome. simpl. by destruct (k a).
Qed.

Lemma outcome_mbind {A B} (c : M X E A) (k : A -> M X E B) :
  outcome (c ≫= k)
  = match outcome c with
    | inl x => inl x
    | inr a => outcome (k a)
    end.
Proof. apply outcome_bind. Qed.

(** A filter whose callback never throws keeps what the callback keeps. *)
Lemma filterM_returns {A} (p : A -> M X E bool) (q : A -> bool) (l : list A) :
  Forall (fun a => outcome (p a) = inr (q a)) l ->
  outcome (filterM p l) = inr (filter (fun a => q a = true) l).
Proof.
  induction 1 as [|a l Ha _ IH]; [done|].
  cbn [filterM]. rewrite outcome_bind, Ha, outcome_bind, IH.
  unfold outcome, ret. cbn [fst].
  destruct (q a) eqn:Hq.
  - by rewrite filter_cons_True.
  - rewrite filter_cons_False; [done|]. by rewrite Hq.
Qed.

(** A filter whose callback throws on some element throws what the
    callback throws on the first such element. *)
Lemma filterM_throws {A} (p : A -> M X E bool) (l : list A) :
  Exists (fun a => exists x, outcome (p a) = inl x) l ->
  exists a x, a ∈ l ∧ outcome (p a) = inl x ∧ outcome (filterM p l) = inl x.
Proof.
  induction l as [|a l IH]; intros Hex; [by apply Exists_nil in Hex|].
  cbn [filterM]. rewrite outcome_bind.
  destruct (outcome (p a)) as [x|b] eqn:Ha.
  - exists a, x. split; [left|done].
  - apply Exists_cons in Hex as [[x Hx]|Hex]; [congruence|].
    destruct (IH Hex) as (a' & x & Hin & Hp & Hf).
    exists a', x. split; [by right|]. split; [done|].
    by rewrite outcome_bind, Hf.
Qed.

(** A map whose callback never throws returns the results in order. *)
Lemma mapM_returns {A B} (f : A -> M X E B) (l : list A) :
  Forall (fun a => exists b, outcome (f a) = inr b) l ->
  exists out, outcome (mapM f l) = inr out
              ∧ Forall2 (fun a b => outcome (f a) = inr b) l out.
Proof.
  induction 1 as [|a l [b Hb] _ [out [Hout Hall]]].
  - exists []. split; [done|constructor].
  - exists (b :: out). split; [|by constructor].
    cbn [mapM]. by rewrite outcome_bind, Hb, outcome_bind, Hout.
Qed.
End EffectsFacts.

(** ** The expression plugin *)
Module JexlParserFacts.
Import JS JexlParser JexlParserSpec.

Lemma extractContext_loop_snoc (l : list attribute) (a : attribute) :
  extractContext_loop (l ++ [a])
  = set_property (name a) (extractContext_value (value a)) (extractContext_loop l).
Proof. unfold extractContext_loop. by rewrite foldl_snoc. Qed.

Lemma lookup_set_property_eq (k : string) (v : jsval) (context : object) :
  k ≠ "__proto__" -> own (set_property k v context) !! k = Some v.
Proof.
  intros Hk. unfold set_property.
  destruct (String.eqb_spec k "__proto__") as [->|_]; [done|].
  apply lookup_insert_eq.
Qed.

Lemma lookup_set_property_ne (k k' : string) (v : jsval) (context : object) :
  k ≠ k' -> own (set_property k v context) !! k' = own context !! k'.
Proof.
  intros Hk. unfold set_property.
  destruct (String.eqb k "__proto__" && negb (null_prototype context)).
  - by destruct v.
  - by apply lookup_insert_ne.
Qed.

Lemma extractContext_lookup (l : list attribute) (n : string) :
  n ≠ "__proto__" ->
  extractContext l !! n = (fun a => extractContext_value (value a)) <$> last (named n l).
Proof.
  intros Hn. induction l as [|a l IH] using rev_ind.
  - done.
  - unfold extractContext in *. rewrite extractContext_loop_snoc.
    unfold named in *. rewrite filter_app.
    destruct (decide (name a = n)) as [Heq|Hne].
    + rewrite (filter_cons_True _ a []), filter_nil by done.
      rewrite last_snoc. simpl. subst n. by apply lookup_set_property_eq.
    + rewrite (filter_cons_False _ a []), filter_nil by done.
      rewrite app_nil_r, <- IH. by apply lookup_set_property_ne.
Qed.



Lemma extractContext_last_wins_aux (l : list attribute) (n : string) (a : attribute) :
  n ≠ "__proto__" ->
  last (named n l) = Some a ->
  extractContext l !! n = Some (extractContext_value (value a)).
Proof.
  intros Hn Hlast. rewrite extractContext_lookup by done. by rewrite Hlast.
Qed.

(** C3. The value "21" gives the integer 21 and "true" gives the boolean,
    but "21.5" gives the integer 21, not the float 21.5: its integer parse is
    21, which is truthy, so the float branch is never reached. *)
Theorem extractContext_sniffing :
  extractContext [measure "t" (VStr "21")] = {[ "t" := VNum (Dec 21 0) ]}
  ∧ extractContext [measure "b" (VStr "true")] = {[ "b" := VBool true ]}
  ∧ extractContext [measure "f" (VStr "21.5")] = {[ "f" := VNum (Dec 21 0) ]}
  ∧ parseFloat (VStr "21.5") = Dec 215 (-1)
  ∧ extractContext [measure "f" (VStr "21.5")] ≠ {[ "f" := VNum (Dec 215 (-1)) ]}.
Proof.
  repeat split; try (vm_compute; reflexivity).
  intros H. apply (f_equal (fun m : Context => m !! "f")) in H.
  vm_compute in H. discriminate.
Qed.

(** C4, as stated, fails: with two entries named "t", values "1" then "2",
    the context binds "t" to 2, the value of the second entry, and not to
    the value coerced from the first. *)
Lemma extractContext_first_does_not_win :
  extractContext [measure "t" (VStr "1"); measure "t" (VStr "2")] !! "t"
    = Some (VNum (Dec 2 0))
  ∧ extractContext [measure "t" (VStr "1"); measure "t" (VStr "2")] !! "t"
    ≠ Some (extractContext_value (VStr "1")).
Proof. split; [vm_compute; reflexivity | vm_compute; discriminate]. Qed.

(** C4, amended: when the list holds one or more entries with the same
    name, the context binds the name to the value coerced from the last such
    entry (each assignment overwrites the one before). The name [__proto__]
    is the one exception, as assigning to it reaches the prototype accessor
    first. *)
Theorem extractContext_last_wins (l : list attribute) (n : string) (a : attribute) :
  n ≠ "__proto__" ->
  last (named n l) = Some a ->
  extractContext l !! n = Some (extractContext_value (value a)).
Proof. apply extractContext_last_wins_aux. Qed.

Lemma extractContext_last_wins_witness :
  "t" ≠ "__proto__"
  ∧ last (named "t" [measure "t" (VStr "1"); measure "u" (VStr "x");
                     measure "t" (VStr "2")])
    = Some (measure "t" (VStr "2"))
  ∧ extractContext [measure "t" (VStr "1"); measure "u" (VStr "x");
                    measure "t" (VStr "2")] !! "t"
    = Some (extractContext_value (VStr "2")).
Proof.
  split; [discriminate|]. split; [reflexivity|].
  apply (extractContext_last_wins _ "t" (measure "t" (VStr "2")));
    [discriminate | reflexivity].
Defined.



Example extractContext_zero_strings :
  extractContext [measure "x" (VStr "0"); measure "y" (VStr "0.0")]
  = {[ "x" := VStr "0"; "y" := VStr "0.0" ]}.
Proof. vm_compute. reflexivity. Qed.

(** *** The scope check *)

Lemma some_identifier_stopped (keys : list string) (ids : list Jexl.token) :
  some_identifier keys ids false = false.
Proof.
  induction ids as [|t ids IH]; [done|].
  cbn [some_identifier].
  by destruct (negb (includes keys (Jexl.value t)) && negb (isTransform (Jexl.value t))).
Qed.

Lemma some_identifier_all (context : Context) (ids : list Jexl.token) :
  some_identifier (Object_keys context) ids true = forallb (in_scope context) ids.
Proof.
  induction ids as [|t ids IH]; [done|].
  cbn [some_identifier forallb]. unfold in_scope at 1.
  destruct (includes (Object_keys context) (Jexl.value t)); cbn.
  - apply IH.
  - destruct (isTransform (Jexl.value t)); cbn; [apply IH | done].
Qed.

Lemma elem_of_Object_keys (context : Context) (x : string) :
  x ∈ Object_keys context <-> is_Some (context !! x).
Proof.
  unfold Object_keys. rewrite list_elem_of_fmap. split.
  - intros [[k v] [-> Hin]]. apply elem_of_map_to_list in Hin. by exists v.
  - intros [v Hv]. exists (x, v). split; [done|]. by apply elem_of_map_to_list.
Qed.

Lemma out_of_scope (context : Context) (t : Jexl.token) (x : string) :
  Jexl.value t = VStr x -> context !! x = None -> x ∉ transforms ->
  in_scope context t = false.
Proof.
  intros Hv Hctx Htr. unfold in_scope, includes, isTransform, getTransform.
  rewrite Hv. cbn [ToString].
  rewrite bool_decide_eq_false_2.
  - by rewrite bool_decide_eq_false_2.
  - rewrite elem_of_Object_keys, Hctx. by intros [? ?].
Qed.

Section Plugin.
Context `{engine : Jexl.Engine}.
Variable checkNgsi2 : bool.

(** The four ways [contextAvailable] can go. *)
Lemma contextAvailable_cases (e : string) (context : Context) :
  contextAvailable e context
  = match Jexl.tokenize e with
    | None => (inl (InvalidExpression e), [])
    | Some tokens =>
        if forallb (in_scope context) (identifiers tokens) then
          match Jexl.evaluate e context with
          | Some _ => (inr true, [EvalSync e context])
          | None => (inl (InvalidExpression e), [EvalSync e context])
          end
        else (inr false, [])
    end.
Proof.
  unfold contextAvailable, tokenize, evalSync.
  destruct (Jexl.tokenize e) as [tokens|]; [|done].
  cbn. rewrite some_identifier_all. fold (identifiers tokens).
  destruct (forallb (in_scope context) (identifiers tokens)); [|done].
  cbn. by destruct (Jexl.evaluate e context).
Qed.

(** C1, amended: when an expression tokenizes and one of its identifiers
    is neither a key of the context nor a registered transform, the scope
    check answers false: it raises no InvalidExpression, and it does so
    without evaluating the expression (no call to the evaluator is made). *)
Theorem contextAvailable_out_of_scope (e : string) (context : Context)
    (tokens : list Jexl.token) (t : Jexl.token) (x : string) :
  Jexl.tokenize e = Some tokens ->
  t ∈ tokens ->
  Jexl.type t = Jexl.identifier ->
  Jexl.value t = VStr x ->
  context !! x = None ->
  x ∉ transforms ->
  contextAvailable e context = (inr false, []).
Proof.
  intros Htok Hin Hty Hval Hctx Htr.
  rewrite contextAvailable_cases, Htok.
  assert (forallb (in_scope context) (identifiers tokens) = false) as ->; [|done].
  apply not_true_is_false. intros Hall.
  rewrite forallb_forall in Hall.
  assert (in_scope context t = true) as Hs.
  { apply Hall. apply list_elem_of_In. unfold identifiers.
    by apply list_elem_of_filter. }
  by rewrite (out_of_scope context t x) in Hs.
Qed.
End Plugin.

(** C1, as stated, fails: with the context [{a: 2, b: 3}] the expression
    [c+b] references [c], which is neither a key nor a transform, and the
    scope check returns false instead of raising InvalidExpression; the batch
    function then returns an empty list instead of failing. The exported
    [applyExpression] makes no check at all: it hands the expression to the
    evaluator. *)
Lemma unknown_identifier_raises_nothing :
  ab !! "c" = None
  ∧ isTransform (VStr "c") = false
  ∧ contextAvailable "c+b" ab = (inr false, [])
  ∧ outcome (contextAvailable "c+b" ab) ≠ inl (InvalidExpression "c+b")
  ∧ processExpressionAttributes false [derived None "x" "Number" "c+b"] ab
    = (inr [], [])
  ∧ trace (applyExpression "c+b" ab) = [EvalSync "c+b" ab].
Proof. repeat split; try (vm_compute; reflexivity); vm_compute; discriminate. Qed.

Lemma contextAvailable_out_of_scope_witness :
  Jexl.tokenize "c+b"
  = Some [Jexl.Token Jexl.identifier (VStr "c") "c";
          Jexl.Token Jexl.binaryOp (VStr "+") "+";
          Jexl.Token Jexl.identifier (VStr "b") "b"]
  ∧ ab !! "c" = None
  ∧ ("c" ∉ transforms)
  ∧ contextAvailable "c+b" ab = (inr false, []).
Proof.
  split; [reflexivity|]. split; [reflexivity|].
  split; [intros H%list_elem_of_In; cbn in H; intuition discriminate|].
  apply (contextAvailable_out_of_scope "c+b" ab
           [Jexl.Token Jexl.identifier (VStr "c") "c";
            Jexl.Token Jexl.binaryOp (VStr "+") "+";
            Jexl.Token Jexl.identifier (VStr "b") "b"]
           (Jexl.Token Jexl.identifier (VStr "c") "c") "c");
    [reflexivity | left | reflexivity | reflexivity | reflexivity
    | intros H%list_elem_of_In; cbn in H; intuition discriminate].
Defined.

(** *** Coercion of an evaluated result *)

Section Coercion.
Context `{engine : Jexl.Engine}.
Variable checkNgsi2 : bool.

Lemma isFloat_returns (r : jsval) :
  r ≠ VNull ->
  isFloat r = (inr (negb (isNaN r) && contains_char "." (ToString r)), []).
Proof.
  intros Hr. unfold isFloat.
  destruct (isNaN r) eqn:Hnan; [done|].
  by destruct r.
Qed.

Lemma applyExpression_returns (e : string) (context : Context) (r : jsval) :
  Jexl.evaluate e context = Some r ->
  applyExpression e context = (inr r, [EvalSync e context]).
Proof. intros H. unfold applyExpression, evalSync. cbn. by rewrite H. Qed.

Lemma expressionApplier_returns (context : Context) (a : attribute)
    (e : string) (r : jsval) :
  expression a = Some e ->
  Jexl.evaluate e context = Some r ->
  ¬ (type a = "Number" ∧ r = VNull) ->
  expressionApplier checkNgsi2 context a
  = (inr {| object_id :=
              if checkNgsi2 && present (object_id a) then object_id a else None;
            name := name a; type := type a; expression := None;
            value :=
              if String.eqb (type a) "Number"
                 && (negb (isNaN r) && contains_char "." (ToString r))
              then VNum (parseFloat r)
              else if String.eqb (type a) "Number" && number_truthy (parseInt r)
              then VNum (parseInt r)
              else if String.eqb (type a) "Boolean"
              then VBool (bool_decide (r = VStr "true") || bool_decide (r = VStr "1"))
              else if String.eqb (type a) "None" then VNull
              else VStr (ToString r) |},
     [EvalSync e context]).
Proof.
  intros He Hr Hnull. unfold expressionApplier. rewrite He.
  rewrite (applyExpression_returns e context r Hr).
  unfold mbind, M_bind. cbn [bind].
  destruct (String.eqb_spec (type a) "Number") as [Hn|Hn]; [|done].
  rewrite isFloat_returns; [done|]. intros ->. by apply Hnull.
Qed.

(** With type Number and a [null] result the coercion throws. *)
Lemma expressionApplier_null_number (context : Context) (a : attribute) (e : string) :
  expression a = Some e ->
  Jexl.evaluate e context = Some VNull ->
  type a = "Number" ->
  expressionApplier checkNgsi2 context a = (inl TypeError, [EvalSync e context]).
Proof.
  intros He Hr Ht. unfold expressionApplier. rewrite He.
  rewrite (applyExpression_returns e context VNull Hr).
  unfold mbind, M_bind. cbn [bind]. by rewrite Ht.
Qed.

(** C7, amended. Let [r] be the evaluated result (for type Number, not
    [null]). The output attribute keeps name and type, and its value is:
    for type Number, the float parse of [r] if [r] is numeric ([isNaN] is
    false) and its string form contains a decimal point, else the integer
    parse of [r] if [r] parses to a non-zero integer, else, if [r] does not
    parse to an integer at all, the string coercion of [r]; for type Boolean,
    a boolean that, when [r] is a string or reads neither "true" nor "1", is
    true if and only if the string form of [r] is "true" or "1"; for type
    None, [null]; for any other type, the string coercion of [r].
    [object_id] is copied exactly when the dialect is v2 and the source
    attribute has a non-empty one. Nothing is said of a Number result whose
    integer parse is zero, nor of a Boolean result that is not a string and
    reads "true" or "1". *)
Theorem expressionApplier_coercion (context : Context) (a : attribute)
    (e : string) (r : jsval) :
  expression a = Some e ->
  Jexl.evaluate e context = Some r ->
  ¬ (type a = "Number" ∧ r = VNull) ->
  exists new : attribute,
    expressionApplier checkNgsi2 context a = (inr new, [EvalSync e context])
    ∧ name new = name a
    ∧ type new = type a
    ∧ (type a = "Number" ->
         (isNaN r = false ∧ contains_char "." (ToString r) = true ->
            value new = VNum (parseFloat r))
         ∧ (¬ (isNaN r = false ∧ contains_char "." (ToString r) = true) ->
              (number_truthy (parseInt r) = true -> value new = VNum (parseInt r))
              ∧ (parseInt r = NaN -> value new = VStr (ToString r))))
    ∧ (type a = "Boolean" ->
         exists b : bool,
           value new = VBool b
           ∧ ((exists s, r = VStr s) ∨ (ToString r ≠ "true" ∧ ToString r ≠ "1") ->
              (b = true <-> ToString r = "true" ∨ ToString r = "1")))
    ∧ (type a = "None" -> value new = VNull)
    ∧ (type a ≠ "Number" -> type a ≠ "Boolean" -> type a ≠ "None" ->
         value new = VStr (ToString r))
    ∧ (forall o : string,
         object_id new = Some o
         <-> checkNgsi2 = true ∧ object_id a = Some o ∧ o ≠ "").
Proof.
  intros He Hr Hnull.
  eexists. split; [by apply expressionApplier_returns|]. cbn.
  split; [done|]. split; [done|]. split; [|split; [|split; [|split]]].
  - intros ->. cbn. split.
    + intros [-> ->]. done.
    + intros Hnot.
      assert (negb (isNaN r) && contains_char "." (ToString r) = false) as ->.
      { destruct (isNaN r); [done|]. cbn.
        destruct (contains_char "." (ToString r)); [|done]. by destruct Hnot. }
      split; intros ->; done.
  - intros ->. cbn. eexists. split; [done|].
    rewrite orb_true_iff, !bool_decide_eq_true.
    intros [[s ->]|[Ht H1]]; cbn [ToString] in *.
    + split; (intros [H|H]; [left|right]); congruence.
    + split; [|tauto]. intros [->| ->]; cbn [ToString] in *; congruence.
  - intros ->. done.
  - intros H1 H2 H3.
    destruct (String.eqb_spec (type a) "Number"); [done|].
    destruct (String.eqb_spec (type a) "Boolean"); [done|].
    destruct (String.eqb_spec (type a) "None"); [done|]. done.
  - intros o. destruct checkNgsi2; cbn.
    + unfold present. destruct (object_id a) as [o'|]; cbn.
      * destruct (String.eqb_spec o' "") as [->|Hne]; cbn.
        -- split; [discriminate|]. by intros (_ & [= <-] & Ho).
        -- split; [by intros [= <-] | by intros (_ & Ho & _)].
      * split; [discriminate | by intros (_ & Ho & _)].
    + split; [discriminate | by intros [Hv2 _]].
Qed.
End Coercion.

(** C7, as stated, fails in two places. With type Number the string
    "1.5abc" contains a decimal point and is not coerced to a float: it is
    not numeric, and becomes the integer 1. With type Number a result that is
    neither a float nor an integer is not left as evaluated: the boolean
    [true] becomes the string "true". *)
Lemma coercion_differs :
  outcome (expressionApplier false (<["x" := VStr "1.5abc"]> ∅) (derived None "n" "Number" "x"))
  = inr {| object_id := None; name := "n"; type := "Number"; expression := None;
           value := VNum (Dec 1 0) |}
  ∧ contains_char "." (ToString (VStr "1.5abc")) = true
  ∧ Jexl.evaluate "x" (<["x" := VStr "1.5abc"]> ∅) = Some (VStr "1.5abc")
  ∧ outcome (expressionApplier false ∅ (derived None "n" "Number" "true"))
    = inr {| object_id := None; name := "n"; type := "Number"; expression := None;
             value := VStr "true" |}
  ∧ Jexl.evaluate "true" ∅ = Some (VBool true)
  ∧ parseInt (VBool true) = NaN.
Proof. repeat split; vm_compute; reflexivity. Qed.

(** Lines 92 and 96 test the parsed integer for truthiness and compare the
    result with two strings. With type Number the number 0 becomes the
    string "0", and with type Boolean the boolean [true] and the number 1
    give false. *)
Lemma coercion_of_zero_and_true :
  outcome (expressionApplier false (<["x" := VNum (Dec 0 0)]> ∅) (derived None "n" "Number" "x"))
  = inr {| object_id := None; name := "n"; type := "Number"; expression := None;
           value := VStr "0" |}
  ∧ outcome (expressionApplier false ∅ (derived None "p" "Boolean" "true"))
    = inr {| object_id := None; name := "p"; type := "Boolean"; expression := None;
             value := VBool false |}
  ∧ outcome (expressionApplier false (<["x" := VNum (Dec 1 0)]> ∅) (derived None "p" "Boolean" "x"))
    = inr {| object_id := None; name := "p"; type := "Boolean"; expression := None;
             value := VBool false |}
  ∧ outcome (expressionApplier false (<["x" := VNull]> ∅) (derived None "n" "Number" "x"))
    = inl TypeError.
Proof. repeat split; vm_compute; reflexivity. Qed.

Lemma expressionApplier_coercion_witness :
  Jexl.evaluate "a+b" ab = Some (VNum (Dec 5 0))
  ∧ exists new : attribute,
      expressionApplier true ab (derived (Some "t1") "sum" "Number" "a+b")
      = (inr new, [EvalSync "a+b" ab])
      ∧ value new = VNum (Dec 5 0)
      ∧ object_id new = Some "t1".
Proof.
  split; [reflexivity|].
  destruct (expressionApplier_coercion true ab
              (derived (Some "t1") "sum" "Number" "a+b") "a+b" (VNum (Dec 5 0)))
    as (new & Hnew & _ & _ & Hnumber & _ & _ & _ & Hid);
    [reflexivity | reflexivity | by intros [_ ?] |].
  exists new. split; [exact Hnew|]. split.
  - destruct (Hnumber eq_refl) as [_ Hint].
    destruct Hint as [Hparse _]; [by intros [_ ?]|].
    apply Hparse. reflexivity.
  - apply Hid. repeat split; discriminate.
Defined.

(** *** The batch *)

Section Batch.
Context `{engine : Jexl.Engine}.
Variable checkNgsi2 : bool.
Variable context : Context.

Lemma check_returns (item : attribute) :
  throws context item = false -> outcome (check context item) = inr (kept context item).
Proof.
  unfold throws, check, kept, valid. destruct (expression item) as [e|]; [|done].
  destruct (String.eqb e ""); [done|]. cbn [negb andb].
  rewrite contextAvailable_cases.
  destruct (Jexl.tokenize e) as [tokens|]; [|done].
  destruct (forallb (in_scope context) (identifiers tokens)); [|done].
  by destruct (Jexl.evaluate e context).
Qed.

Lemma check_throws (item : attribute) (x : exn) :
  outcome (check context item) = inl x ->
  exists e, expression item = Some e ∧ throws context item = true
            ∧ x = InvalidExpression e.
Proof.
  unfold throws, check, valid. destruct (expression item) as [e|]; [|done].
  destruct (String.eqb e ""); [done|]. cbn [negb andb].
  rewrite contextAvailable_cases.
  destruct (Jexl.tokenize e) as [tokens|].
  - destruct (forallb (in_scope context) (identifiers tokens)); [|done].
    destruct (Jexl.evaluate e context); [done|].
    intros [= <-]. by exists e.
  - intros [= <-]. by exists e.
Qed.

Lemma throws_check (item : attribute) :
  throws context item = true -> exists x, outcome (check context item) = inl x.
Proof.
  intros Ht. destruct (outcome (check context item)) as [x|b] eqn:Hc; [by exists x|].
  destruct (throws context item) eqn:Hthrows; [|done].
  unfold throws, check, valid in *. destruct (expression item) as [e|]; [|done].
  destruct (String.eqb e ""); [done|]. cbn [negb andb] in *.
  rewrite contextAvailable_cases in Hc.
  destruct (Jexl.tokenize e) as [tokens|]; [|done].
  destruct (forallb (in_scope context) (identifiers tokens)); [|done].
  by destruct (Jexl.evaluate e context).
Qed.

Lemma kept_applies (item : attribute) :
  throws context item = false ->
  null_number context item = false ->
  kept context item = true ->
  exists new, outcome (expressionApplier checkNgsi2 context item) = inr new.
Proof.
  unfold throws, null_number, kept. intros Ht Hn Hk.
  destruct (expression item) as [e|] eqn:He; [|done].
  destruct (String.eqb e ""); [done|]. cbn [negb andb] in *.
  rewrite Hk in Ht. unfold valid in Hk.
  destruct (Jexl.tokenize e); [|done].
  destruct (Jexl.evaluate e context) as [r|] eqn:Hr; [|done].
  eexists. rewrite (expressionApplier_returns checkNgsi2 context item e r); [done..|].
  intros [Hty ->]. rewrite Hty in Hn. cbn in Hn.
  by rewrite bool_decide_eq_true_2 in Hn.
Qed.

(** C8, amended. When jexl throws on none of the non-empty expressions of
    the list (each one tokenizes, and evaluates once its identifiers are in
    scope) and no Number attribute evaluates to [null], the output holds
    exactly the transformed versions of the items that carry a non-empty
    expression whose identifiers are all in scope, in input order: an item
    whose expression is absent, empty or out of scope is omitted without an
    error. When jexl throws on the expression of some item, the item is not
    omitted: the whole call fails with InvalidExpression for such an
    expression. *)
Theorem processExpressionAttributes_filters (list : Datatypes.list attribute) :
  (Forall (fun item => throws context item = false
                       ∧ null_number context item = false) list ->
   exists out,
     outcome (processExpressionAttributes checkNgsi2 list context) = inr out
     ∧ Forall2 (fun item new =>
                  outcome (expressionApplier checkNgsi2 context item) = inr new)
         (filter (fun item => kept context item = true) list) out)
  ∧ (Exists (fun item => throws context item = true) list ->
     exists item e,
       item ∈ list ∧ expression item = Some e ∧ throws context item = true
       ∧ outcome (processExpressionAttributes checkNgsi2 list context)
         = inl (InvalidExpression e)).
Proof.
  unfold processExpressionAttributes. fold (check context). split.
  - intros Hall. rewrite outcome_mbind.
    rewrite (filterM_returns (check context) (kept context)).
    + apply mapM_returns. rewrite Forall_forall. intros item Hin.
      apply list_elem_of_filter in Hin as [Hk Hin].
      rewrite Forall_forall in Hall. destruct (Hall item Hin) as [Ht Hn].
      by apply kept_applies.
    + eapply Forall_impl; [exact Hall|]. intros item [Ht _].
      by apply check_returns.
  - intros Hex. rewrite outcome_mbind.
    destruct (filterM_throws (check context) list) as (item & x & Hin & Hx & Hf).
    { eapply Exists_impl; [exact Hex|]. intros item. apply throws_check. }
    destruct (check_throws item x Hx) as (e & He & Ht & ->).
    exists item, e. by rewrite Hf.
Qed.
End Batch.

(** C8, as stated, fails: an item whose expression is invalid is not omitted.
    In the context [{a: 2, b: 3}], a list with the valid item [a+b] and an
    item whose expression [a#b] the lexer rejects makes the whole call fail
    with InvalidExpression; the valid item is not applied. *)
Lemma invalid_expression_is_an_error :
  Jexl.tokenize "a#b" = None
  ∧ outcome (processExpressionAttributes false
               [derived None "s" "Number" "a+b"; derived None "bad" "Number" "a#b"] ab)
    = inl (InvalidExpression "a#b")
  ∧ outcome (processExpressionAttributes false [derived None "s" "Number" "a+b"] ab)
    = inr [{| object_id := None; name := "s"; type := "Number"; expression := None;
              value := VNum (Dec 5 0) |}].
Proof. repeat split; vm_compute; reflexivity. Qed.

Lemma processExpressionAttributes_filters_witness :
  Forall (fun item => throws ab item = false ∧ null_number ab item = false) three
  ∧ filter (fun item => kept ab item = true) three = [derived None "s" "Number" "a+b"]
  ∧ exists out,
      outcome (processExpressionAttributes true three ab) = inr out
      ∧ Forall2 (fun item new =>
                   outcome (expressionApplier true ab item) = inr new)
          (filter (fun item => kept ab item = true) three) out.
Proof.
  split; [repeat constructor|]. split; [reflexivity|].
  apply (proj1 (processExpressionAttributes_filters true ab three)).
  repeat constructor.
Defined.

Example evaluate_a_plus_b :
  applyExpression "a+b" ab = (inr (VNum (Dec 5 0)), [EvalSync "a+b" ab]).
Proof. vm_compute. reflexivity. Qed.

End JexlParserFacts.

(** ** The context server *)
Module ContextServerFacts.
Import JS ContextServer ContextServerSpec.

(** *** The update response *)

(** What the inner loop amounts to: nothing for an empty array, else one
    assignment to element [i], which must exist. *)
Lemma blank_loop_once (j i : nat) (attributes : list attribute) :
  blank_loop (S j) i attributes
  = match attributes !! i with
    | Some a => mret (<[i := set_value a (VStr "")]> attributes)
    | None => throw TypeError
    end.
Proof.
  revert attributes. induction j as [|j IH]; intros attributes.
  - cbn. by destruct (attributes !! i).
  - change (blank_loop (S (S j)) i attributes)
      with (match attributes !! i with
            | Some a => blank_loop (S j) i (<[i := set_value a (VStr "")]> attributes)
            | None => throw TypeError
            end).
    destruct (attributes !! i) as [a|] eqn:Ha; [|done].
    rewrite IH.
    assert (i < length attributes)%nat as Hlt by by eapply lookup_lt_Some.
    rewrite list_lookup_insert_eq by done. cbn.
    by rewrite list_insert_insert_eq.
Qed.

(** C6. A v1 update of one entity with the attributes [a] and [b], with
    registered handlers that succeed, is answered with status 200 and one
    contextResponse of code 200 in which only [a] is blanked: [b] keeps its
    value "2". A v1 update of two entities with one attribute each is not
    answered at all: building the response throws, because the second entity
    has no attribute at index 1. *)
Theorem createUpdateResponse_blanks_one :
  createUpdateResponse two_attributes
  = (inr [ {| contextElement_of :=
                {| id := "dev1"; isPattern := VBool false; ce_type := "Device";
                   attributes := [Attribute "a" "string" (VStr "");
                                  Attribute "b" "string" (VStr "2")] |};
              statusCode_of := {| code := 200; reasonPhrase := "OK" |} |} ], [])
  ∧ outcome (updateNgsi1 byName groupOf merged updated queued "commandStatus"
               started (update_of two_attributes))
    = inr {| status := 200;
             body_of := UpdateResponse
               [ {| contextElement_of :=
                      {| id := "dev1"; isPattern := VBool false; ce_type := "Device";
                         attributes := [Attribute "a" "string" (VStr "");
                                        Attribute "b" "string" (VStr "2")] |};
                    statusCode_of := {| code := 200; reasonPhrase := "OK" |} |} ] |}
  ∧ createUpdateResponse two_elements = (inl TypeError, []).
Proof. repeat split; reflexivity. Qed.

Example update_two_attributes_calls :
  trace (updateNgsi1 byName groupOf merged updated queued "commandStatus"
           started (update_of two_attributes))
  = [GetDeviceByName (Some "dev1") "smart" "/gardens";
     FindConfigurationGroup robot;
     MergeDeviceWithConfiguration robot robot;
     UpdateHandler "dev1" "Device" "smart" "/gardens"
       [Attribute "a" "string" (VStr "1"); Attribute "b" "string" (VStr "2")];
     CommandHandler "dev1" "Device" "smart" "/gardens" []].
Proof. reflexivity. Qed.

(** When the response is built, it has one contextResponse per context
    element, each with code 200. *)
Lemma responses_loop_shape (contextElements : list contextElement) (i : nat)
    (out : list contextResponse) :
  outcome (responses_loop i contextElements) = inr out ->
  Forall2 (fun el r => id (contextElement_of r) = id el
                       ∧ code (statusCode_of r) = 200)
    contextElements out.
Proof.
  revert i out. induction contextElements as [|el rest IH]; intros i out.
  - cbn. intros [= <-]. constructor.
  - cbn [responses_loop]. rewrite outcome_mbind.
    destruct (outcome (blank_loop _ _ _)) as [x|blanked]; [done|].
    rewrite outcome_mbind.
    destruct (outcome (responses_loop (S i) rest)) as [x|others] eqn:Hrest; [done|].
    cbn. intros [= <-]. constructor; [done|]. by eapply IH.
Qed.

(** *** Attributes and commands *)

Lemma attributeLoop1_partition (remaining deviceCommands attributes commands : list attribute) :
  attributeLoop1 remaining deviceCommands attributes commands
  = (attributes ++ filter (fun a => command_named (name a) deviceCommands = false) remaining,
     commands ++ filter (fun a => command_named (name a) deviceCommands = true) remaining).
Proof.
  revert attributes commands.
  induction remaining as [|a rest IH]; intros attributes commands.
  - cbn. by rewrite !app_nil_r.
  - cbn [attributeLoop1]. destruct (command_named (name a) deviceCommands) eqn:Hc.
    + rewrite IH, filter_cons_False, filter_cons_True by (by rewrite ?Hc).
      by rewrite <- app_assoc.
    + rewrite IH, filter_cons_True, filter_cons_False by (by rewrite ?Hc).
      by rewrite <- app_assoc.
Qed.

(** In the v1 pipeline the split is a partition by command name. *)
Lemma splitUpdatesNgsi1_partition (contextElement : contextElement) (d : device)
    (deviceCommands : list attribute) :
  commands d = Some deviceCommands ->
  splitUpdatesNgsi1 contextElement d
  = (filter (fun a => command_named (name a) deviceCommands = false)
       (attributes contextElement),
     filter (fun a => command_named (name a) deviceCommands = true)
       (attributes contextElement)).
Proof.
  intros Hc. unfold splitUpdatesNgsi1. rewrite Hc. apply attributeLoop1_partition.
Qed.

Lemma attributeLoop2_bodies (remaining : entity) (deviceCommands : list attribute)
    (commands : list item) :
  Forall (fun kp => is_body kp = true) remaining ->
  attributeLoop2 remaining deviceCommands commands
  = (inr (commands
          ++ map item_of
               (filter (fun kp => command_named kp.1 deviceCommands = true) remaining)),
     []).
Proof.
  intros Hall. revert commands.
  induction Hall as [|[i p] rest Hp _ IH]; intros commands.
  - cbn. by rewrite app_nil_r.
  - destruct p as [v|t v]; [done|].
    cbn [attributeLoop2]. destruct (command_named i deviceCommands) eqn:Hc.
    + rewrite filter_cons_True by (cbn; exact Hc).
      unfold mbind, M_bind. cbn [named bind mret M_ret ret].
      rewrite IH. cbn. by rewrite <- app_assoc.
    + rewrite filter_cons_False by (cbn; rewrite Hc; discriminate). apply IH.
Qed.

Lemma attributes2_bodies (remaining : entity) (attributes : list item) :
  Forall (fun kp => is_body kp = true \/ reserved kp.1 = true) remaining ->
  attributes2 remaining attributes
  = (inr (attributes
          ++ map item_of (filter (fun kp => reserved kp.1 = false) remaining)),
     []).
Proof.
  intros Hall. revert attributes.
  induction Hall as [|[i p] rest Hp _ IH]; intros attributes.
  - cbn. by rewrite app_nil_r.
  - cbn [attributes2]. unfold reserved in *. cbn [fst] in *.
    destruct (String.eqb i "type") eqn:Ht; cbn [negb andb orb].
    { rewrite filter_cons_False by (cbn; rewrite Ht; discriminate). apply IH. }
    destruct (String.eqb i "id") eqn:Hi; cbn [negb andb orb].
    { rewrite filter_cons_False by (cbn; rewrite Ht, Hi; discriminate). apply IH. }
    destruct Hp as [Hp|Hp]; [|discriminate].
    destruct p as [v|t v]; [done|].
    rewrite filter_cons_True by (cbn; by rewrite Ht, Hi).
    unfold mbind, M_bind. cbn [named bind mret M_ret ret].
    rewrite IH. cbn. by rewrite <- app_assoc.
Qed.

(** In the v2 pipeline the commands are the keys that name a command, and
    the attributes are all the keys but [id] and [type], commands included. *)
Lemma splitUpdatesNgsi2_lists (contextElement : entity) (d : device)
    (deviceCommands : list attribute) :
  commands d = Some deviceCommands ->
  Forall (fun kp => is_body kp = true) contextElement ->
  splitUpdatesNgsi2 contextElement d
  = (inr (map item_of (filter (fun kp => reserved kp.1 = false) contextElement),
          map item_of
            (filter (fun kp => command_named kp.1 deviceCommands = true) contextElement)),
     []).
Proof.
  intros Hc Hall. unfold splitUpdatesNgsi2. rewrite Hc.
  rewrite attributeLoop2_bodies by done.
  rewrite attributes2_bodies by (eapply Forall_impl; [exact Hall|]; by left).
  done.
Qed.

(** In the v2 pipeline every attribute that names a command is in both
    lists. *)
Lemma splitUpdatesNgsi2_command_in_both (contextElement : entity) (d : device)
    (deviceCommands : list attribute) (i t : string) (v : jsval) :
  commands d = Some deviceCommands ->
  Forall (fun kp => is_body kp = true) contextElement ->
  (i, Body t v) ∈ contextElement ->
  command_named i deviceCommands = true ->
  reserved i = false ->
  exists attributes commands,
    splitUpdatesNgsi2 contextElement d = (inr (attributes, commands), [])
    ∧ Named (Attribute i t v) ∈ attributes
    ∧ Named (Attribute i t v) ∈ commands.
Proof.
  intros Hc Hall Hin Hcmd Hres. eexists _, _.
  split; [by apply splitUpdatesNgsi2_lists|].
  split; apply (list_elem_of_fmap_2 item_of _ (i, Body t v));
    by apply list_elem_of_filter.
Qed.

(** C2. For the same update of a device that declares the command [move],
    the v1 split puts [move] in the commands only, and the v2 split puts it
    in the commands and in the attributes as well. *)
Theorem splitUpdatesNgsi2_keeps_commands_as_attributes :
  splitUpdatesNgsi1 robot_element robot = ([temp], [move])
  ∧ splitUpdatesNgsi2 robot_entity robot
    = (inr ([Named move; Named temp], [Named move]), []).
Proof. split; reflexivity. Qed.

(** *** Registrations *)

Section Registrations.
Context {N W : Type}.
Variable getDeviceByName : option string -> string -> string -> error + device.
Variable findConfigurationGroup : device -> error + device.
Variable mergeDeviceWithConfiguration : device -> device -> error + device.
Variable ngsi_update : device -> list attribute -> error + unit.
Variable commands_add : string -> string -> option string -> attribute -> error + unit.
Variable COMMAND_STATUS : string.

(** C5. [clear] empties the middleware chain and unsets the update, command
    and notification handlers, and leaves the query handler as it was: a
    query handler registered before [clear] is still registered after it.
    An update request that arrives after [clear] is answered with status 500
    and the error name "Error", without any call to a collaborator. *)
Theorem clear_keeps_queryHandler (st : state N W) (h : query_handler)
    (req : updateRequest) :
  notificationMiddlewares (clear st) = []
  ∧ updateHandler (clear st) = Null
  ∧ commandHandler (clear st) = Null
  ∧ notificationHandler (clear st) = Null
  ∧ queryHandler (clear st) = queryHandler st
  ∧ registered (queryHandler (clear (setQueryHandler h st))) = true
  ∧ updateNgsi1 getDeviceByName findConfigurationGroup mergeDeviceWithConfiguration
      ngsi_update commands_add COMMAND_STATUS (clear st) req
    = (inr {| status := 500;
              body_of := UpdateErrorNgsi1 (contextElements req) 500 "Error"
                           "[object Object]" |}, []).
Proof. repeat split. Qed.
End Registrations.

Example clear_started :
  registered (queryHandler (clear started)) = true
  ∧ registered (updateHandler (clear started)) = false.
Proof. split; reflexivity. Qed.

(** *** The NGSIv2 query *)

Section QueryFacts.
Context {N W : Type}.
Variable getDeviceByName : option string -> string -> string -> error + device.
Variable listDevicesWithType : option string -> string -> string -> error + deviceList.
Variable findConfigurationGroup : device -> error + device.
Variable DeviceNotFound : option string -> error.
Variable st : state N W.
Variable req : queryRequest.

Abbreviation handle :=
  (handleQueryNgsi2 getDeviceByName listDevicesWithType findConfigurationGroup
     DeviceNotFound st req).
Abbreviation route :=
  (queryNgsi2 getDeviceByName listDevicesWithType findConfigurationGroup
     DeviceNotFound st req).

(** An accepted query starts with a lookup in the device directory. *)
Lemma handleQueryNgsi2_looks_up (e : entityRef) :
  entities req = [e] ->
  present (idPattern e) = false ->
  exists rest,
    trace handle
    = (if present (ref_id e)
       then GetDeviceByName (ref_id e) (service req) (subservice req)
       else ListDevicesWithType (ref_type e) (service req) (subservice req))
      :: rest.
Proof.
  intros He Hp. unfold handleQueryNgsi2, createQueryRequest.
  rewrite He, Hp. cbn [ref_id ref_type].
  destruct (present (ref_id e)); unfold mbind, M_bind, trace; cbn [bind emit mret M_ret ret].
  - match goal with |- context [match ?s with inl _ => _ | inr _ => _ end] =>
      destruct s as [x|d] end; cbn; eauto.
    match goal with |- context [async_map ?f ?l] => destruct (async_map f l) end.
    eauto.
  - match goal with |- context [match ?s with inl _ => _ | inr _ => _ end] =>
      destruct s as [x|d] end; cbn; eauto.
    match goal with |- context [async_map ?f ?l] => destruct (async_map f l) end.
    eauto.
Qed.

(** C9. A v2 query whose entities array does not have exactly one element,
    or whose single entity carries an id pattern, is handed to the error
    handler as a BadRequest with code 400, and answered with status 400,
    without any call to the device directory or to a query handler. *)
Theorem handleQueryNgsi2_rejects :
  length (entities req) ≠ 1%nat
  ∨ (exists e, entities req = [e] ∧ present (idPattern e) = true) ->
  exists message : string,
    handle
    = (inl (Next {| err_code := Some 400; err_name := "BadRequest";
                    err_message := message |}), [])
    ∧ route
      = (inr {| status := 400; body_of := ErrorNgsi2 "BadRequest" message |}, []).
Proof.
  unfold queryNgsi2, handleQueryNgsi2.
  intros [Hlen|[e [He Hp]]].
  - exists "more than one entity in query".
    destruct (entities req) as [|e [|e' l]]; [done| |done].
    by destruct Hlen.
  - exists "idPattern usage in query". by rewrite He, Hp.
Qed.
End QueryFacts.

Lemma handleQueryNgsi2_rejects_witness :
  length (entities two_entities) ≠ 1%nat
  ∧ exists message : string,
      handleQueryNgsi2 byName byType groupOf NotFound started two_entities
      = (inl (Next {| err_code := Some 400; err_name := "BadRequest";
                      err_message := message |}), [])
      ∧ queryNgsi2 byName byType groupOf NotFound started two_entities
        = (inr {| status := 400; body_of := ErrorNgsi2 "BadRequest" message |}, []).
Proof.
  split; [discriminate|].
  apply (handleQueryNgsi2_rejects byName byType groupOf NotFound started two_entities).
  left. discriminate.
Defined.

Example query_with_pattern :
  queryNgsi2 byName byType groupOf NotFound started with_pattern
  = (inr {| status := 400;
            body_of := ErrorNgsi2 "BadRequest" "idPattern usage in query" |}, []).
Proof. reflexivity. Qed.

Example query_one_entity :
  queryNgsi2 byName byType groupOf NotFound (clear initial : state unit unit)
    one_entity
  = (inr {| status := 200;
            body_of := Results [[("type", Scalar (VStr "Robot"));
                                 ("id", Scalar (VStr "dev1"));
                                 ("move", Body "command" (VStr ""))]] |},
     [GetDeviceByName (Some "dev1") "smart" "/gardens";
      FindConfigurationGroup robot;
      GetDeviceByName (Some "dev1") "smart" "/gardens"]).
Proof. reflexivity. Qed.

End ContextServerFacts.

(** ** More about computations *)
Section EffectsMore.
Context {X E : Type}.
Implicit Types (x : X).

Lemma trace_bind {A B} (c : M X E A) (k : A -> M X E B) :
  trace (bind c k)
  = trace c ++ match outcome c with
               | inl _ => []
               | inr a => trace (k a)
               end.
Proof.
  destruct c as [[x|a] log]; unfold bind, trace, outcome; cbn.
  - by rewrite app_nil_r.
  - by destruct (k a).
Qed.

Lemma trace_mbind {A B} (c : M X E A) (k : A -> M X E B) :
  trace (c ≫= k)
  = trace c ++ match outcome c with
               | inl _ => []
               | inr a => trace (k a)
               end.
Proof. apply trace_bind. Qed.

Lemma trace_mbind_nil {A B} (c : M X E A) (k : A -> M X E B) :
  trace (c ≫= k) = [] -> trace c = [].
Proof. rewrite trace_mbind. by intros [? _]%app_eq_nil. Qed.

Lemma mbind_assoc {A B C} (c : M X E A) (k : A -> M X E B) (k' : B -> M X E C) :
  (c ≫= k) ≫= k' = c ≫= (fun a => k a ≫= k').
Proof.
  unfold mbind, M_bind, bind. destruct c as [[x|a] log]; [done|].
  destruct (k a) as [[x|b] log']; [done|].
  destruct (k' b) as [r log'']. by rewrite app_assoc.
Qed.

Lemma mbind_ext {A B} (c : M X E A) (k k' : A -> M X E B) :
  (forall a, k a = k' a) -> c ≫= k = c ≫= k'.
Proof.
  intros Hk. unfold mbind, M_bind, bind. destruct c as [[x|a] log]; [done|].
  by rewrite Hk.
Qed.

Lemma mbind_mret {A B} (a : A) (k : A -> M X E B) : mret a ≫= k = k a.
Proof. unfold mbind, M_bind, bind, mret, M_ret, ret. by destruct (k a). Qed.

(** A filter that returns ran its callback on every element without a
    throw. *)
Lemma filterM_inr {A} (p : A -> M X E bool) (l out : list A) :
  outcome (filterM p l) = inr out ->
  Forall (fun a => exists b, outcome (p a) = inr b) l.
Proof.
  revert out. induction l as [|a l IH]; intros out; [constructor|].
  cbn [filterM]. rewrite outcome_bind.
  destruct (outcome (p a)) as [x|b] eqn:Ha; [done|].
  rewrite outcome_bind.
  destruct (outcome (filterM p l)) as [x|rest] eqn:Hl; [done|].
  intros _. constructor; [by exists b | by eapply IH].
Qed.

Lemma mapM_inr {A B} (f : A -> M X E B) (l : list A) (out : list B) :
  outcome (mapM f l) = inr out ->
  Forall2 (fun a b => outcome (f a) = inr b) l out.
Proof.
  revert out. induction l as [|a l IH]; intros out.
  - cbn. intros [= <-]. constructor.
  - cbn [mapM]. rewrite outcome_bind.
    destruct (outcome (f a)) as [x|b] eqn:Ha; [done|].
    rewrite outcome_bind.
    destruct (outcome (mapM f l)) as [x|rest] eqn:Hl; [done|].
    cbn. intros [= <-]. constructor; [done | by apply IH].
Qed.

Lemma trace_filterM {A} (p : A -> M X E bool) (l out : list A) :
  outcome (filterM p l) = inr out ->
  trace (filterM p l) = flat_map (fun a => trace (p a)) l.
Proof.
  revert out. induction l as [|a l IH]; intros out; [done|].
  cbn [filterM flat_map]. rewrite outcome_bind, trace_bind.
  destruct (outcome (p a)) as [x|b] eqn:Ha; [done|].
  rewrite outcome_bind, trace_bind.
  destruct (outcome (filterM p l)) as [x|rest] eqn:Hl; [done|].
  intros _. rewrite (IH rest) by done. cbn. by rewrite app_nil_r.
Qed.

Lemma trace_mapM {A B} (f : A -> M X E B) (l : list A) (out : list B) :
  outcome (mapM f l) = inr out ->
  trace (mapM f l) = flat_map (fun a => trace (f a)) l.
Proof.
  revert out. induction l as [|a l IH]; intros out; [done|].
  cbn [mapM flat_map]. rewrite outcome_bind, trace_bind.
  destruct (outcome (f a)) as [x|b] eqn:Ha; [done|].
  rewrite outcome_bind, trace_bind.
  destruct (outcome (mapM f l)) as [x|rest] eqn:Hl; [done|].
  intros _. rewrite (IH rest) by done. cbn. by rewrite app_nil_r.
Qed.

(** [async.map] starts its iteratee on every element. *)
Lemma trace_async_map {A B} (f : A -> M X E B) (l : list A) :
  trace (async_map f l) = flat_map (fun a => trace (f a)) l.
Proof.
  induction l as [|a l IH]; [done|].
  cbn [async_map flat_map]. destruct (f a) as [r log] eqn:Hf.
  destruct (async_map f l) as [rs log'] eqn:Hl.
  unfold trace in *. cbn in *. by rewrite IH.
Qed.

Lemma outcome_async_map_cons {A B} (f : A -> M X E B) (a : A) (l : list A) :
  outcome (async_map f (a :: l))
  = match outcome (f a), outcome (async_map f l) with
    | inl x, _ => inl x
    | inr _, inl x => inl x
    | inr b, inr bs => inr (b :: bs)
    end.
Proof.
  cbn [async_map]. destruct (f a) as [r log]. by destruct (async_map f l) as [rs log'].
Qed.

(** [async.map] returns when the iteratee returns on every element. *)
Lemma async_map_inr {A B} (f : A -> M X E B) (l : list A) (out : list B) :
  outcome (async_map f l) = inr out
  <-> Forall2 (fun a b => outcome (f a) = inr b) l out.
Proof.
  revert out. induction l as [|a l IH]; intros out.
  - cbn. split; [intros [= <-]; constructor | by inversion 1].
  - rewrite outcome_async_map_cons. split.
    + destruct (outcome (f a)) as [x|b] eqn:Ha; [done|].
      destruct (outcome (async_map f l)) as [x|bs] eqn:Hl; [done|].
      intros [= <-]. constructor; [done | by apply IH].
    + inversion 1 as [|? b ? bs Hb Hbs]; subst. rewrite Hb.
      apply IH in Hbs. by rewrite Hbs.
Qed.

(** [async.map] reports the error of the first element, in list order, on
    which the iteratee fails. *)
Lemma async_map_inl {A B} (f : A -> M X E B) (l : list A) (x : X) :
  outcome (async_map f l) = inl x
  <-> exists l1 a l2, l = l1 ++ a :: l2
                      ∧ Forall (fun a' => exists b, outcome (f a') = inr b) l1
                      ∧ outcome (f a) = inl x.
Proof.
  induction l as [|a l IH].
  - cbn. split; [done|]. intros (l1 & a & l2 & Hl & _). by destruct l1.
  - rewrite outcome_async_map_cons. split.
    + destruct (outcome (f a)) as [x'|b] eqn:Ha.
      * intros [= <-]. exists [], a, l. by repeat split.
      * destruct (outcome (async_map f l)) as [x'|bs] eqn:Hl; [|done].
        intros [= <-]. destruct (proj1 IH eq_refl) as (l1 & a' & l2 & -> & Hall & Ha').
        exists (a :: l1), a', l2. repeat split; [|done]. constructor; eauto.
    + intros (l1 & a' & l2 & Hl & Hall & Ha').
      destruct l1 as [|a0 l1]; cbn in Hl; injection Hl as -> ->.
      * by rewrite Ha'.
      * inversion Hall as [|? ? [b Hb] Hall']; subst. rewrite Hb.
        assert (outcome (async_map f (l1 ++ a' :: l2)) = inl x) as ->; [|done].
        apply IH. by exists l1, a', l2.
Qed.

Lemma async_series_app (ts1 ts2 : list (M X E unit)) :
  async_series (ts1 ++ ts2) = bind (async_series ts1) (fun _ => async_series ts2).
Proof.
  induction ts1 as [|t ts1 IH]; cbn [app async_series].
  - unfold bind, ret. destruct (async_series ts2) as [r log]. done.
  - rewrite IH. destruct t as [[x|[]] log]; [done|]. unfold bind. cbn.
    destruct (async_series ts1) as [[x|[]] log1]; [done|].
    destruct (async_series ts2) as [r log2]. by rewrite app_assoc.
Qed.
End EffectsMore.

(** ** More about the expression plugin *)
Module JexlParserMoreFacts.
Import JS JexlParser JexlParserSpec JexlParserMore JexlParserFacts.

(** *** The context built from a list *)


(** Every binding of the context comes from an entry of the list. *)
Lemma extractContext_origin (l : list attribute) (n : string) (v : jsval) :
  extractContext l !! n = Some v ->
  exists a, a ∈ l ∧ name a = n ∧ extractContext_value (value a) = v.
Proof.
  unfold extractContext. induction l as [|x l IH] using rev_ind; [done|].
  rewrite extractContext_loop_snoc.
  assert (own (extractContext_loop l) !! n = Some v ->
          exists a, a ∈ l ++ [x] ∧ name a = n ∧ extractContext_value (value a) = v)
    as Hold.
  { intros H. destruct (IH H) as (a & Hin & Ha). exists a.
    split; [|done]. apply elem_of_app. by left. }
  unfold set_property.
  destruct (String.eqb (name x) "__proto__"
            && negb (null_prototype (extractContext_loop l))).
  - by destruct (extractContext_value (value x)).
  - cbn [own]. destruct (decide (name x = n)) as [<-|Hne].
    + rewrite lookup_insert_eq. intros [= <-]. exists x.
      split; [|done]. apply elem_of_app. right. left.
    + by rewrite lookup_insert_ne.
Qed.





Example extractContext_null_prototype :
  extractContext [measure "__proto__" VNull; measure "__proto__" (VStr "5")]
  = <["__proto__" := VNum (Int 5)]> ∅
  ∧ extractContext [measure "__proto__" (VStr "5")] = ∅.
Proof. split; vm_compute; reflexivity. Qed.

(** X2. A name bound to a string is bound to a raw value of the list that
    does not parse to a non-zero number and is neither "true" nor "false"; a
    name bound to a boolean comes from a raw value whose string form is
    "true" or "false". *)
Theorem extractContext_kinds (l : list attribute) (n : string) :
  (forall s : string,
     extractContext l !! n = Some (VStr s) ->
     (exists a, a ∈ l ∧ name a = n ∧ value a = VStr s)
     ∧ number_truthy (parseInt (VStr s)) = false
     ∧ number_truthy (parseFloat (VStr s)) = false
     ∧ s ≠ "true" ∧ s ≠ "false")
  ∧ (forall b : bool,
       extractContext l !! n = Some (VBool b) ->
       exists a, a ∈ l ∧ name a = n
                 ∧ ToString (value a) = (if b then "true" else "false")).
Proof.
  assert (forall v, extractContext l !! n = Some v ->
            exists a, a ∈ l ∧ name a = n ∧ extractContext_value (value a) = v) as Hsrc.
  { intros v. apply extractContext_origin. }
  split.
  - intros s Hs. destruct (Hsrc _ Hs) as (a & Hin & Ha & Hv).
    unfold extractContext_value in Hv.
    destruct (number_truthy (parseInt (value a))) eqn:Hi; [done|].
    destruct (number_truthy (parseFloat (value a))) eqn:Hf; [done|].
    destruct (String.eqb_spec (ToString (value a)) "true") as [|Ht]; [done|].
    destruct (String.eqb_spec (ToString (value a)) "false") as [|Hfa]; [done|].
    rewrite Hv in *. cbn [ToString] in *. eauto 10.
  - intros b Hb. destruct (Hsrc _ Hb) as (a & Hin & Ha & Hv).
    exists a. split; [done|]. split; [done|].
    unfold extractContext_value in Hv.
    destruct (number_truthy (parseInt (value a))) eqn:Hi; [done|].
    destruct (number_truthy (parseFloat (value a))) eqn:Hf; [done|].
    destruct (String.eqb_spec (ToString (value a)) "true") as [Ht|Ht].
    { by injection Hv as <-. }
    destruct (String.eqb_spec (ToString (value a)) "false") as [Hfa|Hfa].
    { by injection Hv as <-. }
    rewrite Hv in *. by destruct b.
Qed.

(** *** The scope check *)

Section Scope.
Context `{engine : Jexl.Engine}.

(** X3. The scope check answers true exactly when the expression tokenizes,
    all its identifiers are in scope and the evaluation returns. It calls
    the evaluator exactly when the expression tokenizes with all identifiers
    in scope, and then once. The only error it throws is InvalidExpression,
    for the expression it was given. *)
Theorem contextAvailable_outcomes (e : string) (context : Context) :
  (outcome (contextAvailable e context) = inr true
   <-> valid context e = true ∧ is_Some (Jexl.evaluate e context))
  ∧ trace (contextAvailable e context)
    = (if valid context e then [EvalSync e context] else [])
  ∧ (forall x, outcome (contextAvailable e context) = inl x ->
               x = InvalidExpression e).
Proof.
  rewrite contextAvailable_cases. unfold valid.
  destruct (Jexl.tokenize e) as [tokens|]; cbn.
  - destruct (forallb (in_scope context) (identifiers tokens)); cbn.
    + destruct (Jexl.evaluate e context) as [r|]; cbn.
      * split; [split; [eauto | done] |]. split; [done|]. by intros x.
      * split; [split; [done | by intros [_ [? ?]]] |].
        split; [done|]. by intros x [= <-].
    + split; [split; [done | by intros [? _]] |]. split; [done|]. by intros x.
  - split; [split; [done | by intros [? _]] |]. split; [done|]. by intros x [= <-].
Qed.

Lemma in_scope_mono (context context' : Context) (t : Jexl.token) :
  dom context ⊆ dom context' ->
  in_scope context t = true -> in_scope context' t = true.
Proof.
  intros Hsub. unfold in_scope, includes. rewrite !orb_true_iff.
  intros [Hin|Htr]; [left | by right].
  destruct (Jexl.value t) as [| | | |x]; try done.
  apply bool_decide_eq_true in Hin. apply bool_decide_eq_true.
  apply elem_of_Object_keys. apply elem_of_Object_keys in Hin.
  apply elem_of_dom. apply elem_of_dom in Hin. by apply Hsub.
Qed.

(** X4. Removing variables from a context cannot bring an expression into
    scope: an expression that the check refuses against a context is refused
    against every context with fewer keys, again without being evaluated. *)
Theorem contextAvailable_fewer_keys (e : string) (context context' : Context) :
  dom context ⊆ dom context' ->
  outcome (contextAvailable e context') = inr false ->
  contextAvailable e context = (inr false, []).
Proof.
  intros Hsub. rewrite !contextAvailable_cases.
  destruct (Jexl.tokenize e) as [tokens|]; [|done].
  destruct (forallb (in_scope context') (identifiers tokens)) eqn:Hall'.
  { by destruct (Jexl.evaluate e context'). }
  intros _.
  destruct (forallb (in_scope context) (identifiers tokens)) eqn:Hall; [|done].
  rewrite forallb_forall in Hall.
  assert (forallb (in_scope context') (identifiers tokens) = true) as Habs.
  { apply forallb_forall. intros t Ht. eapply in_scope_mono; [done|]. by apply Hall. }
  congruence.
Qed.
End Scope.

Lemma contextAvailable_fewer_keys_witness :
  dom (<["b" := VNum (Int 3)]> ∅ : Context) ⊆ dom ab
  ∧ outcome (contextAvailable "c+b" ab) = inr false
  ∧ contextAvailable "c+b" (<["b" := VNum (Int 3)]> ∅) = (inr false, []).
Proof.
  assert (dom (<["b" := VNum (Int 3)]> ∅ : Context) ⊆ dom ab) as Hsub.
  { apply subseteq_dom. unfold ab. apply insert_mono, map_empty_subseteq. }
  split; [exact Hsub|]. split; [reflexivity|].
  by apply (contextAvailable_fewer_keys "c+b" _ ab).
Defined.

(** *** The batch *)

Section BatchMore.
Context `{engine : Jexl.Engine}.
Variable checkNgsi2 : bool.
Variable context : Context.

Lemma check_inr (item : attribute) (b : bool) :
  outcome (check context item) = inr b ->
  b = kept context item
  ∧ trace (check context item)
    = (if b then evaluation context item else []).
Proof.
  unfold check, kept, valid, evaluation.
  destruct (expression item) as [e|]; [|by intros [= <-]].
  destruct (String.eqb e ""); [by intros [= <-]|]. cbn [negb andb].
  rewrite contextAvailable_cases.
  destruct (Jexl.tokenize e) as [tokens|]; [|done].
  destruct (forallb (in_scope context) (identifiers tokens)).
  - destruct (Jexl.evaluate e context); [|done]. by intros [= <-].
  - by intros [= <-].
Qed.

Lemma expressionApplier_inr (item new : attribute) :
  outcome (expressionApplier checkNgsi2 context item) = inr new ->
  name new = name item ∧ type new = type item ∧ expression new = None
  ∧ trace (expressionApplier checkNgsi2 context item) = evaluation context item.
Proof.
  unfold expressionApplier, evaluation.
  destruct (expression item) as [e|]; [|done].
  rewrite outcome_mbind, trace_mbind. unfold applyExpression, evalSync.
  destruct (Jexl.evaluate e context) as [r|]; [|done]. cbn.
  rewrite outcome_mbind, trace_mbind.
  destruct (String.eqb (type item) "Number").
  - unfold isFloat. destruct (negb (isNaN r)); [|by intros [= <-]].
    destruct r; try done; by intros [= <-].
  - by intros [= <-].
Qed.

Lemma evaluations_filter (items : list attribute) :
  flat_map (fun item => if kept context item then evaluation context item else [])
    items
  = evaluations context (filter (fun item => kept context item = true) items).
Proof.
  unfold evaluations. induction items as [|a l IH]; [done|].
  cbn [flat_map]. destruct (kept context a) eqn:Hk.
  - rewrite filter_cons_True by done. cbn [flat_map]. by rewrite IH.
  - rewrite filter_cons_False by (by rewrite Hk). by rewrite IH.
Qed.

(** X5. Whenever the batch returns, its output has one attribute per input
    item that carries a non-empty expression in scope, in input order, with
    the item's name and type and without an expression; so the output is
    never longer than the input. *)
Theorem processExpressionAttributes_shape (list out : Datatypes.list attribute) :
  outcome (processExpressionAttributes checkNgsi2 list context) = inr out ->
  Forall2 (fun item new => name new = name item ∧ type new = type item
                           ∧ expression new = None)
    (filter (fun item => kept context item = true) list) out
  ∧ (length out <= length list)%nat.
Proof.
  unfold processExpressionAttributes. fold (check context).
  rewrite outcome_mbind.
  destruct (outcome (filterM (check context) list)) as [x|survivors] eqn:Hf; [done|].
  intros Hmap.
  assert (survivors = filter (fun item => kept context item = true) list) as ->.
  { assert (outcome (filterM (check context) list)
            = inr (filter (fun item => kept context item = true) list)) as Hf'.
    { apply filterM_returns. eapply Forall_impl; [by eapply filterM_inr|].
      intros item [b Hb]. cbn in Hb. by destruct (check_inr item b Hb) as [<- _]. }
    congruence. }
  apply mapM_inr in Hmap.
  assert (Forall2 (fun item new => name new = name item ∧ type new = type item
                                   ∧ expression new = None)
            (filter (fun item => kept context item = true) list) out) as Hshape.
  { eapply Forall2_impl; [exact Hmap|]. intros item new Hnew.
    by destruct (expressionApplier_inr item new Hnew) as (? & ? & ? & _). }
  split; [done|].
  rewrite <- (Forall2_length _ _ _ Hshape). apply length_filter.
Qed.

(** X6. Whenever the batch returns, the evaluator has been called exactly
    twice for every item in the output, first for all of them in input order
    by the scope check and then for all of them again by the transform, and
    never for an item that was dropped. *)
Theorem processExpressionAttributes_evaluates_twice
    (list out : Datatypes.list attribute) :
  outcome (processExpressionAttributes checkNgsi2 list context) = inr out ->
  trace (processExpressionAttributes checkNgsi2 list context)
  = evaluations context (filter (fun item => kept context item = true) list)
    ++ evaluations context (filter (fun item => kept context item = true) list).
Proof.
  unfold processExpressionAttributes. fold (check context).
  rewrite outcome_mbind, trace_mbind.
  destruct (outcome (filterM (check context) list)) as [x|survivors] eqn:Hf; [done|].
  intros Hmap.
  assert (Forall (fun item => outcome (check context item) = inr (kept context item)
                              ∧ trace (check context item)
                                = (if kept context item
                                   then evaluation context item else []))
            list) as Hall.
  { eapply Forall_impl; [by eapply filterM_inr|].
    intros item [b Hb]. cbn in Hb. destruct (check_inr item b Hb) as [-> Ht]. done. }
  assert (survivors = filter (fun item => kept context item = true) list) as ->.
  { assert (outcome (filterM (check context) list)
            = inr (filter (fun item => kept context item = true) list)) as Hf'.
    { apply filterM_returns. eapply Forall_impl; [exact Hall|]. by intros item [? _]. }
    congruence. }
  rewrite (trace_filterM _ _ _ Hf), (trace_mapM _ _ _ Hmap).
  f_equal.
  - rewrite <- evaluations_filter. clear Hf Hmap.
    induction Hall as [|item l [_ Ht] _ IH]; [done|].
    cbn [flat_map]. by rewrite Ht, IH.
  - apply mapM_inr in Hmap. clear Hf.
    induction Hmap as [|item new l l' Hnew _ IH]; [done|].
    destruct (expressionApplier_inr item new Hnew) as (_ & _ & _ & Ht).
    unfold evaluations in *. cbn [flat_map]. by rewrite Ht, IH.
Qed.
End BatchMore.

Lemma extractContext_kinds_witness :
  extractContext [measure "s" (VStr "0.0"); measure "p" (VStr "true")] !! "s"
  = Some (VStr "0.0")
  ∧ number_truthy (parseInt (VStr "0.0")) = false
  ∧ number_truthy (parseFloat (VStr "0.0")) = false.
Proof.
  split; [reflexivity|].
  destruct (proj1 (extractContext_kinds
                     [measure "s" (VStr "0.0"); measure "p" (VStr "true")] "s")
              "0.0" eq_refl) as (_ & Hi & Hf & _).
  split; [exact Hi | exact Hf].
Defined.

Lemma processExpressionAttributes_shape_witness :
  outcome (processExpressionAttributes true three ab)
  = inr [{| object_id := None; name := "s"; type := "Number"; expression := None;
            value := VNum (Dec 5 0) |}]
  ∧ Forall2 (fun item new => name new = name item ∧ type new = type item
                             ∧ expression new = None)
      (filter (fun item => kept ab item = true) three)
      [{| object_id := None; name := "s"; type := "Number"; expression := None;
          value := VNum (Dec 5 0) |}].
Proof.
  split; [reflexivity|].
  apply (processExpressionAttributes_shape true ab three). reflexivity.
Defined.

Lemma processExpressionAttributes_evaluates_twice_witness :
  outcome (processExpressionAttributes true three ab)
  = inr [{| object_id := None; name := "s"; type := "Number"; expression := None;
            value := VNum (Dec 5 0) |}]
  ∧ trace (processExpressionAttributes true three ab)
    = [EvalSync "a+b" ab; EvalSync "a+b" ab].
Proof.
  split; [reflexivity|].
  rewrite (processExpressionAttributes_evaluates_twice true ab three
             [{| object_id := None; name := "s"; type := "Number";
                 expression := None; value := VNum (Dec 5 0) |}]);
    reflexivity.
Defined.

End JexlParserMoreFacts.

(** ** More about the context server *)
Module ContextServerMoreFacts.
Import JS ContextServer ContextServerSpec ContextServerMore ContextServerFacts.

(** *** The update response *)

Lemma blank_loop_length (i : nat) (el : contextElement) :
  blank_loop (length (attributes el)) i (attributes el)
  = if fits i el then (inr (blanked i (attributes el)), []) else (inl TypeError, []).
Proof.
  unfold fits, blanked. destruct (attributes el) as [|a0 l]; [done|].
  change (length (a0 :: l)) with (S (length l)). rewrite blank_loop_once.
  destruct ((a0 :: l) !! i) as [a|] eqn:Ha.
  - apply lookup_lt_Some in Ha. cbn [length] in Ha.
    apply Nat.ltb_lt in Ha. by rewrite Ha.
  - apply lookup_ge_None in Ha. cbn [length] in Ha.
    apply Nat.ltb_ge in Ha. by rewrite Ha.
Qed.

Lemma responses_loop_cases (k : nat) (contextElements : list contextElement) :
  responses_loop k contextElements
  = if blankable k contextElements
    then (inr (imap (fun i el => response_at (k + i) el) contextElements), [])
    else (inl TypeError, []).
Proof.
  revert k. induction contextElements as [|el rest IH]; intros k; [done|].
  cbn [responses_loop blankable]. rewrite blank_loop_length, IH.
  destruct (fits k el); [|done]. unfold mbind, M_bind. cbn [bind andb].
  destruct (blankable (S k) rest); [|done]. cbn.
  unfold response_at at 2. rewrite Nat.add_0_r.
  do 3 f_equal. apply imap_ext. intros i x _. cbn. by rewrite Nat.add_succ_r.
Qed.

Lemma blankable_false (k : nat) (contextElements : list contextElement) :
  blankable k contextElements = false
  <-> exists i el, contextElements !! i = Some el
                   ∧ attributes el ≠ []
                   ∧ (length (attributes el) <= k + i)%nat.
Proof.
  revert k. induction contextElements as [|el rest IH]; intros k.
  - cbn. split; [done|]. by intros (i & el & ? & _).
  - cbn [blankable]. rewrite andb_false_iff, IH. split.
    + intros [Hfit|(i & el' & Hi & Hne & Hlen)].
      * exists 0%nat, el. split; [done|]. unfold fits in Hfit.
        destruct (attributes el) as [|a l] eqn:Ha; [done|]. split; [done|].
        apply Nat.ltb_ge in Hfit. rewrite Nat.add_0_r. exact Hfit.
      * exists (S i), el'. split; [done|]. split; [done|]. lia.
    + intros ([|i] & el' & Hi & Hne & Hlen).
      * injection Hi as <-. left. unfold fits.
        destruct (attributes el) as [|a l] eqn:Ha; [done|].
        apply Nat.ltb_ge. rewrite Nat.add_0_r in Hlen. exact Hlen.
      * right. exists i, el'. split; [done|]. split; [done|]. lia.
Qed.

(** X7. Building the v1 update response throws exactly when some context
    element at a position [i] of the request has attributes, but no more than
    [i] of them; otherwise it returns. It never calls a collaborator. *)
Theorem createUpdateResponse_throws_iff (contextElements : list contextElement) :
  (outcome (createUpdateResponse contextElements) = inl TypeError
   <-> exists i el, contextElements !! i = Some el
                    ∧ attributes el ≠ []
                    ∧ (length (attributes el) <= i)%nat)
  ∧ (outcome (createUpdateResponse contextElements) ≠ inl TypeError ->
     exists out, outcome (createUpdateResponse contextElements) = inr out)
  ∧ trace (createUpdateResponse contextElements) = [].
Proof.
  unfold createUpdateResponse. rewrite responses_loop_cases.
  rewrite <- (blankable_false 0 contextElements).
  destruct (blankable 0 contextElements); cbn.
  - split; [done|]. split; [eauto | done].
  - split; [done|]. split; [done | done].
Qed.

(** X8. When the v1 update response is built, it holds one contextResponse
    per context element, in order, each with the element's id and type, with
    [isPattern] false and status 200 OK. The attributes of the element at
    position [i] keep their number, names and types, and only the attribute
    at position [i] of that element has its value replaced by the empty
    string. *)
Theorem createUpdateResponse_shape (contextElements : list contextElement)
    (out : list contextResponse) :
  outcome (createUpdateResponse contextElements) = inr out ->
  length out = length contextElements
  ∧ forall i el,
      contextElements !! i = Some el ->
      exists r,
        out !! i = Some r
        ∧ statusCode_of r = {| code := 200; reasonPhrase := "OK" |}
        ∧ id (contextElement_of r) = id el
        ∧ ce_type (contextElement_of r) = ce_type el
        ∧ isPattern (contextElement_of r) = VBool false
        ∧ length (attributes (contextElement_of r)) = length (attributes el)
        ∧ forall j a,
            attributes el !! j = Some a ->
            attributes (contextElement_of r) !! j
            = Some (if bool_decide (j = i) then set_value a (VStr "") else a).
Proof.
  unfold createUpdateResponse. rewrite responses_loop_cases.
  destruct (blankable 0 contextElements); [|done]. cbn. intros [= <-].
  split; [by rewrite length_imap|]. intros i el Hi.
  exists (response_at i el). split.
  { rewrite list_lookup_imap, Hi. done. }
  cbn. repeat (split; [done|]). unfold blanked.
  destruct (attributes el !! i) as [a0|] eqn:Ha0.
  - split; [by rewrite length_insert|]. intros j a Hj.
    destruct (decide (j = i)) as [->|Hne].
    + rewrite bool_decide_eq_true_2 by done.
      rewrite list_lookup_insert_eq by by eapply lookup_lt_Some. congruence.
    + rewrite bool_decide_eq_false_2 by done.
      by rewrite list_lookup_insert_ne.
  - split; [done|]. intros j a Hj. rewrite bool_decide_eq_false_2; [done|].
    intros ->. congruence.
Qed.

Lemma createUpdateResponse_shape_witness :
  outcome (createUpdateResponse two_attributes)
  = inr [response_at 0 (ContextElement "dev1" (VStr "false") "Device"
                          [Attribute "a" "string" (VStr "1");
                           Attribute "b" "string" (VStr "2")])]
  ∧ length [response_at 0 (ContextElement "dev1" (VStr "false") "Device"
                             [Attribute "a" "string" (VStr "1");
                              Attribute "b" "string" (VStr "2")])]
    = length two_attributes.
Proof.
  split; [reflexivity|].
  apply (createUpdateResponse_shape two_attributes). reflexivity.
Defined.

(** *** Attributes and commands *)

Lemma command_named_spec (n : string) (deviceCommands : list attribute) :
  command_named n deviceCommands = true
  <-> exists c, c ∈ deviceCommands ∧ name c = n.
Proof.
  induction deviceCommands as [|c rest IH]; cbn [command_named].
  - split; [done|]. intros (c & Hin & _). by apply not_elem_of_nil in Hin.
  - destruct (String.eqb_spec n (name c)) as [->|Hne].
    + split; [|done]. intros _. exists c. split; [left|done].
    + rewrite IH. split.
      * intros (c' & Hin & Hc). exists c'. split; [by right|done].
      * intros (c' & Hin & Hc). apply elem_of_cons in Hin as [->|Hin]; [congruence|].
        by exists c'.
Qed.

Lemma splitUpdatesNgsi1_filters (contextElement : contextElement) (d : device) :
  splitUpdatesNgsi1 contextElement d
  = (filter (fun a => command_named (name a) (declared d) = false)
       (attributes contextElement),
     filter (fun a => command_named (name a) (declared d) = true)
       (attributes contextElement)).
Proof.
  unfold declared. destruct (commands d) as [deviceCommands|] eqn:Hc.
  - by apply splitUpdatesNgsi1_partition.
  - unfold splitUpdatesNgsi1. rewrite Hc. cbn. f_equal.
    + induction (attributes contextElement) as [|a l IH]; [done|].
      rewrite filter_cons_True by done. by rewrite <- IH.
    + induction (attributes contextElement) as [|a l IH]; [done|].
      by rewrite filter_cons_False.
Qed.

(** X9. In the v1 pipeline the split is a partition of the attributes of
    the context element by the names of the commands the device declares:
    the two lists together hold every attribute exactly once, each list is in
    input order, the commands are the attributes that carry the name of a
    declared command and the plain attributes are the others. A device
    without commands has every attribute classified as plain. *)
Theorem splitUpdatesNgsi1_partitions (contextElement : contextElement) (d : device) :
  (splitUpdatesNgsi1 contextElement d).1 ++ (splitUpdatesNgsi1 contextElement d).2
    ≡ₚ attributes contextElement
  ∧ sublist (splitUpdatesNgsi1 contextElement d).1 (attributes contextElement)
  ∧ sublist (splitUpdatesNgsi1 contextElement d).2 (attributes contextElement)
  ∧ (forall a, a ∈ (splitUpdatesNgsi1 contextElement d).2
               <-> a ∈ attributes contextElement
                   ∧ exists c, c ∈ declared d ∧ name c = name a)
  ∧ (forall a, a ∈ (splitUpdatesNgsi1 contextElement d).1
               <-> a ∈ attributes contextElement
                   ∧ forall c, c ∈ declared d -> name c ≠ name a)
  ∧ (declared d = [] ->
     splitUpdatesNgsi1 contextElement d = (attributes contextElement, [])).
Proof.
  rewrite splitUpdatesNgsi1_filters. cbn [fst snd].
  split; [|split; [apply sublist_filter | split; [apply sublist_filter|]]].
  - rewrite Permutation_app_comm.
    rewrite <- (filter_app_complement
                  (fun a => command_named (name a) (declared d) = true)
                  (attributes contextElement)) at 3.
    f_equiv. apply reflexive_eq. apply list_filter_iff. intros a.
    by destruct (command_named (name a) (declared d)).
  - split; [|split].
    + intros a. rewrite list_elem_of_filter, command_named_spec. tauto.
    + intros a. rewrite list_elem_of_filter. split.
      * intros [Hc Hin]. split; [done|]. intros c Hcin Hname.
        assert (command_named (name a) (declared d) = true) as Habs;
          [|congruence].
        apply command_named_spec. by exists c.
      * intros [Hin Hnone]. split; [|done].
        apply not_true_is_false. intros Hc.
        apply command_named_spec in Hc as (c & Hcin & Hname). by eapply Hnone.
    + intros ->. f_equal.
      * induction (attributes contextElement) as [|a l IH]; [done|].
        rewrite filter_cons_True by done. by rewrite IH.
      * induction (attributes contextElement) as [|a l IH]; [done|].
        by rewrite filter_cons_False.
Qed.

Lemma named_inr (i : string) (p : property) :
  named i p = if nullish p then (inl TypeError, []) else (inr (item_of (i, p)), []).
Proof. by destruct p as [[]|]. Qed.

Lemma attributeLoop2_cases (remaining : entity) (deviceCommands : list attribute)
    (commands : list item) :
  attributeLoop2 remaining deviceCommands commands
  = if existsb (fun kp => command_named kp.1 deviceCommands && nullish kp.2) remaining
    then (inl TypeError, [])
    else (inr (commands
               ++ map item_of
                    (filter (fun kp => command_named kp.1 deviceCommands = true)
                       remaining)), []).
Proof.
  revert commands. induction remaining as [|[i p] rest IH]; intros commands.
  - cbn. by rewrite app_nil_r.
  - cbn [attributeLoop2 existsb fst snd].
    destruct (command_named i deviceCommands) eqn:Hc; cbn [andb orb].
    + rewrite named_inr. destruct (nullish p); [done|].
      unfold mbind, M_bind. cbn [bind]. rewrite IH.
      rewrite filter_cons_True by done.
      destruct (existsb _ rest); [done|]. cbn. by rewrite <- app_assoc.
    + rewrite IH. rewrite filter_cons_False by (cbn; rewrite Hc; discriminate).
      done.
Qed.

Lemma attributes2_cases (remaining : entity) (attributes : list item) :
  attributes2 remaining attributes
  = if existsb (fun kp => negb (reserved kp.1) && nullish kp.2) remaining
    then (inl TypeError, [])
    else (inr (attributes
               ++ map item_of (filter (fun kp => reserved kp.1 = false) remaining)),
          []).
Proof.
  revert attributes. induction remaining as [|[i p] rest IH]; intros attributes.
  - cbn. by rewrite app_nil_r.
  - cbn [attributes2 existsb fst snd].
    assert (negb (String.eqb i "type") && negb (String.eqb i "id") = negb (reserved i))
      as -> by (unfold reserved; by destruct (String.eqb i "type"), (String.eqb i "id")).
    destruct (reserved i) eqn:Hr; cbn [negb andb orb].
    + rewrite IH. rewrite filter_cons_False by (cbn; rewrite Hr; discriminate).
      done.
    + rewrite named_inr. destruct (nullish p); [done|].
      unfold mbind, M_bind. cbn [bind]. rewrite IH.
      rewrite filter_cons_True by done.
      destruct (existsb _ rest); [done|]. cbn. by rewrite <- app_assoc.
Qed.

(** X10. When the v2 split returns, its commands are the properties of the
    entity under the keys that name a declared command, in key order, and its
    attributes are the properties under all the keys but [id] and [type], in
    key order, each named after its key. The entity's [id] and [type] are
    never among the attributes. *)
Theorem splitUpdatesNgsi2_returns (contextElement : entity) (d : device)
    (attrs cmds : list item) :
  outcome (splitUpdatesNgsi2 contextElement d) = inr (attrs, cmds) ->
  attrs
  = map item_of (filter (fun kp => reserved kp.1 = false) contextElement)
  ∧ cmds
    = map item_of
        (filter (fun kp => command_named kp.1 (declared d) = true) contextElement)
  ∧ (forall a, Named a ∈ attrs -> name a ≠ "id" ∧ name a ≠ "type").
Proof.
  unfold splitUpdatesNgsi2, declared. rewrite outcome_mbind.
  assert (outcome
            match commands d with
            | Some deviceCommands => attributeLoop2 contextElement deviceCommands []
            | None => mret []
            end
          = outcome (attributeLoop2 contextElement (default [] (commands d)) []))
    as ->.
  { destruct (commands d) as [cs|]; [done|]. cbn [default].
    rewrite attributeLoop2_cases. clear.
    induction contextElement as [|[i p] rest IH]; [done|].
    cbn [existsb fst command_named andb orb].
    rewrite filter_cons_False by (cbn; discriminate).
    exact IH. }
  rewrite attributeLoop2_cases.
  destruct (existsb _ contextElement); [done|]. cbn.
  rewrite outcome_mbind, attributes2_cases.
  destruct (existsb _ contextElement); [done|]. cbn.
  intros [= <- <-]. split; [done|]. split; [done|].
  intros a Ha. apply list_elem_of_fmap in Ha as ([k p] & Heq & Hin).
  apply list_elem_of_filter in Hin as [Hres _]. cbn in Hres.
  destruct p as [v|t v]; [done|]. injection Heq as ->. cbn.
  unfold reserved in Hres. apply orb_false_iff in Hres as [Ht Hi].
  split; intros ->; done.
Qed.

(** X11. The v2 split throws exactly when the entity holds [null] under a
    key that is neither [id] nor [type], or under a key that names a declared
    command. *)
Theorem splitUpdatesNgsi2_throws_iff (contextElement : entity) (d : device) :
  outcome (splitUpdatesNgsi2 contextElement d) = inl TypeError
  <-> exists k p, (k, p) ∈ contextElement ∧ nullish p = true
                  ∧ (reserved k = false ∨ command_named k (declared d) = true).
Proof.
  assert (forall (f : string * property -> bool),
            existsb f contextElement = true
            <-> exists k p, (k, p) ∈ contextElement ∧ f (k, p) = true) as Hex.
  { intros f. rewrite existsb_exists. split.
    - intros ([k p] & Hin & Hf). exists k, p. by rewrite list_elem_of_In.
    - intros (k & p & Hin & Hf). exists (k, p). by rewrite <- list_elem_of_In. }
  unfold splitUpdatesNgsi2, declared. rewrite outcome_mbind.
  destruct (commands d) as [cs|]; cbn [default].
  - rewrite attributeLoop2_cases.
    destruct (existsb (fun kp => command_named kp.1 cs && nullish kp.2) contextElement)
      eqn:Hcmd.
    + cbn. split; [|done]. intros _.
      apply Hex in Hcmd as (k & p & Hin & Hf). cbn in Hf.
      apply andb_true_iff in Hf as [? ?]. exists k, p. auto.
    + cbn. rewrite outcome_mbind, attributes2_cases.
      destruct (existsb (fun kp => negb (reserved kp.1) && nullish kp.2) contextElement)
        eqn:Hattr.
      * cbn. split; [|done]. intros _.
        apply Hex in Hattr as (k & p & Hin & Hf). cbn in Hf.
        apply andb_true_iff in Hf as [Hr ?]. apply negb_true_iff in Hr.
        exists k, p. auto.
      * cbn. split; [done|]. intros (k & p & Hin & Hnull & [Hr|Hc]).
        -- assert (existsb (fun kp => negb (reserved kp.1) && nullish kp.2)
                     contextElement = true) as Habs; [|congruence].
           apply Hex. exists k, p. cbn. by rewrite Hr, Hnull.
        -- assert (existsb (fun kp => command_named kp.1 cs && nullish kp.2)
                     contextElement = true) as Habs; [|congruence].
           apply Hex. exists k, p. cbn. by rewrite Hc, Hnull.
  - cbn. rewrite outcome_mbind, attributes2_cases.
    destruct (existsb (fun kp => negb (reserved kp.1) && nullish kp.2) contextElement)
      eqn:Hattr.
    + cbn. split; [|done]. intros _.
      apply Hex in Hattr as (k & p & Hin & Hf). cbn in Hf.
      apply andb_true_iff in Hf as [Hr ?]. apply negb_true_iff in Hr.
      exists k, p. auto.
    + cbn. split; [done|]. intros (k & p & Hin & Hnull & [Hr|Hc]); [|done].
      assert (existsb (fun kp => negb (reserved kp.1) && nullish kp.2)
                contextElement = true) as Habs; [|congruence].
      apply Hex. exists k, p. cbn. by rewrite Hr, Hnull.
Qed.

Lemma splitUpdatesNgsi2_returns_witness :
  outcome (splitUpdatesNgsi2 robot_entity robot)
  = inr ([Named move; Named temp], [Named move])
  ∧ [Named move; Named temp]
    = map item_of (filter (fun kp => reserved kp.1 = false) robot_entity).
Proof.
  split; [reflexivity|].
  apply (splitUpdatesNgsi2_returns robot_entity robot _ [Named move]). reflexivity.
Defined.

(** *** Side effects of an update *)

(** A series of calls logs a prefix of the calls: all of them when it
    returns, and up to the failed one when it fails. *)
Lemma series_of_calls (tasks : list (M unit)) (calls : list event) :
  Forall2 (fun task ev => exists answer : error + unit, task = call ev answer)
    tasks calls ->
  trace (async_series tasks) `prefix_of` calls
  ∧ (outcome (async_series tasks) = inr tt -> trace (async_series tasks) = calls)
  ∧ (forall x, outcome (async_series tasks) = inl x ->
       exists ev e, ev ∈ calls ∧ x = Next e ∧ call ev (inl e) ∈ tasks
                    ∧ last (trace (async_series tasks)) = Some ev).
Proof.
  induction 1 as [|task ev tasks calls [answer ->] _ IH].
  - cbn. split; [done|]. split; [done|]. by intros x.
  - cbn [async_series]. rewrite outcome_bind, trace_bind.
    destruct answer as [e|[]]; cbn.
    + split; [by apply prefix_cons, prefix_nil|]. split; [done|].
      intros x [= <-]. exists ev, e.
      split; [left|]. split; [done|]. split; [left | done].
    + destruct IH as (Hpre & Hret & Hfail).
      split; [by apply prefix_cons|]. split.
      * intros Hout. by rewrite Hret.
      * intros x Hx. destruct (Hfail x Hx) as (ev' & e & Hin & -> & Htask & Hlast).
        exists ev', e. split; [by right|]. split; [done|]. split; [by right|].
        destruct (trace (async_series tasks)); [done|]. done.
Qed.

(** A series of calls stops at the first call that is answered with an
    error: the calls before it were answered without one, that call is the
    last one made, and its error is the error of the series. *)
Lemma series_stops (answer : event -> error + unit) (tasks : list (M unit))
    (calls : list event) :
  Forall2 (fun task ev => task = call ev (answer ev)) tasks calls ->
  (outcome (async_series tasks) = inr tt ->
   Forall (fun ev => answer ev = inr tt) calls
   ∧ trace (async_series tasks) = calls)
  ∧ (forall x, outcome (async_series tasks) = inl x ->
       exists l1 ev l2 e,
         calls = l1 ++ ev :: l2
         ∧ Forall (fun ev' => answer ev' = inr tt) l1
         ∧ answer ev = inl e
         ∧ x = Next e
         ∧ trace (async_series tasks) = l1 ++ [ev]).
Proof.
  induction 1 as [|task ev tasks calls -> _ IH].
  - cbn. split; [done|]. by intros x.
  - cbn [async_series]. rewrite outcome_bind, trace_bind.
    destruct (answer ev) as [e|[]] eqn:Hev; cbn.
    + split; [done|]. intros x [= <-]. exists [], ev, calls, e. by repeat split.
    + destruct IH as [Hret Hfail]. split.
      * intros Hout. destruct (Hret Hout) as [Hall ->]. split; [|done].
        by constructor.
      * intros x Hx. destruct (Hfail x Hx) as (l1 & ev' & l2 & e & -> & Hall & He & -> & ->).
        exists (ev :: l1), ev', l2, e. repeat split; try done. by constructor.
Qed.

Section SideEffects.
Variable ngsi_update : device -> list attribute -> error + unit.
Variable commands_add : string -> string -> option string -> attribute -> error + unit.
Variable COMMAND_STATUS : string.
Variable req : updateRequest.

Lemma sideEffects_calls (d : device) (deviceCommands attributes : list attribute) :
  Forall2 (fun task ev => task = call ev (update_answer ngsi_update ev))
    (sideEffects ngsi_update COMMAND_STATUS d deviceCommands attributes)
    (flat_map (fun command =>
       flat_map (fun a =>
         if String.eqb (name command) (name a)
         then [NgsiUpdate d [pending COMMAND_STATUS command]]
         else []) attributes) deviceCommands).
Proof.
  unfold sideEffects.
  induction deviceCommands as [|c cs IH]; cbn [flat_map]; [constructor|].
  apply Forall2_app; [|exact IH]. clear IH.
  induction attributes as [|a l IH]; cbn [flat_map]; [constructor|].
  apply Forall2_app; [|exact IH].
  destruct (String.eqb (name c) (name a)); [|constructor].
  constructor; [|constructor]. done.
Qed.

(** X12. The side effects of an update are status updates only: one per pair
    of a declared command and an attribute of the same name, command by
    command, each setting [<command>_status] to PENDING with the type
    COMMAND_STATUS. They are sent in that order until one fails: when all
    succeed, all are sent, and when one fails, it is the last one sent, the
    ones before it succeeded, and its error is the error of the side
    effects. When no attribute carries the name of a declared command,
    nothing is sent. *)
Theorem executeUpdateSideEffects_calls (d : device) (attributes : list attribute) :
  trace (executeUpdateSideEffects ngsi_update COMMAND_STATUS d attributes)
    `prefix_of` status_updates COMMAND_STATUS d attributes
  ∧ (outcome (executeUpdateSideEffects ngsi_update COMMAND_STATUS d attributes)
     = inr tt ->
     trace (executeUpdateSideEffects ngsi_update COMMAND_STATUS d attributes)
     = status_updates COMMAND_STATUS d attributes
     ∧ Forall (fun ev => update_answer ngsi_update ev = inr tt)
         (status_updates COMMAND_STATUS d attributes))
  ∧ (forall x,
       outcome (executeUpdateSideEffects ngsi_update COMMAND_STATUS d attributes)
       = inl x ->
       exists l1 ev l2 e,
         status_updates COMMAND_STATUS d attributes = l1 ++ ev :: l2
         ∧ Forall (fun ev' => update_answer ngsi_update ev' = inr tt) l1
         ∧ update_answer ngsi_update ev = inl e
         ∧ x = Next e
         ∧ trace (executeUpdateSideEffects ngsi_update COMMAND_STATUS d attributes)
           = l1 ++ [ev])
  ∧ ((forall a, a ∈ attributes -> command_named (name a) (declared d) = false) ->
     executeUpdateSideEffects ngsi_update COMMAND_STATUS d attributes = (inr tt, [])).
Proof.
  unfold executeUpdateSideEffects, status_updates, declared.
  pose proof (sideEffects_calls d (default [] (commands d)) attributes) as Hcalls.
  destruct (series_stops _ _ _ Hcalls) as [Hret Hfail].
  split; [|split; [|split; [exact Hfail|]]].
  { destruct (outcome (async_series
                (sideEffects ngsi_update COMMAND_STATUS d (default [] (commands d))
                   attributes))) as [x|[]] eqn:Hout.
    - destruct (Hfail x eq_refl) as (l1 & ev & l2 & e & -> & _ & _ & _ & ->).
      apply prefix_app, prefix_cons, prefix_nil.
    - by destruct (Hret eq_refl) as [_ ->]. }
  { intros Hout. by destruct (Hret Hout). }
  intros Hnone.
  assert (sideEffects ngsi_update COMMAND_STATUS d (default [] (commands d)) attributes
          = []) as ->; [|done].
  unfold sideEffects.
  assert (forall c, c ∈ default [] (commands d) ->
            forall a, a ∈ attributes -> String.eqb (name c) (name a) = false) as Hne.
  { intros c Hc a Ha. apply not_true_is_false. intros Heq%String.eqb_eq.
    specialize (Hnone a Ha).
    assert (command_named (name a) (default [] (commands d)) = true) as Habs;
      [|congruence].
    apply command_named_spec. by exists c. }
  clear Hnone Hret Hfail Hcalls. revert Hne.
  generalize (default [] (commands d)). intros cs Hne.
  induction cs as [|c cs IH]; [done|]. cbn [flat_map].
  rewrite IH by (intros c' Hc'; apply Hne; by right).
  rewrite app_nil_r.
  assert (forall a, a ∈ attributes -> String.eqb (name c) (name a) = false) as Hc
    by (apply Hne; left).
  clear -Hc. induction attributes as [|a l IH]; [done|]. cbn [flat_map].
  rewrite Hc by left. cbn. apply IH. intros a' Ha'. apply Hc. by right.
Qed.

Example executeUpdateSideEffects_stops :
  executeUpdateSideEffects
    (fun d newAttributes =>
       match newAttributes with
       | a :: _ => if String.eqb (name a) "move_status" then inl refusal else inr tt
       | [] => inr tt
       end)
    "commandStatus"
    {| dev_id := Some "dev1"; dev_type := Some "Robot"; lazy := None;
       commands := Some [Attribute "move" "command" VUndefined;
                         Attribute "stop" "command" VUndefined];
       staticAttributes := None; polling := false |}
    [Attribute "stop" "command" (VStr "now"); move]
  = (inl (Next refusal),
     [NgsiUpdate
        {| dev_id := Some "dev1"; dev_type := Some "Robot"; lazy := None;
           commands := Some [Attribute "move" "command" VUndefined;
                             Attribute "stop" "command" VUndefined];
           staticAttributes := None; polling := false |}
        [pending "commandStatus" move]]).
Proof. vm_compute. reflexivity. Qed.

Lemma pushCommandsToQueue_succeeds (d : device) (attributes : list attribute) :
  (forall a, commands_add (fiware_service req) (fiware_servicepath req) (dev_id d) a
             = inr tt) ->
  pushCommandsToQueue commands_add req d attributes
  = (inr tt,
     map (CommandsAdd (fiware_service req) (fiware_servicepath req) (dev_id d))
       attributes).
Proof.
  intros Hall. unfold pushCommandsToQueue.
  assert (async_map
            (fun a =>
               call (CommandsAdd (fiware_service req) (fiware_servicepath req)
                       (dev_id d) a)
                 (commands_add (fiware_service req) (fiware_servicepath req)
                    (dev_id d) a)) attributes
          = (inr (map (fun _ => tt) attributes),
             map (CommandsAdd (fiware_service req) (fiware_servicepath req)
                    (dev_id d)) attributes)) as ->.
  { induction attributes as [|a l IH]; [done|]. cbn [async_map map].
    rewrite IH. unfold call. by rewrite Hall. }
  cbn. by rewrite app_nil_r.
Qed.

(** X13. Pushing to the command queue adds every attribute it is given, in
    order, and goes on after a failed add; it succeeds exactly when every
    add succeeds, and otherwise reports the error of the first attribute
    whose add failed. *)
Theorem pushCommandsToQueue_adds_all (d : device) (attributes : list attribute) :
  trace (pushCommandsToQueue commands_add req d attributes)
  = map (CommandsAdd (fiware_service req) (fiware_servicepath req) (dev_id d))
      attributes
  ∧ (outcome (pushCommandsToQueue commands_add req d attributes) = inr tt
     <-> forall a, a ∈ attributes ->
           commands_add (fiware_service req) (fiware_servicepath req) (dev_id d) a
           = inr tt)
  ∧ (forall x,
       outcome (pushCommandsToQueue commands_add req d attributes) = inl x ->
       exists l1 a l2 e,
         attributes = l1 ++ a :: l2
         ∧ (forall a', a' ∈ l1 ->
              commands_add (fiware_service req) (fiware_servicepath req) (dev_id d) a'
              = inr tt)
         ∧ commands_add (fiware_service req) (fiware_servicepath req) (dev_id d) a
           = inl e
         ∧ x = Next e).
Proof.
  unfold pushCommandsToQueue.
  set (add := fun a =>
         call (CommandsAdd (fiware_service req) (fiware_servicepath req) (dev_id d) a)
           (commands_add (fiware_service req) (fiware_servicepath req) (dev_id d) a)).
  assert (forall a, trace (add a)
            = [CommandsAdd (fiware_service req) (fiware_servicepath req) (dev_id d) a])
    as Htrace.
  { intros a. unfold add, call. by destruct (commands_add _ _ _ a). }
  assert (forall a (u : unit), outcome (add a) = inr u
            <-> commands_add (fiware_service req) (fiware_servicepath req) (dev_id d) a
                = inr tt) as Hret.
  { intros a []. unfold add, call. by destruct (commands_add _ _ _ a) as [e|[]]. }
  assert (forall a x, outcome (add a) = inl x
            <-> exists e, commands_add (fiware_service req) (fiware_servicepath req)
                            (dev_id d) a = inl e ∧ x = Next e) as Hfail.
  { intros a x. unfold add, call. destruct (commands_add _ _ _ a) as [e|[]]; cbn.
    - split; [intros [= <-]; eauto | by intros (e' & [= <-] & ->)].
    - split; [done | by intros (e' & ? & _)]. }
  split; [|split].
  - rewrite trace_mbind, trace_async_map.
    assert (forall l : list attribute,
              flat_map (fun a => trace (add a)) l
              = map (CommandsAdd (fiware_service req) (fiware_servicepath req) (dev_id d)) l)
      as ->.
    { induction l as [|a l IH]; [done|]. cbn [flat_map map]. by rewrite Htrace, IH. }
    destruct (outcome (async_map add attributes)); by rewrite ?app_nil_r.
  - rewrite outcome_mbind.
    destruct (outcome (async_map add attributes)) as [x|out] eqn:Hout.
    + split; [done|]. intros Hall.
      apply async_map_inl in Hout as (l1 & a & l2 & -> & _ & Ha).
      apply Hfail in Ha as (e & He & _).
      rewrite Hall in He; [done|]. apply elem_of_app. right. left.
    + split; [|done]. intros _ a Ha.
      apply async_map_inr in Hout.
      apply list_elem_of_lookup in Ha as [i Hi].
      destruct (Forall2_lookup_l _ _ _ _ _ Hout Hi) as (u & _ & Hu).
      by apply Hret in Hu.
  - intros x. rewrite outcome_mbind.
    destruct (outcome (async_map add attributes)) as [x'|out] eqn:Hout; [|done].
    intros [= <-].
    apply async_map_inl in Hout as (l1 & a & l2 & -> & Hall & Ha).
    apply Hfail in Ha as (e & He & ->).
    exists l1, a, l2, e. repeat split; [|done].
    intros a' Ha'. rewrite Forall_forall in Hall.
    destruct (Hall a' Ha') as [u Hu]. by apply Hret in Hu.
Qed.
End SideEffects.

(** *** The v1 update, end to end *)

Lemma series_succeeds (tasks : list (M unit)) :
  Forall (fun task => outcome task = inr tt) tasks ->
  outcome (async_series tasks) = inr tt.
Proof.
  induction 1 as [|task tasks Htask _ IH]; [done|].
  cbn [async_series]. by rewrite outcome_bind, Htask.
Qed.

Section UpdateFacts.
Context {N W : Type}.
Variable getDeviceByName : option string -> string -> string -> error + device.
Variable findConfigurationGroup : device -> error + device.
Variable mergeDeviceWithConfiguration : device -> device -> error + device.
Variable ngsi_update : device -> list attribute -> error + unit.
Variable commands_add : string -> string -> option string -> attribute -> error + unit.
Variable COMMAND_STATUS : string.
Variable st : state N W.
Variable req : updateRequest.

Abbreviation generate :=
  (generateUpdateActionsNgsi1 getDeviceByName findConfigurationGroup
     mergeDeviceWithConfiguration ngsi_update commands_add COMMAND_STATUS st req).
Abbreviation handle :=
  (handleUpdateNgsi1 getDeviceByName findConfigurationGroup
     mergeDeviceWithConfiguration ngsi_update commands_add COMMAND_STATUS st req).
Abbreviation route :=
  (updateNgsi1 getDeviceByName findConfigurationGroup
     mergeDeviceWithConfiguration ngsi_update commands_add COMMAND_STATUS st req).
Abbreviation lookup_of ce :=
  (GetDeviceByName (Some (id ce)) (fiware_service req) (fiware_servicepath req)).

(** Generating the actions of a context element calls the directory only,
    starting with the lookup of the device; it fails when the lookup does. *)
Lemma generate_trace (ce : contextElement) :
  (exists rest, trace (generate ce) = lookup_of ce :: rest
                ∧ Forall (fun ev => directory_event ev = true
                                    ∧ is_lookup ev = false) rest)
  ∧ (forall x, outcome (generate ce) = inl x -> exists e, x = Next e)
  ∧ (forall e, getDeviceByName (Some (id ce)) (fiware_service req)
                 (fiware_servicepath req) = inl e ->
               outcome (generate ce) = inl (Next e)).
Proof.
  unfold generateUpdateActionsNgsi1, call.
  destruct (getDeviceByName _ _ _) as [e|d0]; cbn.
  { split; [by exists []|]. split; [intros x [= <-]; eauto | by intros e' [= <-]]. }
  destruct (findConfigurationGroup d0) as [e|g]; cbn.
  { split; [eexists; split; [done|]; by repeat constructor|].
    split; [intros x [= <-]; eauto | done]. }
  destruct (mergeDeviceWithConfiguration d0 g) as [e|d]; cbn.
  { split; [eexists; split; [done|]; by repeat constructor|].
    split; [intros x [= <-]; eauto | done]. }
  destruct (splitUpdatesNgsi1 ce d) as [attrs cmds]. cbn.
  split; [eexists; split; [done|]; by repeat constructor|].
  split; [by intros x | done].
Qed.

(** X14. When a handler is registered and the device of some context element
    of a v1 update is not found, the update fails with an error handed to the
    error handler, and nothing but the device directory has been called: no
    update handler, no command handler, no queue, no status update. The
    devices of all the context elements have been looked up all the same, in
    request order. *)
Theorem handleUpdateNgsi1_unknown_device (ce : contextElement) (e0 : error) :
  registered (updateHandler st) || registered (commandHandler st) = true ->
  ce ∈ contextElements req ->
  getDeviceByName (Some (id ce)) (fiware_service req) (fiware_servicepath req)
  = inl e0 ->
  (exists e, outcome handle = inl (Next e))
  ∧ Forall (fun ev => directory_event ev = true) (trace handle)
  ∧ filter (fun ev => is_lookup ev = true) (trace handle)
    = map (fun ce => lookup_of ce) (contextElements req).
Proof.
  intros Hreg Hin Hlookup. unfold handleUpdateNgsi1. rewrite Hreg.
  rewrite outcome_mbind, trace_mbind.
  destruct (outcome (async_map generate (contextElements req))) as [x|actions] eqn:Hgen.
  - rewrite app_nil_r, trace_async_map.
    apply async_map_inl in Hgen as (l1 & a & l2 & Hl & Hall & Ha).
    destruct (proj1 (proj2 (generate_trace a)) x Ha) as [e ->].
    split; [by exists e|]. clear. 
    induction (contextElements req) as [|c l IH]; [done|]. cbn [flat_map map].
    destruct (proj1 (generate_trace c)) as (rest & -> & Hrest).
    destruct IH as [IH1 IH2]. cbn [app]. split.
    + constructor; [done|]. apply Forall_app. split; [|done].
      eapply Forall_impl; [exact Hrest|]. by intros ev [? _].
    + rewrite filter_cons_True by done. rewrite filter_app, IH2.
      assert (filter (fun ev => is_lookup ev = true) rest = []) as ->; [|done].
      clear -Hrest. induction Hrest as [|ev rest [_ Hev] _ IH]; [done|].
      rewrite filter_cons_False by (by rewrite Hev). exact IH.
  - apply async_map_inr in Hgen.
    apply list_elem_of_lookup in Hin as [i Hi].
    destruct (Forall2_lookup_l _ _ _ _ _ Hgen Hi) as (acts & _ & Hacts).
    by rewrite (proj2 (proj2 (generate_trace ce)) e0 Hlookup) in Hacts.
Qed.

Lemma sideEffects_succeed (d : device) (attributes : list attribute) :
  (forall newAttributes, ngsi_update d newAttributes = inr tt) ->
  executeUpdateSideEffects ngsi_update COMMAND_STATUS d attributes
  = (inr tt, status_updates COMMAND_STATUS d attributes).
Proof.
  intros Hok.
  assert (outcome (executeUpdateSideEffects ngsi_update COMMAND_STATUS d attributes)
          = inr tt) as Hout.
  { unfold executeUpdateSideEffects. apply series_succeeds. unfold sideEffects.
    induction (default [] (commands d)) as [|c cs IH]; [constructor|].
    cbn [flat_map]. apply Forall_app. split; [|exact IH]. clear IH.
    induction attributes as [|a l IH]; [constructor|].
    cbn [flat_map]. apply Forall_app. split; [|exact IH].
    destruct (String.eqb (name c) (name a)); [|constructor].
    constructor; [|constructor]. unfold call. by rewrite Hok. }
  destruct (series_stops _ _ _
              (sideEffects_calls ngsi_update COMMAND_STATUS d
                 (default [] (commands d)) attributes)) as [Hret _].
  destruct (Hret Hout) as [_ Htrace].
  unfold status_updates, declared, executeUpdateSideEffects, outcome, trace in *.
  destruct (async_series _). cbn in *. by subst.
Qed.

(** X15. A v1 update of one context element whose device is found, with both
    handlers registered and every call succeeding, makes these calls and no
    others, in this order: the device lookup, the group lookup, the merge,
    the update handler with exactly the plain attributes, then the command
    handler with exactly the commands (or, for a polling device, one push to
    the queue per attribute of the element and no call to the command
    handler), then the status updates. It is answered with status 200 and one
    contextResponse. *)
Theorem updateNgsi1_dispatch (ce : contextElement) (d0 g d : device)
    (hu : update_handler) (hc : command_handler) :
  contextElements req = [ce] ->
  getDeviceByName (Some (id ce)) (fiware_service req) (fiware_servicepath req)
  = inr d0 ->
  findConfigurationGroup d0 = inr g ->
  mergeDeviceWithConfiguration d0 g = inr d ->
  updateHandler st = Handler hu ->
  commandHandler st = Handler hc ->
  hu (id ce) (ce_type ce) (fiware_service req) (fiware_servicepath req)
    (splitUpdatesNgsi1 ce d).1 = inr tt ->
  (if polling d
   then forall a, commands_add (fiware_service req) (fiware_servicepath req)
                    (dev_id d) a = inr tt
   else hc (id ce) (ce_type ce) (fiware_service req) (fiware_servicepath req)
          (splitUpdatesNgsi1 ce d).2 = inr tt) ->
  (forall newAttributes, ngsi_update d newAttributes = inr tt) ->
  route
  = (inr {| status := 200; body_of := UpdateResponse [response_at 0 ce] |},
     [lookup_of ce; FindConfigurationGroup d0; MergeDeviceWithConfiguration d0 g;
      UpdateHandler (id ce) (ce_type ce) (fiware_service req) (fiware_servicepath req)
        (splitUpdatesNgsi1 ce d).1]
     ++ (if polling d
         then map (CommandsAdd (fiware_service req) (fiware_servicepath req) (dev_id d))
                (attributes ce)
         else [CommandHandler (id ce) (ce_type ce) (fiware_service req)
                 (fiware_servicepath req) (splitUpdatesNgsi1 ce d).2])
     ++ status_updates COMMAND_STATUS d (attributes ce)).
Proof.
  intros Hreq Hd0 Hg Hd Hu Hc Hhu Hcmd Hngsi.
  assert (createUpdateResponse [ce] = (inr [response_at 0 ce], [])) as Hresp.
  { unfold createUpdateResponse. rewrite responses_loop_cases. cbn.
    unfold fits. by destruct (attributes ce). }
  assert (polling d = true ->
          pushCommandsToQueue commands_add req d (attributes ce)
          = (inr tt, map (CommandsAdd (fiware_service req) (fiware_servicepath req)
                            (dev_id d)) (attributes ce))) as Hpush.
  { intros Hp. rewrite Hp in Hcmd. by apply pushCommandsToQueue_succeeds. }
  unfold updateNgsi1, handleUpdateNgsi1. rewrite Hu, Hreq, Hresp.
  cbn [registered orb async_map]. unfold generateUpdateActionsNgsi1, call.
  rewrite Hd0. cbn. rewrite Hg. cbn. rewrite Hd. cbn.
  destruct (splitUpdatesNgsi1 ce d) as [attrs cmds] eqn:Hsplit. cbn [fst snd] in *.
  unfold createActionsArray. rewrite Hu, Hc.
  rewrite (sideEffects_succeed d (attributes ce) Hngsi).
  destruct (polling d).
  - rewrite Hpush by done. unfold call. rewrite Hhu. cbn. by rewrite !app_nil_r.
  - unfold call. rewrite Hhu, Hcmd. cbn. by rewrite !app_nil_r.
Qed.

(** X16. In a v1 update of one context element whose device is found, when
    the update handler answers with an error, the command handler, the queue
    and the status updates are not reached, and the update is answered with
    the status of that error (its code when it is between 200 and 599, else
    500), its name as reason phrase and its sanitized message as details,
    together with the request body. (With several context elements the
    actions of all of them form one series, and a handler that fails for a
    later element does so after the actions of the earlier ones.) *)
Theorem updateNgsi1_handler_error (ce : contextElement) (d0 g d : device)
    (hu : update_handler) (e : error) :
  contextElements req = [ce] ->
  getDeviceByName (Some (id ce)) (fiware_service req) (fiware_servicepath req)
  = inr d0 ->
  findConfigurationGroup d0 = inr g ->
  mergeDeviceWithConfiguration d0 g = inr d ->
  updateHandler st = Handler hu ->
  hu (id ce) (ce_type ce) (fiware_service req) (fiware_servicepath req)
    (splitUpdatesNgsi1 ce d).1 = inl e ->
  route
  = (inr {| status := status_of e;
            body_of := UpdateErrorNgsi1 [ce] (status_of e) (err_name e)
                         (sanitize (err_message e)) |},
     [lookup_of ce; FindConfigurationGroup d0; MergeDeviceWithConfiguration d0 g;
      UpdateHandler (id ce) (ce_type ce) (fiware_service req) (fiware_servicepath req)
        (splitUpdatesNgsi1 ce d).1]).
Proof.
  intros Hreq Hd0 Hg Hd Hu Hhu.
  unfold updateNgsi1, handleUpdateNgsi1. rewrite Hu, Hreq.
  cbn [registered orb async_map]. unfold generateUpdateActionsNgsi1, call.
  rewrite Hd0. cbn. rewrite Hg. cbn. rewrite Hd. cbn.
  destruct (splitUpdatesNgsi1 ce d) as [attrs cmds] eqn:Hsplit. cbn [fst snd] in *.
  unfold createActionsArray. rewrite Hu. unfold call. rewrite Hhu. done.
Qed.

(** X24. Before a handler is set, and after [clear] whatever was set before,
    every NGSIv1 update is answered with status 500, the reason phrase
    Error and the details [object Object], around the context elements of
    the request; no device is looked up and nothing else is called. *)
Theorem updateNgsi1_unregistered (s : state N W) :
  s = initial ∨ s = clear st ->
  updateNgsi1 getDeviceByName findConfigurationGroup mergeDeviceWithConfiguration
    ngsi_update commands_add COMMAND_STATUS s req
  = (inr {| status := 500;
            body_of := UpdateErrorNgsi1 (contextElements req) 500 "Error"
                         "[object Object]" |},
     []).
Proof. by intros [-> | ->]. Qed.
End UpdateFacts.

Lemma updateNgsi1_unregistered_witness :
  updateNgsi1 byName groupOf merged updated queued "commandStatus" (clear started)
    (update_of [robot_element])
  = (inr {| status := 500;
            body_of := UpdateErrorNgsi1 [robot_element] 500 "Error"
                         "[object Object]" |},
     []).
Proof.
  apply (updateNgsi1_unregistered byName groupOf merged updated queued "commandStatus"
           started (update_of [robot_element]) (clear started)).
  by right.
Defined.

Lemma handleUpdateNgsi1_unknown_device_witness :
  byName (Some "ghost") "smart" "/gardens" = inl (NotFound (Some "ghost"))
  ∧ outcome (handleUpdateNgsi1 byName groupOf merged updated queued "commandStatus"
               started (update_of [ghost_element; robot_element]))
    = inl (Next (NotFound (Some "ghost")))
  ∧ filter (fun ev => is_lookup ev = true)
      (trace (handleUpdateNgsi1 byName groupOf merged updated queued "commandStatus"
                started (update_of [ghost_element; robot_element])))
    = [GetDeviceByName (Some "ghost") "smart" "/gardens";
       GetDeviceByName (Some "dev1") "smart" "/gardens"].
Proof.
  split; [reflexivity|]. split; [reflexivity|].
  apply (handleUpdateNgsi1_unknown_device byName groupOf merged updated queued
           "commandStatus" started (update_of [ghost_element; robot_element])
           ghost_element (NotFound (Some "ghost")));
    [reflexivity | left | reflexivity].
Defined.

Lemma updateNgsi1_dispatch_witness :
  splitUpdatesNgsi1 robot_element robot = ([temp], [move])
  ∧ updateNgsi1 byName groupOf merged updated queued "commandStatus" started
      (update_of [robot_element])
    = (inr {| status := 200; body_of := UpdateResponse [response_at 0 robot_element] |},
       [GetDeviceByName (Some "dev1") "smart" "/gardens";
        FindConfigurationGroup robot;
        MergeDeviceWithConfiguration robot robot;
        UpdateHandler "dev1" "Robot" "smart" "/gardens" [temp];
        CommandHandler "dev1" "Robot" "smart" "/gardens" [move];
        NgsiUpdate robot [Attribute "move_status" "commandStatus" (VStr "PENDING")]]).
Proof.
  split; [reflexivity|].
  apply (updateNgsi1_dispatch byName groupOf merged updated queued "commandStatus"
           started (update_of [robot_element]) robot_element robot robot robot
           accept accept); reflexivity.
Defined.

Lemma updateNgsi1_handler_error_witness :
  updateNgsi1 byName groupOf merged updated queued "commandStatus" refusing
    (update_of [robot_element])
  = (inr {| status := 409;
            body_of := UpdateErrorNgsi1 [robot_element] 409 "CONFLICT"
                         "device dev1 is busy" |},
     [GetDeviceByName (Some "dev1") "smart" "/gardens";
      FindConfigurationGroup robot;
      MergeDeviceWithConfiguration robot robot;
      UpdateHandler "dev1" "Robot" "smart" "/gardens" [temp]]).
Proof.
  apply (updateNgsi1_handler_error byName groupOf merged updated queued "commandStatus"
           refusing (update_of [robot_element]) robot_element robot robot robot
           reject refusal); reflexivity.
Defined.

(** *** Error responses *)

(** X17. The status of an error response is always between 200 and 599: it
    is the code of the error when that code is in this range, and 500 when
    the error has no code or a code outside it. The v1 update error body
    repeats it. *)
Theorem status_of_range (e : error) (body : list contextElement) :
  200 <= status (queryErrorHandlingNgsi2 e) <= 599
  ∧ status (updateErrorHandlingNgsi1 body e) = status (queryErrorHandlingNgsi2 e)
  ∧ (forall c, err_code e = Some c -> 200 <= c <= 599 ->
               status (queryErrorHandlingNgsi2 e) = c)
  ∧ (forall c, err_code e = Some c -> c < 200 ∨ 599 < c ->
               status (queryErrorHandlingNgsi2 e) = 500)
  ∧ (err_code e = None -> status (queryErrorHandlingNgsi2 e) = 500)
  ∧ (exists details,
       body_of (updateErrorHandlingNgsi1 body e)
       = UpdateErrorNgsi1 body (status (updateErrorHandlingNgsi1 body e))
           (err_name e) details).
Proof.
  assert (200 <= status_of e <= 599) as Hrange.
  { unfold status_of. destruct (err_code e) as [c|]; [|lia].
    destruct ((200 <=? c) && (c <=? 599)) eqn:Hc; [|lia].
    apply andb_true_iff in Hc as [H1%Z.leb_le H2%Z.leb_le]. lia. }
  cbn. split; [exact Hrange|]. split; [done|]. split; [|split; [|split]].
  - intros c Hc [H1 H2]. unfold status_of. rewrite Hc.
    apply Z.leb_le in H1, H2. by rewrite H1, H2.
  - intros c Hc Hout. unfold status_of. rewrite Hc.
    destruct ((200 <=? c) && (c <=? 599)) eqn:Hin; [|done].
    apply andb_true_iff in Hin as [H1%Z.leb_le H2%Z.leb_le]. lia.
  - intros Hc. unfold status_of. by rewrite Hc.
  - by eexists.
Qed.

Lemma chars_of_chars (l : list ascii) :
  chars (String.string_of_list_ascii l) = l.
Proof. apply String.list_ascii_of_string_of_list_ascii. Qed.

(** X18. The description of an error response holds none of the characters
    the handlers strip (the angle brackets, both quotes, the equals sign, the
    semicolon, the parentheses) and is otherwise the message, character for
    character. A message without such characters is kept as it is, and
    sanitizing twice changes nothing more. *)
Theorem sanitize_strips (message : string) :
  Forall (fun c => forbidden c = false) (chars (sanitize message))
  ∧ chars (sanitize message)
    = filter (fun c => forbidden c = false) (chars message)
  ∧ sanitize (sanitize message) = sanitize message
  ∧ (Forall (fun c => forbidden c = false) (chars message) ->
     sanitize message = message).
Proof.
  unfold sanitize. rewrite !chars_of_chars.
  split; [|split; [done|split]].
  - apply Forall_forall. intros c Hc. by apply list_elem_of_filter in Hc as [? _].
  - f_equal. induction (chars message) as [|c l IH]; [done|].
    destruct (forbidden c) eqn:Hc.
    + by rewrite filter_cons_False by (by rewrite Hc).
    + rewrite filter_cons_True by done. rewrite filter_cons_True by done.
      by rewrite IH.
  - intros Hall.
    assert (filter (fun c => forbidden c = false) (chars message) = chars message)
      as ->.
    { induction Hall as [|c l Hc _ IH]; [done|].
      rewrite filter_cons_True by done. by rewrite IH. }
    apply String.string_of_list_ascii_of_string.
Qed.

(** *** The v2 query *)

Lemma get_set_prop (key key' : string) (p : property) (contextElement : entity) :
  get_prop key' (set_prop key p contextElement)
  = if String.eqb key key' then Some p else get_prop key' contextElement.
Proof.
  induction contextElement as [|[k q] rest IH]; cbn [set_prop get_prop].
  - done.
  - destruct (String.eqb_spec k key) as [->|Hne]; cbn [get_prop].
    + by destruct (String.eqb key key').
    + destruct (String.eqb_spec k key') as [->|Hne'].
      * destruct (String.eqb_spec key key'); [by subst|done].
      * exact IH.
Qed.

(** Assigning a list of properties one after the other: the last assignment
    to a key is the one that is read. *)
Lemma get_foldl_set_prop {A} (key_of : A -> string) (prop_of : A -> property)
    (l : list A) (contextElement : entity) (key : string) :
  get_prop key
    (foldl (fun ce x => set_prop (key_of x) (prop_of x) ce) contextElement l)
  = match last (filter (fun x => key_of x = key) l) with
    | Some x => Some (prop_of x)
    | None => get_prop key contextElement
    end.
Proof.
  induction l as [|x l IH] using rev_ind; [done|].
  rewrite foldl_snoc, get_set_prop, filter_app.
  destruct (String.eqb_spec (key_of x) key) as [Heq|Hne].
  - rewrite (filter_cons_True _ x []), filter_nil by done. by rewrite last_snoc.
  - rewrite (filter_cons_False _ x []), filter_nil by done.
    by rewrite app_nil_r.
Qed.

Section QueryMore.
Context {N W : Type}.
Variable getDeviceByName : option string -> string -> string -> error + device.
Variable listDevicesWithType : option string -> string -> string -> error + deviceList.
Variable findConfigurationGroup : device -> error + device.
Variable DeviceNotFound : option string -> error.
Variable st : state N W.
Variable req : queryRequest.

Abbreviation qhandle :=
  (handleQueryNgsi2 getDeviceByName listDevicesWithType findConfigurationGroup
     DeviceNotFound st req).
Abbreviation qroute :=
  (queryNgsi2 getDeviceByName listDevicesWithType findConfigurationGroup
     DeviceNotFound st req).
Abbreviation finish :=
  (finishQueryForDevice getDeviceByName findConfigurationGroup st req).

(** X19. When the lookup of a v2 query fails, by name or by type, the query
    is answered with the DeviceNotFound error for the requested id, whatever
    error the directory gave, after that single call: no group is looked up
    and no query handler is called. *)
Theorem handleQueryNgsi2_not_found (e : entityRef) :
  entities req = [e] ->
  present (idPattern e) = false ->
  (if present (ref_id e)
   then exists err, getDeviceByName (ref_id e) (service req) (subservice req) = inl err
   else exists err, listDevicesWithType (ref_type e) (service req) (subservice req)
                    = inl err) ->
  qhandle
  = (inl (Next (DeviceNotFound (ref_id e))),
     [if present (ref_id e)
      then GetDeviceByName (ref_id e) (service req) (subservice req)
      else ListDevicesWithType (ref_type e) (service req) (subservice req)])
  ∧ qroute
    = (inr (queryErrorHandlingNgsi2 (DeviceNotFound (ref_id e))),
       [if present (ref_id e)
        then GetDeviceByName (ref_id e) (service req) (subservice req)
        else ListDevicesWithType (ref_type e) (service req) (subservice req)]).
Proof.
  intros He Hp Hfail. unfold queryNgsi2, handleQueryNgsi2, createQueryRequest.
  rewrite He, Hp. cbn [ref_id ref_type].
  destruct (present (ref_id e)); destruct Hfail as [err ->]; done.
Qed.

(** X20. For a device whose group is found, a registered query handler is
    called exactly once, after the group lookup, with the id and type of the
    query (those of the device where the query has none) and with the
    requested attributes when there are some, else with the names of the lazy
    attributes of the group, else with [null]. *)
Theorem finishQueryForDevice_asks (attributes : option (list string))
    (e : entityRef) (d g : device) (h : query_handler) :
  findConfigurationGroup d = inr g ->
  queryHandler st = Handler h ->
  trace (finish attributes e d)
  = [FindConfigurationGroup d;
     QueryHandler (or_else (ref_id e) (dev_id d)) (or_else (ref_type e) (dev_type d))
       (service req) (subservice req) (completed attributes g)].
Proof.
  intros Hg Hh. unfold finishQueryForDevice, actualHandler, completed.
  rewrite Hg, Hh. rewrite !trace_mbind. cbn [emit trace outcome fst snd].
  assert (completeAttributes attributes (Some g)
          = (inr match attributes with
                 | Some (a :: l) => Some (a :: l)
                 | _ => map name <$> lazy g
                 end, [])) as ->.
  { unfold completeAttributes. destruct attributes as [[|a l]|]; try done;
      by destruct (lazy g). }
  cbn. rewrite trace_mbind. cbn [emit trace outcome fst snd]. cbn.
  set (asked := match attributes with
                | Some (a :: l) => Some (a :: l)
                | _ => map name <$> lazy g
                end).
  destruct (h _ _ _ _ asked) as [err|ce]; cbn; [done|].
  unfold addStaticAttributes. by destruct (staticAttributes g).
Qed.

(** X21. The built-in v2 query handler looks the device up once and, when it
    is found, answers an entity in which every requested attribute has the
    empty string as value and, as type, the type of the command of that name
    if the device declares one, else the type of the lazy attribute of that
    name, else "string". Keys that were not requested keep what the entity
    started with: the type and the id of the query. (An attribute called
    [__proto__] is left aside: assigning it does not add a key.) *)
Theorem defaultQueryHandlerNgsi2_answers (id' type' : option string)
    (service subservice : string) (attributes : list string) (d : device) :
  "__proto__" ∉ attributes ->
  getDeviceByName id' service subservice = inr d ->
  exists contextElement,
    defaultQueryHandlerNgsi2 getDeviceByName id' type' service subservice
      (Some attributes)
    = (inr contextElement, [GetDeviceByName id' service subservice])
    ∧ (forall a, a ∈ attributes ->
         get_prop a contextElement = Some (Body (default_type d a) (VStr "")))
    ∧ (forall k, k ∉ attributes ->
         get_prop k contextElement
         = get_prop k [("type", scalar_of type'); ("id", scalar_of id')]).
Proof.
  intros _ Hd. unfold defaultQueryHandlerNgsi2. rewrite Hd. eexists.
  split; [reflexivity|].
  pose proof (get_foldl_set_prop (fun a : string => a)
                (fun a => Body (default_type d a) (VStr "")) attributes
                [("type", scalar_of type'); ("id", scalar_of id')]) as Hget.
  unfold default_type in *. split.
  - intros a Ha. rewrite Hget.
    assert (a ∈ filter (fun x : string => x = a) attributes) as Hin
      by by apply list_elem_of_filter.
    destruct (filter (fun x : string => x = a) attributes) as [|b l'] eqn:Hf
      using rev_ind; [by apply not_elem_of_nil in Hin|].
    rewrite last_snoc.
    assert (b ∈ filter (fun x : string => x = a) attributes) as Hb
      by (rewrite Hf; apply elem_of_app; right; left).
    apply list_elem_of_filter in Hb as [-> _]. done.
  - intros k Hk. rewrite Hget.
    destruct (last (filter (fun x : string => x = k) attributes)) as [b|] eqn:Hlast;
      [|done].
    apply last_Some_elem_of, list_elem_of_filter in Hlast as [-> Hin]. done.
Qed.

(** X22. Merging the static attributes of a group into a v2 query result
    overrides what the handler answered: a key that is the name of a merged
    static attribute reads the type and value of the last such attribute,
    and every other key reads what the handler answered. All the static
    attributes are merged when the query requested none, else only the
    requested ones; a group without static attributes leaves the result as
    it is. (A static attribute called [__proto__] is left aside: assigning
    it does not add a key.) *)
Theorem addStaticAttributes_overrides (attributes : option (list string))
    (g : device) (contextElement : entity) :
  Forall (fun s => name s ≠ "__proto__") (default [] (staticAttributes g)) ->
  exists merged,
    addStaticAttributes attributes (Some g) contextElement = (inr merged, [])
    ∧ (forall key,
         get_prop key merged
         = match last (filter (fun s => name s = key)
                         (selected attributes (default [] (staticAttributes g)))) with
           | Some s => Some (Body (type s) (value s))
           | None => get_prop key contextElement
           end)
    ∧ (staticAttributes g = None -> merged = contextElement).
Proof.
  intros _.
  unfold addStaticAttributes. destruct (staticAttributes g) as [static|]; cbn [default].
  - eexists. split; [reflexivity|]. split; [|done]. intros key.
    assert (match attributes with
            | None | Some [] => static
            | Some _ =>
                filter (fun item =>
                          (negb (String.eqb (name item) "")
                           && bool_decide (name item ∈ default [] attributes)) = true)
                  static
            end = selected attributes static) as ->.
    { unfold selected. destruct attributes as [[|a l]|]; try done. cbn [default].
      apply list_filter_iff. intros item.
      by rewrite andb_true_iff, negb_true_iff, bool_decide_eq_true, String.eqb_neq. }
    apply (get_foldl_set_prop name (fun s => Body (type s) (value s))).
  - exists contextElement. split; [done|]. split; [|done]. intros key.
    unfold selected. by destruct attributes as [[|a l]|].
Qed.

(** X23. A v2 query by type alone, answered by a listing with a count other
    than zero: when it returns, it answers one entity per listed device, and
    it has looked up the group of every listed device once, in listing order,
    after the one listing call. *)
Theorem handleQueryNgsi2_by_type (e : entityRef) (l : deviceList)
    (results : list entity) :
  entities req = [e] ->
  present (idPattern e) = false ->
  present (ref_id e) = false ->
  listDevicesWithType (ref_type e) (service req) (subservice req) = inr l ->
  count l ≠ 0 ->
  outcome qhandle = inr results ->
  length results = length (devices l)
  ∧ exists rest,
      trace qhandle
      = ListDevicesWithType (ref_type e) (service req) (subservice req) :: rest
      ∧ filter (fun ev => is_group_lookup ev = true) rest
        = map FindConfigurationGroup (devices l).
Proof.
  intros He Hp Hid Hl Hcount.
  unfold handleQueryNgsi2, createQueryRequest. rewrite He, Hp. cbn [ref_id ref_type].
  rewrite Hid, Hl. apply Z.eqb_neq in Hcount.
  unfold mbind, M_bind. cbn [bind emit mret M_ret ret sum_map]. rewrite Hcount.
  set (f := finishQueryForDevice getDeviceByName findConfigurationGroup st req
              (attrs req) {| ref_id := ref_id e; ref_type := ref_type e;
                             idPattern := None |}).
  destruct (async_map f (devices l)) as [r log] eqn:Hmap. cbn. intros ->.
  assert (outcome (async_map f (devices l)) = inr results) as Hres
    by by rewrite Hmap.
  split.
  { apply async_map_inr in Hres. symmetry. by eapply Forall2_length. }
  exists log. split; [done|].
  assert (log = trace (async_map f (devices l))) as -> by by rewrite Hmap.
  rewrite trace_async_map. clear Hmap Hres.
  induction (devices l) as [|d ds IH]; [done|]. cbn [flat_map map].
  rewrite filter_app, IH.
  change (FindConfigurationGroup d :: map FindConfigurationGroup ds)
    with ([FindConfigurationGroup d] ++ map FindConfigurationGroup ds).
  f_equal.
  unfold f, finishQueryForDevice. rewrite trace_mbind. cbn [emit trace fst snd].
  cbn [app]. rewrite filter_cons_True by done. f_equal.
  assert (forall c : M entity,
            (forall ev, ev ∈ trace c -> is_group_lookup ev = false) ->
            filter (fun ev => is_group_lookup ev = true) (trace c) = []) as Hnone.
  { intros c Hc. induction (trace c) as [|ev t IHt]; [done|].
    rewrite filter_cons_False by (rewrite Hc; [done | left]).
    apply IHt. intros ev' Hev'. apply Hc. by right. }
  cbn [outcome fst]. apply Hnone. intros ev Hev.
  rewrite trace_mbind in Hev. apply elem_of_app in Hev as [Hev|Hev].
  { unfold completeAttributes in Hev.
    destruct (attrs req) as [[|? ?]|], (findConfigurationGroup d) as [?|g];
      cbn in Hev; try destruct (lazy g); by apply not_elem_of_nil in Hev. }
  destruct (outcome (completeAttributes _ _)) as [x|asked];
    [by apply not_elem_of_nil in Hev|].
  rewrite trace_mbind in Hev. apply elem_of_app in Hev as [Hev|Hev].
  { unfold actualHandler, defaultQueryHandlerNgsi2 in Hev.
    destruct (queryHandler st) as [| |h]; cbn in Hev.
    - destruct (getDeviceByName _ _ _) as [?|?]; [|destruct asked];
        cbn in Hev; apply list_elem_of_singleton in Hev; by subst.
    - destruct (getDeviceByName _ _ _) as [?|?]; [|destruct asked];
        cbn in Hev; apply list_elem_of_singleton in Hev; by subst.
    - destruct (h _ _ _ _ _); cbn in Hev;
        apply list_elem_of_singleton in Hev; by subst. }
  destruct (outcome (actualHandler _ _ _ _ _ _ _)) as [x|ce];
    [by apply not_elem_of_nil in Hev|].
  unfold addStaticAttributes in Hev.
  destruct (findConfigurationGroup d) as [?|g]; cbn in Hev;
    [by apply not_elem_of_nil in Hev|].
  destruct (staticAttributes g); by apply not_elem_of_nil in Hev.
Qed.
End QueryMore.

Lemma handleQueryNgsi2_not_found_witness :
  handleQueryNgsi2 byName byType groupOf NotFound started unknown_entity
  = (inl (Next (NotFound (Some "ghost"))),
     [GetDeviceByName (Some "ghost") "smart" "/gardens"])
  ∧ queryNgsi2 byName byType groupOf NotFound started unknown_entity
    = (inr (queryErrorHandlingNgsi2 (NotFound (Some "ghost"))),
       [GetDeviceByName (Some "ghost") "smart" "/gardens"]).
Proof.
  apply (handleQueryNgsi2_not_found byName byType groupOf NotFound started
           unknown_entity (entity_ref "ghost")); [reflexivity | reflexivity |].
  exists (NotFound (Some "ghost")). reflexivity.
Defined.

Lemma finishQueryForDevice_asks_witness :
  trace (finishQueryForDevice byName groupGarden started one_entity None
           (entity_ref "dev1") robot)
  = [FindConfigurationGroup robot;
     QueryHandler (Some "dev1") (Some "Robot") "smart" "/gardens" (Some ["battery"])].
Proof.
  apply (finishQueryForDevice_asks byName groupGarden started one_entity None
           (entity_ref "dev1") robot garden answer); reflexivity.
Defined.

Lemma defaultQueryHandlerNgsi2_answers_witness :
  exists contextElement,
    defaultQueryHandlerNgsi2 byName (Some "dev1") (Some "Robot") "smart" "/gardens"
      (Some ["move"; "temp"])
    = (inr contextElement, [GetDeviceByName (Some "dev1") "smart" "/gardens"])
    ∧ (forall a, a ∈ ["move"; "temp"] ->
         get_prop a contextElement = Some (Body (default_type robot a) (VStr "")))
    ∧ (forall k, k ∉ ["move"; "temp"] ->
         get_prop k contextElement
         = get_prop k [("type", scalar_of (Some "Robot"));
                       ("id", scalar_of (Some "dev1"))]).
Proof.
  apply (defaultQueryHandlerNgsi2_answers byName (Some "dev1") (Some "Robot")
           "smart" "/gardens" ["move"; "temp"] robot); [|reflexivity].
  intros Hin. repeat (apply elem_of_cons in Hin as [Hin|Hin]; [discriminate|]).
  by apply not_elem_of_nil in Hin.
Defined.

Lemma addStaticAttributes_overrides_witness :
  exists merged,
    addStaticAttributes None (Some garden)
      [("type", Scalar (VStr "Robot")); ("id", Scalar (VStr "dev1"));
       ("location", Body "string" (VStr ""))]
    = (inr merged, [])
    ∧ get_prop "location" merged = Some (Body "geo:point" (VStr "40,-3"))
    ∧ get_prop "id" merged = Some (Scalar (VStr "dev1")).
Proof.
  destruct (addStaticAttributes_overrides None garden
              [("type", Scalar (VStr "Robot")); ("id", Scalar (VStr "dev1"));
               ("location", Body "string" (VStr ""))])
    as (merged & Hmerged & Hget & _).
  { repeat constructor. discriminate. }
  exists merged. split; [exact Hmerged|].
  rewrite !Hget. split; reflexivity.
Defined.

Lemma handleQueryNgsi2_by_type_witness :
  outcome (handleQueryNgsi2 byName listed groupOf NotFound started by_type)
  = inr [ [("type", Scalar (VStr "Robot")); ("id", Scalar (VStr "dev1"))];
          [("type", Scalar (VStr "Robot")); ("id", Scalar (VStr "dev2"))] ]
  ∧ exists rest,
      trace (handleQueryNgsi2 byName listed groupOf NotFound started by_type)
      = ListDevicesWithType (Some "Robot") "smart" "/gardens" :: rest
      ∧ filter (fun ev => is_group_lookup ev = true) rest
        = [FindConfigurationGroup robot; FindConfigurationGroup rover].
Proof.
  split; [reflexivity|].
  apply (handleQueryNgsi2_by_type byName listed groupOf NotFound started by_type
           {| ref_id := None; ref_type := Some "Robot"; idPattern := None |}
           {| count := 2; devices := [robot; rover] |}
           [ [("type", Scalar (VStr "Robot")); ("id", Scalar (VStr "dev1"))];
             [("type", Scalar (VStr "Robot")); ("id", Scalar (VStr "dev2"))] ]);
    try reflexivity.
  discriminate.
Defined.

End ContextServerMoreFacts.

(** ** Notifications *)
Module NotificationsFacts.
Import JS ContextServer ContextServerSpec ContextServerMore Notifications.

Section ChainFacts.
Context {I V : Type}.
Implicit Types (d : device) (values : V) (tasks : list (middleware V)).

Lemma waterfall_app tasks tasks' d values :
  waterfall (I := I) (tasks ++ tasks') d values
  = found ← waterfall tasks d values; waterfall tasks' found.1 found.2.
Proof.
  revert d values. induction tasks as [|task tasks IH]; intros d values.
  - cbn [app waterfall]. by rewrite mbind_mret.
  - cbn [app waterfall]. rewrite mbind_assoc. apply mbind_ext.
    intros [d' values']. apply IH.
Qed.

Lemma waterfall_no_lookup tasks d values :
  filter (fun s => is_lookup s = true) (trace (waterfall (I := I) tasks d values)) = [].
Proof.
  revert d values. induction tasks as [|task tasks IH]; intros d values; [done|].
  cbn [waterfall]. rewrite trace_mbind, filter_app.
  unfold ask at 1. rewrite trace_mbind. cbn [emit trace outcome fst snd].
  destruct (task d values) as [x|[d' values']]; [done|].
  change (filter (fun s : step I V => is_lookup s = true)
            (trace (waterfall tasks d' values')) = []).
  apply IH.
Qed.

(** A chain of middlewares passes only errors of callbacks on. *)
Lemma waterfall_next tasks d values (x : exn) :
  outcome (waterfall (I := I) tasks d values) = inl x -> exists e, x = Next e.
Proof.
  revert d values. induction tasks as [|task tasks IH]; intros d values; [done|].
  cbn [waterfall]. rewrite outcome_mbind.
  unfold ask at 1. rewrite outcome_mbind. cbn [emit outcome fst].
  destruct (task d values) as [e|[d' values']]; cbn.
  - intros [= <-]. by exists e.
  - apply IH.
Qed.

Lemma applyNotificationMiddlewares_waterfall
    (s : state (notification_handler V) (middleware V)) d values :
  applyNotificationMiddlewares (I := I) s d values
  = waterfall (notificationMiddlewares s) d values.
Proof. unfold applyNotificationMiddlewares. by destruct (notificationMiddlewares s). Qed.

Lemma notify_no_lookup (s : state (notification_handler V) (middleware V))
    (h : notification_handler V) (found : device * V) :
  filter (fun s => is_lookup s = true) (trace (notify (I := I) s h found)) = [].
Proof.
  unfold notify. rewrite trace_mbind, filter_app,
    applyNotificationMiddlewares_waterfall, waterfall_no_lookup.
  destruct (outcome (waterfall _ _ _)) as [x|[d values]]; [done|].
  unfold ask. rewrite trace_mbind. cbn [emit trace outcome fst snd].
  by destruct (h d values).
Qed.

Lemma notify_next (s : state (notification_handler V) (middleware V))
    (h : notification_handler V) (found : device * V) (x : exn) :
  outcome (notify (I := I) s h found) = inl x -> exists e, x = Next e.
Proof.
  unfold notify. rewrite outcome_mbind, applyNotificationMiddlewares_waterfall.
  destruct (outcome (waterfall _ _ _)) as [x'|[d values]] eqn:Hw.
  - intros [= <-]. by eapply waterfall_next.
  - unfold ask. rewrite outcome_mbind. cbn [emit outcome fst].
    destruct (h d values) as [e|[]]; [|done]. intros [= <-]. by exists e.
Qed.

Variable st : state (notification_handler V) (middleware V).

(** X25. The notification middlewares run in the order they were added. A
    middleware that is added runs after the ones before it, on the device
    and the values that they answered, and it is not called when one of
    them failed. *)
Theorem addNotificationMiddleware_runs_last (newMiddleware : middleware V) d values :
  applyNotificationMiddlewares (I := I) (addNotificationMiddleware newMiddleware st)
    d values
  = found ← applyNotificationMiddlewares st d values;
    ask (MiddlewareCall found.1 found.2) (newMiddleware found.1 found.2).
Proof.
  rewrite !applyNotificationMiddlewares_waterfall. cbn [addNotificationMiddleware notificationMiddlewares].
  rewrite waterfall_app. apply mbind_ext. intros [d' values'].
  cbn [waterfall fst snd].
  destruct (ask (I := I) (MiddlewareCall d' values') (newMiddleware d' values'))
    as [[x|[d'' values'']] log]; [done|].
  unfold mbind, M_bind, bind, mret, M_ret, ret. by rewrite app_nil_r.
Qed.
End ChainFacts.

(** *** NGSIv1 *)
Section Ngsi1Facts.
Variable getDeviceByName : option string -> string -> string -> error + device.
Variable NotificationError : jsval -> error.
Variable st : state (notification_handler (list attribute)) (middleware (list attribute)).
Variable req : request notification.

Abbreviation create1 :=
  (createNotificationHandler1 getDeviceByName NotificationError st req).
Abbreviation handle1 :=
  (handleNotificationNgsi1 getDeviceByName NotificationError st req).
Abbreviation lookup1 :=
  (fun r : notification =>
     DeviceByName (V := list attribute) (Some (id (n_element r)))
       (header_service req) (header_servicepath req)).

Lemma is_ok_200 (code : jsval) : is_ok code = true <-> code = VStr "200".
Proof.
  destruct code as [| | |n|s]; cbn; try done.
  rewrite String.eqb_eq. split; [by intros -> | by intros [= ->]].
Qed.

Lemma createNotificationHandler1_refuses h (r : notification) :
  is_ok (n_code r) = false ->
  create1 h r = (inl (Next (NotificationError (n_code r))), []).
Proof.
  intros Hr. unfold createNotificationHandler1, checkStatus. by rewrite Hr.
Qed.

Lemma createNotificationHandler1_lookup h (r : notification) :
  is_ok (n_code r) = true ->
  filter (fun s => is_lookup s = true) (trace (create1 h r)) = [lookup1 r].
Proof.
  intros Hr. unfold createNotificationHandler1, checkStatus. rewrite Hr.
  rewrite mbind_mret, trace_mbind, filter_app.
  unfold extractInformation1 at 1. rewrite trace_mbind. unfold ask at 1.
  rewrite trace_mbind. cbn [emit trace outcome fst snd].
  unfold extractInformation1, ask. rewrite !outcome_mbind. cbn [emit outcome fst].
  destruct (getDeviceByName _ _ _) as [e|d]; [done|].
  cbn [mret M_ret ret throw outcome trace fst snd app].
  rewrite filter_cons_True by done. rewrite notify_no_lookup. done.
Qed.

Lemma createNotificationHandler1_next h (r : notification) (x : exn) :
  outcome (create1 h r) = inl x -> exists e, x = Next e.
Proof.
  unfold createNotificationHandler1, checkStatus.
  destruct (is_ok (n_code r)).
  - rewrite mbind_mret, outcome_mbind.
    unfold extractInformation1, ask. rewrite !outcome_mbind. cbn [emit outcome fst].
    destruct (getDeviceByName _ _ _) as [e|d]; cbn.
    + intros [= <-]. by exists e.
    + apply notify_next.
  - intros [= <-]. eauto.
Qed.

(** X26. A notified context response is handled only when its status code
    is the string 200. With a handler registered, the device is looked up
    for exactly the responses with that code, in their order, also after a
    response that was refused; and when some response has another code, the
    notification as a whole fails with an error for the error handler. *)
Theorem handleNotificationNgsi1_status (h : notification_handler (list attribute)) :
  notificationHandler st = Handler h ->
  (forall code, is_ok code = true <-> code = VStr "200")
  ∧ filter (fun s => is_lookup s = true) (trace handle1)
    = map lookup1 (filter (fun r => is_ok (n_code r) = true) (records req))
  ∧ ((exists r, r ∈ records req ∧ is_ok (n_code r) = false) ->
     exists e, outcome handle1 = inl (Next e)).
Proof.
  intros Hh. split; [exact is_ok_200|].
  unfold handleNotificationNgsi1. rewrite Hh. split.
  - rewrite trace_mbind, filter_app, trace_async_map.
    assert (forall o : exn + list unit,
              filter (fun s : step (option string) (list attribute) =>
                        is_lookup s = true)
                match o with
                | inl _ => []
                | inr _ => trace (mret tt : Computation exn (step (option string) (list attribute)) unit)
                end = []) as -> by by intros [?|?].
    rewrite app_nil_r.
    induction (records req) as [|r rs IH]; [done|].
    cbn [flat_map]. rewrite filter_app, IH.
    destruct (is_ok (n_code r)) eqn:Hr.
    + rewrite filter_cons_True by done.
      by rewrite createNotificationHandler1_lookup.
    + rewrite filter_cons_False by by rewrite Hr.
      by rewrite createNotificationHandler1_refuses.
  - intros (r & Hin & Hr). rewrite outcome_mbind.
    destruct (outcome (async_map (create1 h) (records req))) as [x|out] eqn:Hout.
    + apply async_map_inl in Hout as (l1 & a & l2 & _ & _ & Ha).
      apply createNotificationHandler1_next in Ha as [e ->]. by exists e.
    + apply async_map_inr in Hout.
      apply list_elem_of_lookup in Hin as [i Hi].
      destruct (Forall2_lookup_l _ _ _ _ _ Hout Hi) as (b & _ & Hb).
      by rewrite createNotificationHandler1_refuses in Hb.
Qed.
End Ngsi1Facts.

Lemma handleNotificationNgsi1_status_witness :
  filter (fun s => is_lookup s = true)
    (trace (handleNotificationNgsi1 byName BadStatus listening notified))
  = [DeviceByName (Some "dev1") "smart" "/gardens"]
  ∧ outcome (handleNotificationNgsi1 byName BadStatus listening notified)
    = inl (Next (BadStatus (VNum (Int 200)))).
Proof.
  split; [|reflexivity].
  apply (handleNotificationNgsi1_status byName BadStatus listening notified welcome).
  reflexivity.
Defined.

(** *** NGSIv2 *)
Section Ngsi2Facts.
Variable getDeviceByName : option property -> string -> string -> error + device.
Variable st : state (notification_handler (list att)) (middleware (list att)).
Variable req : request entity.

Abbreviation create2 := (createNotificationHandler2 getDeviceByName st req).
Abbreviation handle2 := (handleNotificationNgsi2 getDeviceByName st req).
Abbreviation lookup2 :=
  (fun dataElement : entity =>
     DeviceByName (V := list att) (get_prop "id" dataElement)
       (header_service req) (header_servicepath req)).
Abbreviation extracted :=
  (fun dataElement : entity =>
     map (fun kp => att_of kp.1 kp.2)
       (filter (fun kp : string * property => reserved kp.1 = false) dataElement)).

Lemma atts_loop_cases (dataElement remaining : entity) (atts : list att) :
  atts_loop dataElement remaining atts
  = if match remaining with
       | [] => false
       | _ :: _ => shadowed dataElement
       end
       || existsb (fun kp => negb (reserved kp.1) && nullish kp.2) remaining
    then (inl TypeError, [])
    else (inr (atts ++ extracted remaining), []).
Proof.
  revert atts. induction remaining as [|[key p] rest IH]; intros atts.
  - cbn. by rewrite app_nil_r.
  - cbn [atts_loop existsb fst snd]. unfold shadowed in *.
    destruct (get_prop "hasOwnProperty" dataElement) as [q|]; [done|].
    assert (forall atts',
              atts_loop dataElement rest atts'
              = if existsb (fun kp => negb (reserved kp.1) && nullish kp.2) rest
                then (inl TypeError, [])
                else (inr (atts' ++ extracted rest), [])) as Hrest.
    { intros atts'. rewrite IH. by destruct rest. }
    cbn [orb].
    assert (reserved key = negb (negb (String.eqb key "id")
                                 && negb (String.eqb key "type"))) as Hkey.
    { unfold reserved. by destruct (String.eqb key "id"), (String.eqb key "type"). }
    destruct (negb (String.eqb key "id") && negb (String.eqb key "type"));
      cbn [negb] in Hkey; rewrite Hkey; cbn [negb andb orb].
    + rewrite filter_cons_True by done.
      destruct p as [[| | | |]|t v]; cbn [nullish orb]; try done;
        rewrite Hrest; destruct (existsb _ rest); try done; cbn [map fst snd];
        by rewrite <- app_assoc.
    + rewrite filter_cons_False by (cbn [fst]; by rewrite Hkey). apply Hrest.
Qed.

Lemma extractInformation2_cases (dataElement : entity) :
  atts_loop dataElement dataElement []
  = if refused dataElement then (inl TypeError, [])
    else (inr (extracted dataElement), []).
Proof.
  rewrite atts_loop_cases. unfold refused.
  assert (match dataElement with [] => false | _ :: _ => shadowed dataElement end
          = shadowed dataElement) as -> by by destruct dataElement.
  done.
Qed.

Lemma refused_spec (dataElement : entity) :
  refused dataElement = true
  <-> is_Some (get_prop "hasOwnProperty" dataElement)
      ∨ exists kp, kp ∈ dataElement ∧ reserved kp.1 = false ∧ nullish kp.2 = true.
Proof.
  unfold refused, shadowed. rewrite orb_true_iff. split.
  - intros [Hown|Hex].
    + left. by destruct (get_prop "hasOwnProperty" dataElement).
    + right. apply existsb_exists in Hex as (kp & Hin & Hkp).
      apply andb_true_iff in Hkp as [Hr Hn]. apply negb_true_iff in Hr.
      exists kp. by rewrite list_elem_of_In.
  - intros [[q ->]|(kp & Hin & Hr & Hn)]; [by left|].
    right. apply existsb_exists. exists kp. rewrite <- list_elem_of_In.
    by rewrite Hr, Hn.
Qed.

Lemma createNotificationHandler2_starts (h : notification_handler (list att))
    (dataElement : entity) :
  (refused dataElement = true ∧ create2 h dataElement = (inl TypeError, []))
  ∨ (refused dataElement = false
     ∧ exists rest, trace (create2 h dataElement) = lookup2 dataElement :: rest).
Proof.
  unfold createNotificationHandler2, extractInformation2.
  rewrite extractInformation2_cases.
  destruct (refused dataElement); [by left|right]. split; [done|].
  rewrite trace_mbind, trace_mbind. cbn [trace outcome fst snd app].
  rewrite trace_mbind. unfold ask at 1. rewrite trace_mbind.
  cbn [emit trace outcome fst snd app]. eauto.
Qed.

(** X27. With no middleware registered, a notified entity that has no
    attribute called hasOwnProperty and whose attributes are not null is
    handed to the notification handler once, after the one lookup of the
    device by the id of the entity: with the device that was found and with
    one attribute per key other than id and type, in key order, carrying the
    key as its name and the type and value found under it. What the handler
    answers is what the notification answers. *)
Theorem createNotificationHandler2_notifies (h : notification_handler (list att))
    (dataElement : entity) (d : device) :
  notificationMiddlewares st = [] ->
  get_prop "hasOwnProperty" dataElement = None ->
  Forall (fun kp => reserved kp.1 = false -> nullish kp.2 = false) dataElement ->
  getDeviceByName (get_prop "id" dataElement)
    (header_service req) (header_servicepath req) = inr d ->
  create2 h dataElement
  = (match h d (extracted dataElement) with
     | inl e => inl (Next e)
     | inr u => inr u
     end,
     [lookup2 dataElement; HandlerCall d (extracted dataElement)]).
Proof.
  intros Hnone Hown Hall Hd.
  unfold createNotificationHandler2, extractInformation2, notify,
    applyNotificationMiddlewares.
  rewrite extractInformation2_cases, Hnone.
  assert (refused dataElement = false) as ->.
  { apply not_true_iff_false. intros [Hs|(kp & Hin & Hr & Hn)]%refused_spec.
    - rewrite Hown in Hs. by destruct Hs.
    - rewrite Forall_forall in Hall. specialize (Hall kp Hin Hr). congruence. }
  unfold ask. rewrite Hd. cbn.
  by destruct (h d _).
Qed.

(** X28. A notified entity is refused with a type error, before the device
    is looked up and without a call to a middleware or to the handler,
    exactly when it has an attribute called hasOwnProperty, or a key other
    than id and type that holds null or undefined. *)
Theorem createNotificationHandler2_throws (h : notification_handler (list att))
    (dataElement : entity) :
  (is_Some (get_prop "hasOwnProperty" dataElement)
   ∨ exists kp, kp ∈ dataElement ∧ reserved kp.1 = false ∧ nullish kp.2 = true)
  <-> create2 h dataElement = (inl TypeError, []).
Proof.
  rewrite <- refused_spec.
  destruct (createNotificationHandler2_starts h dataElement)
    as [[Hr Hthrow]|[Hr [rest Hrest]]].
  - by rewrite Hr, Hthrow.
  - rewrite Hr. split; [done|]. intros Heq. by rewrite Heq in Hrest.
Qed.

Example createNotificationHandler2_shadowed :
  createNotificationHandler2 byId listening notified2 welcome shadowing
  = (inl TypeError, []).
Proof. reflexivity. Qed.

(** X29. A notification is refused with the error of a missing handler, and
    without any call, exactly when no notification handler is registered;
    this is the case after [clear], whatever was registered before. *)
Theorem handleNotificationNgsi2_unregistered :
  (registered (notificationHandler st) = false
   <-> handle2 = (inl (Next errorNotFound), []))
  ∧ handleNotificationNgsi2 getDeviceByName (clear st) req
    = (inl (Next errorNotFound), []).
Proof.
  split; [|done]. unfold handleNotificationNgsi2.
  destruct (notificationHandler st) as [| |h]; cbn [registered]; [done|done|].
  split; [done|]. intros Heq. exfalso.
  assert (outcome (async_map (create2 h) (records req))
          = inl (Next errorNotFound)) as Hout.
  { apply (f_equal outcome) in Heq. rewrite outcome_mbind in Heq.
    destruct (outcome (async_map (create2 h) (records req))) as [x|out];
      [|done]. cbn in Heq. congruence. }
  assert (trace (async_map (create2 h) (records req)) = []) as Htrace.
  { apply (f_equal trace) in Heq. by apply trace_mbind_nil in Heq. }
  apply async_map_inl in Hout as (l1 & a & l2 & Hl & _ & Ha).
  rewrite trace_async_map, Hl, flat_map_app in Htrace.
  apply app_eq_nil in Htrace as [_ Htrace]. cbn [flat_map] in Htrace.
  apply app_eq_nil in Htrace as [Htrace _].
  destruct (createNotificationHandler2_starts h a)
    as [[_ Hthrow]|[_ [rest Hrest]]].
  - by rewrite Hthrow in Ha.
  - by rewrite Hrest in Htrace.
Qed.
End Ngsi2Facts.

Lemma createNotificationHandler2_notifies_witness :
  createNotificationHandler2 byId listening notified2 welcome robot_entity
  = (inr tt,
     [DeviceByName (Some (Scalar (VStr "dev1"))) "smart" "/gardens";
      HandlerCall robot
        [ {| att_type := Some "command"; att_value := VStr "forward";
             att_name := "move" |};
          {| att_type := Some "Number"; att_value := VStr "21";
             att_name := "temp" |} ]]).
Proof.
  apply (createNotificationHandler2_notifies byId listening notified2 welcome
           robot_entity robot); [reflexivity | reflexivity | | reflexivity].
  repeat constructor.
Defined.

End NotificationsFacts.


